(** * Gravity installer: phase executors, retry policy, storage checker, log hook

    A shallow embedding of

      - lib/install/phases/app.go         (the "app" phase executor),
      - lib/install/phases/postsystem.go  (the "wait", "nodes", "rbac" and
                                           "resources" phase executors),
      - package install                   (InitLogging and the log Hook),
      - lib/utils (StringInSlice),
      - the storage checker of package monitoring,

    together with the properties the design document states about them.

    Go values are modelled as they are used by the code: a pointer that may
    be nil is an [option], a [(value, error)] return is a [Result], an
    [error] return is an [option Error] ([None] is [nil]), unsigned 64-bit
    quantities are [Z], and effects are threaded through an explicit world. *)

From Stdlib Require Import String Ascii List ZArith Lia Bool Arith.
From Stdlib Require Import DecimalString.
Import ListNotations.
Open Scope string_scope.
Open Scope list_scope.

(** ** github.com/gravitational/trace *)

Module Trace.

Inductive ErrorKind : Type :=
| BadParameterKind
| NotFoundKind
| AccessDeniedKind
| AggregateKind
| SystemKind.

(** An error value: its class, the message it was created with and the
    messages added by successive [trace.Wrap(err, "...")] calls, innermost
    last. *)
Record Error : Type := mkError {
  errKind : ErrorKind;
  errMessage : string;
  errContext : list string
}.

Definition BadParameter (msg : string) : Error := mkError BadParameterKind msg [].
Definition NotFound (msg : string) : Error := mkError NotFoundKind msg [].

(** [trace.Wrap(err, args...)]: keeps the class and the original message,
    records the optional context. *)
Definition Wrap (e : Error) (ctx : list string) : Error :=
  mkError (errKind e) (errMessage e) (ctx ++ errContext e).

Definition IsNotFound (e : Error) : bool :=
  match errKind e with NotFoundKind => true | _ => false end.

Definition IsBadParameter (e : Error) : bool :=
  match errKind e with BadParameterKind => true | _ => false end.

(** [trace.NewAggregate(errs...)]: nil when every argument is nil. *)
Definition NewAggregate (errs : list (option Error)) : option Error :=
  match flat_map (fun o => match o with Some e => [e] | None => [] end) errs with
  | [] => None
  | e :: es =>
      Some (mkError AggregateKind
              (String.concat ", " (map errMessage (e :: es))) [])
  end.

End Trace.

Import Trace.

(** A Go [(value, error)] result. *)
Inductive Result (A : Type) : Type :=
| Ok (a : A)
| Err (e : Error).
Arguments Ok {A} a.
Arguments Err {A} e.

(** ** The world the installer runs in *)

Module Runtime.

(** logrus levels, most severe first. *)
Inductive Level : Type :=
| PanicLevel | FatalLevel | ErrorLevel | WarnLevel | InfoLevel | DebugLevel.

(** The four methods of the executor contract. *)
Inductive Method : Type := MPreCheck | MExecute | MPostCheck | MRollback.

(** [ext] is the part of the world owned by collaborators (planet agent,
    application service, Kubernetes API, local disk); [slept] lists the
    pauses taken so far, [steps] the progress steps announced, [journal] the
    log lines emitted, [invoked] the executor methods the engine has
    called. All lists grow at the end. *)
Record World (Ext : Type) : Type := mkWorld {
  ext : Ext;
  slept : list Z;
  steps : list string;
  journal : list (Level * string);
  invoked : list Method
}.
Arguments mkWorld {Ext}.
Arguments ext {Ext}.
Arguments slept {Ext}.
Arguments steps {Ext}.
Arguments journal {Ext}.
Arguments invoked {Ext}.

(** Computations over the world; [None] is a run-time panic (a nil
    dereference), which unwinds the whole call. *)
Definition M (Ext A : Type) : Type := World Ext -> option (A * World Ext).

Definition ret {Ext A} (a : A) : M Ext A := fun w => Some (a, w).

Definition bind {Ext A B} (m : M Ext A) (k : A -> M Ext B) : M Ext B :=
  fun w => match m w with
           | Some (a, w') => k a w'
           | None => None
           end.

Definition panic {Ext A} : M Ext A := fun _ => None.

Declare Scope go_scope.
Delimit Scope go_scope with go.
Notation "x <- m ;; k" := (bind m (fun x => k))
  (at level 61, m at next level, right associativity) : go_scope.
Notation "m ;;; k" := (bind m (fun _ => k))
  (at level 61, right associativity) : go_scope.

(** A call into a collaborator. *)
Definition call {Ext A} (f : Ext -> A * Ext) : M Ext A :=
  fun w => let (a, x) := f (ext w) in
           Some (a, mkWorld x (slept w) (steps w) (journal w) (invoked w)).

(** [time.Sleep(d)] *)
Definition sleep {Ext} (d : Z) : M Ext unit :=
  fun w => Some (tt, mkWorld (ext w) (slept w ++ [d]) (steps w) (journal w) (invoked w)).

(** [p.Progress.NextStep(msg)] *)
Definition NextStep {Ext} (msg : string) : M Ext unit :=
  fun w => Some (tt, mkWorld (ext w) (slept w) (steps w ++ [msg]) (journal w) (invoked w)).

(** [p.Info], [p.Debugf], [logrus.Warnf], ... *)
Definition logAt {Ext} (l : Level) (msg : string) : M Ext unit :=
  fun w => Some (tt, mkWorld (ext w) (slept w) (steps w) (journal w ++ [(l, msg)]) (invoked w)).

(** The engine notes which method it is about to call. *)
Definition enter {Ext} (m : Method) : M Ext unit :=
  fun w => Some (tt, mkWorld (ext w) (slept w) (steps w) (journal w) (invoked w ++ [m])).

(** A closure that assigns to a variable of the enclosing function: the
    body runs with the variable, initially [l0], beside the collaborators'
    state, and the variable's final value is handed back. *)
Definition withLocal {Ext L A} (l0 : L) (m : M (Ext * L) A) : M Ext (A * L) :=
  fun w =>
    match m (mkWorld (ext w, l0) (slept w) (steps w) (journal w) (invoked w)) with
    | None => None
    | Some (a, w') =>
        Some ((a, snd (ext w')),
              mkWorld (fst (ext w')) (slept w') (steps w') (journal w') (invoked w'))
    end.

(** A collaborator call made from inside such a closure. *)
Definition callOuter {Ext L A} (f : Ext -> A * Ext) : M (Ext * L) A :=
  call (fun xl => let (a, x) := f (fst xl) in (a, (x, snd xl))).

(** Assignment to the captured variable. *)
Definition assign {Ext L} (l : L) : M (Ext * L) unit :=
  call (fun xl => (tt, (fst xl, l))).

End Runtime.

Import Runtime.
Open Scope go_scope.

(** ** lib/utils *)

Module Utils.

(** [StringInSlice] of the utils package. *)
Fixpoint StringInSlice (haystack : list string) (needle : string) : bool :=
  match haystack with
  | [] => false
  | h :: rest => if String.eqb h needle then true else StringInSlice rest needle
  end.

Section Retry.
Context {Ext : Type}.

(** Modelled from the spec: the loop of [utils.Retry] (see [Retry] below),
    carrying the error of the latest failed attempt. *)
Fixpoint retryLoop (period : Z) (attempts : nat) (fn : M Ext (option Error))
  (last : option Error) : M Ext (option Error) :=
  match attempts with
  | O => ret (option_map (fun e => Wrap e []) last)
  | S n =>
      err <- fn ;;
      match err with
      | None => ret None
      | Some e => sleep period ;;; retryLoop period n fn (Some e)
      end
  end.

(** Modelled from the spec: [utils.Retry(period, maxAttempts, fn)], whose
    body is not part of the sources (only its call sites in the phase
    executors are). Section 4.3: "the wrapped function is invoked up to the
    attempt budget; the first success short-circuits further attempts;
    exhausting the budget surfaces the last observed error, wrapped";
    section 5: the waits are "retry-wrapped waits with bounded interval and
    attempt budget, not busy loops", so a pause of [period] follows every
    failed attempt. The call sites pass no context, so cancellation is not
    part of this signature. *)
Definition Retry (period : Z) (maxAttempts : Z) (fn : M Ext (option Error))
  : M Ext (option Error) :=
  retryLoop period (Z.to_nat maxAttempts) fn None.

(** The world after a pause of [period]. *)
Definition pause (period : Z) (w : World Ext) : World Ext :=
  mkWorld (ext w) (slept w ++ [period]) (steps w) (journal w) (invoked w).

(** What [k] successive invocations of [fn], a pause of [period] apart,
    see and answer: the world each invocation starts in and its result. The
    list stops early only if an invocation panics. *)
Fixpoint history (period : Z) (fn : M Ext (option Error)) (k : nat)
  (w : World Ext) : list (World Ext * option Error) :=
  match k with
  | O => []
  | S k' =>
      match fn w with
      | None => []
      | Some (r, w') =>
          (w, r) :: match sleep period w' with
                    | Some (_, w'') => history period fn k' w''
                    | None => []
                    end
      end
  end.

Definition outcomes (period : Z) (fn : M Ext (option Error)) (k : nat)
  (w : World Ext) : list (option Error) :=
  map snd (history period fn k w).

(** The error of the last failed attempt, as [Retry] surfaces it. *)
Definition lastObserved (es : list Error) : option Error :=
  option_map (fun e => Wrap e []) (last (map Some es) None).

End Retry.

End Utils.

(** ** lib/install/phases *)

Module Phases.

(** [context.Context], as far as the executors look at it. *)
Record Context : Type := mkContext { ctxErr : option Error }.

(** [storage.Server] *)
Record Server : Type := mkServer {
  Hostname : string;
  AdvertiseIP : string;
  Role : string;
  ClusterRole : string
}.

(** [loc.Locator] *)
Record Locator : Type := mkLocator {
  Repository : string;
  Name : string;
  Version : string
}.

(** [storage.OSUser]: identifiers as strings. *)
Record OSUser : Type := mkOSUser {
  osName : string;
  osUID : string;
  osGID : string
}.

(** [systeminfo.User] *)
Record User : Type := mkUser {
  userName : string;
  userUID : Z;
  userGID : Z
}.

(** [storage.OperationPhaseData]; the pointer fields are options. *)
Record OperationPhaseData : Type := mkPhaseData {
  dataServer : option Server;
  dataPackage : option Locator;
  dataServiceUser : option OSUser;
  dataResources : string
}.

(** [storage.OperationPhase] *)
Record OperationPhase : Type := mkPhase {
  phaseID : string;
  phaseData : option OperationPhaseData
}.

(** [storage.OperationPlan] *)
Record OperationPlan : Type := mkPlan {
  OperationID : string;
  ClusterName : string;
  Servers : list Server
}.

(** [fsm.ExecutorParams]; the progress reporter is the world's [steps]. *)
Record ExecutorParams : Type := mkParams {
  Plan : OperationPlan;
  Phase : OperationPhase
}.

(** [schema.HookType], the two hooks the app phase runs. *)
Inductive HookType : Type := HookInstall | HookInstalled.

Definition hookName (h : HookType) : string :=
  match h with HookInstall => "install" | HookInstalled => "postInstall" end.

(** [app.HookRunRequest] *)
Record HookRunRequest : Type := mkHookRunRequest {
  Application : Locator;
  Hook : HookType;
  reqServiceUser : OSUser
}.

(** [agentpb.SystemStatus_Type] *)
Inductive SystemStatusType : Type :=
| SystemStatus_Unknown
| SystemStatus_Running
| SystemStatus_Degraded.

Definition isRunning (s : SystemStatusType) : bool :=
  match s with SystemStatus_Running => true | _ => false end.

(** What [status.FromPlanetAgent] reports. *)
Record PlanetStatus : Type := mkStatus {
  Nodes : list string;
  SystemStatus : SystemStatusType
}.

(** A Kubernetes node object, as far as [updateNode] touches it. *)
Record Node : Type := mkNode {
  nodeName : string;
  nodeLabels : list (string * string);
  nodeTaints : list string
}.

(** A node profile of the application manifest. *)
Record NodeProfile : Type := mkProfile {
  profileLabels : list (string * string);
  profileTaints : list string
}.

(** [fsm.Logger]: the fields the constructors fill in. *)
Record Logger : Type := mkLogger {
  loggerPhase : string;
  loggerKey : string;
  loggerServer : option Server
}.

(** [strconv.Itoa] *)
Definition Itoa (n : Z) : string := NilZero.string_of_int (Z.to_int n).

(** [locator.String()] *)
Definition showLocator (l : Locator) : string :=
  Repository l ++ "/" ++ Name l ++ ":" ++ Version l.

(** [node.Labels[k] = v] *)
Definition setLabel (k v : string) (labels : list (string * string))
  : list (string * string) :=
  (k, v) :: filter (fun kv => negb (String.eqb (fst kv) k)) labels.

Section Collaborators.
Variable Ext : Type.

(** [app.Applications] and the package-level helpers of [app] that take
    it. [StreamAppHook] also yields what the hook wrote to its writer. *)
Record Applications : Type := mkApplications {
  GetApp : Locator -> Ext -> Result string * Ext;
  GetAppResources : Locator -> Ext -> Result string * Ext;
  CheckHasAppHook : HookRunRequest -> Ext -> Result string * Ext;
  StreamAppHook : Context -> HookRunRequest -> Ext -> (Result string * string) * Ext
}.

(** [ops.Operator] *)
Record Operator : Type := mkOperator {
  StreamOperationLogs : string -> string -> Ext -> option Error * Ext
}.

(** [*kubernetes.Clientset] with [kubeutils.GetNode]. *)
Record Clientset : Type := mkClientset {
  GetNode : Server -> Ext -> Result Node * Ext;
  UpdateNode : Node -> Ext -> option Error * Ext
}.

(** Package-level names the executors use and the sources do not define:
    the constants of [defaults], helpers of [phases], [utils], [state],
    [status], [schema] and [archive], and formatting of values with [%v].
    [target] recognises, among the servers of a plan, the one the phase is
    being run against. *)
Record Env : Type := mkEnv {
  RetryInterval : Z;
  RetryAttempts : Z;
  RetryLessAttempts : Z;
  LabelRetryAttempts : Z;
  KubernetesRoleLabel : string;
  KubernetesAdvertiseIPLabel : string;
  target : Server -> bool;
  opKey : OperationPlan -> string;
  userFromOSUser : OSUser -> Result User;
  IsStreamClosedError : Error -> bool;
  FromPlanetAgent : Context -> Ext -> Result PlanetStatus * Ext;
  showStatus : PlanetStatus -> string;
  showServer : Server -> string;
  showLabels : list (string * string) -> string;
  showTaints : list string -> string;
  NodeProfileByName : string -> string -> Result NodeProfile;
  ConvertErrorWithContext : Error -> string -> Error;
  UpsertResources : Clientset -> string -> Ext -> option Error * Ext;
  GetStateDir : Ext -> Result string * Ext;
  WriteFile : string -> string -> Ext -> option Error * Ext;
  RunPlanetCommand : Context -> list string -> Ext -> (string * option Error) * Ext;
  ShareDir : string -> string;
  KubectlBin : string;
  PrivilegedKubeconfig : string;
  PlanetShareDir : string
}.

End Collaborators.

Arguments GetApp {Ext}.
Arguments GetAppResources {Ext}.
Arguments CheckHasAppHook {Ext}.
Arguments StreamAppHook {Ext}.
Arguments StreamOperationLogs {Ext}.
Arguments GetNode {Ext}.
Arguments UpdateNode {Ext}.
Arguments RetryInterval {Ext}.
Arguments RetryAttempts {Ext}.
Arguments RetryLessAttempts {Ext}.
Arguments LabelRetryAttempts {Ext}.
Arguments KubernetesRoleLabel {Ext}.
Arguments KubernetesAdvertiseIPLabel {Ext}.
Arguments target {Ext}.
Arguments opKey {Ext}.
Arguments userFromOSUser {Ext}.
Arguments IsStreamClosedError {Ext}.
Arguments FromPlanetAgent {Ext}.
Arguments showStatus {Ext}.
Arguments showServer {Ext}.
Arguments showLabels {Ext}.
Arguments showTaints {Ext}.
Arguments NodeProfileByName {Ext}.
Arguments ConvertErrorWithContext {Ext}.
Arguments UpsertResources {Ext}.
Arguments GetStateDir {Ext}.
Arguments WriteFile {Ext}.
Arguments RunPlanetCommand {Ext}.
Arguments ShareDir {Ext}.
Arguments KubectlBin {Ext}.
Arguments PrivilegedKubeconfig {Ext}.
Arguments PlanetShareDir {Ext}.


Section Executors.
Context {Ext : Type}.
Variable env : Env Ext.

(** The cluster role of a master, the glossary's "cluster role
    (master/node)". *)
Definition RoleMaster : string := "master".

Definition IsMasterServer (s : Server) : bool :=
  String.eqb (ClusterRole s) RoleMaster.

(** Modelled from the spec: [fsm.CheckMasterServer(servers)]; package
    lib/fsm is not part of the sources, only the calls from the executors'
    [PreCheck] are. Section 4.2: "master-only phases require
    CheckMasterServer -- the target server's role must be master, else the
    phase is skipped with an error surfaced as a precondition failure, not a
    transient fault". The executors pass the servers of the plan, among
    which [target env] finds the one the phase is run against. *)
Definition CheckMasterServer (servers : list Server) : option Error :=
  match find (target env) servers with
  | Some s =>
      if IsMasterServer s then None
      else Some (BadParameter "this phase must be executed on a master node")
  | None =>
      Some (BadParameter "this phase must be executed on a master node")
  end.

Definition newLogger (p : ExecutorParams) : option Server -> Logger :=
  mkLogger (phaseID (Phase p)) (opKey env (Plan p)).

(** *** app.go *)

Record appExecutor : Type := mkAppExecutor {
  appLogger : Logger;
  appOperator : Operator Ext;
  LocalApps : Applications Ext;
  ServiceUser : User;
  appParams : ExecutorParams
}.

(** [NewApp]: the pair [(executor, error)] it returns. *)
Definition NewApp (p : ExecutorParams) (operator : Operator Ext)
  (apps : Applications Ext) : option appExecutor * option Error :=
  match phaseData (Phase p) with
  | None => (None, Some (BadParameter "service user is required"))
  | Some data =>
      match dataServiceUser data with
      | None => (None, Some (BadParameter "service user is required"))
      | Some osUser =>
          match userFromOSUser env osUser with
          | Err err => (None, Some (Wrap err []))
          | Ok serviceUser =>
              (Some (mkAppExecutor (newLogger p (dataServer data))
                       operator apps serviceUser p),
               None)
          end
      end
  end.

(** The request [runHooks] builds for one hook. *)
Definition hookRequest (p : appExecutor) (locator : Locator) (hook : HookType)
  : HookRunRequest :=
  mkHookRunRequest locator hook
    (mkOSUser (userName (ServiceUser p))
              (Itoa (userUID (ServiceUser p)))
              (Itoa (userGID (ServiceUser p)))).

(** The goroutine of [runHooks] that copies the hook's output from the pipe
    to the operator, run once the hook has stopped writing. *)
Definition forwardLogs (p : appExecutor) (output : string) : M Ext unit :=
  err <- call (StreamOperationLogs (appOperator p)
                 (opKey env (Plan (appParams p))) output) ;;
  match err with
  | Some e =>
      if IsStreamClosedError env e then ret tt
      else logAt WarnLevel ("Error streaming hook logs: " ++ errMessage e ++ ".")
  | None => ret tt
  end.

(** [runHooks]: one round of the loop per element of [hooks]. Dereferencing
    [p.Phase.Data.Package] panics when the phase carries no package.
    [writer.Close()] on a pipe writer always returns nil. *)
Fixpoint runHooks (p : appExecutor) (ctx : Context) (hooks : list HookType)
  : M Ext (option Error) :=
  match hooks with
  | [] => ret None
  | hook :: rest =>
      match phaseData (Phase (appParams p)) with
      | None => panic
      | Some data =>
          match dataPackage data with
          | None => panic
          | Some locator =>
              let req := hookRequest p locator hook in
              has <- call (CheckHasAppHook (LocalApps p) req) ;;
              match has with
              | Err err =>
                  if IsNotFound err then
                    logAt DebugLevel
                      ("Application " ++ showLocator locator ++ " does not have "
                         ++ hookName hook ++ " hook.") ;;;
                    runHooks p ctx rest
                  else ret (Some (Wrap err []))
              | Ok _ =>
                  NextStep ("Executing " ++ hookName hook ++ " hook for "
                              ++ Name locator ++ ":" ++ Version locator) ;;;
                  logAt InfoLevel
                    ("Executing " ++ hookName hook ++ " hook for "
                       ++ Name locator ++ ":" ++ Version locator ++ ".") ;;;
                  ran <- call (StreamAppHook (LocalApps p) ctx req) ;;
                  forwardLogs p (snd ran) ;;;
                  match fst ran with
                  | Err err =>
                      ret (Some (Wrap err [(showLocator locator ++ " "
                                              ++ hookName hook ++ " hook failed")%string]))
                  | Ok _ => runHooks p ctx rest
                  end
              end
          end
      end
  end.

Definition appExecute (p : appExecutor) (ctx : Context) : M Ext (option Error) :=
  err <- runHooks p ctx [HookInstall; HookInstalled] ;;
  match err with
  | Some e => ret (Some (Wrap e []))
  | None => ret None
  end.

Definition appRollback (p : appExecutor) (ctx : Context) : M Ext (option Error) :=
  ret None.

Definition appPreCheck (p : appExecutor) (ctx : Context) : M Ext (option Error) :=
  match CheckMasterServer (Servers (Plan (appParams p))) with
  | Some err => ret (Some (Wrap err []))
  | None => ret None
  end.

Definition appPostCheck (p : appExecutor) (ctx : Context) : M Ext (option Error) :=
  ret None.

(** *** postsystem.go: the wait phase *)

Record waitExecutor : Type := mkWaitExecutor {
  waitLogger : Logger;
  waitParams : ExecutorParams
}.

(** [NewWait]; [p.Phase.Data.Server] panics on a phase without data. *)
Definition NewWait (p : ExecutorParams) (operator : Operator Ext)
  : option (option waitExecutor * option Error) :=
  match phaseData (Phase p) with
  | None => None
  | Some data =>
      Some (Some (mkWaitExecutor (newLogger p (dataServer data)) p), None)
  end.

(** The function [waitExecutor.Execute] hands to [utils.Retry]. *)
Definition waitAttempt (p : waitExecutor) (ctx : Context) : M Ext (option Error) :=
  got <- call (FromPlanetAgent env ctx) ;;
  match got with
  | Err err => ret (Some (Wrap err []))
  | Ok status =>
      if negb (length (Nodes status) =? length (Servers (Plan (waitParams p))))%nat then
        ret (Some (BadParameter ("not all planets have come up yet: "
                                   ++ showStatus env status)))
      else if negb (isRunning (SystemStatus status)) then
        ret (Some (BadParameter ("planet is not running yet: "
                                   ++ showStatus env status)))
      else ret None
  end.

Definition waitExecute (p : waitExecutor) (ctx : Context) : M Ext (option Error) :=
  NextStep "Waiting for the planet to start" ;;;
  logAt InfoLevel "Waiting for the planet to start." ;;;
  err <- Utils.Retry (RetryInterval env) (RetryAttempts env) (waitAttempt p ctx) ;;
  match err with
  | Some e => ret (Some (Wrap e []))
  | None => logAt InfoLevel "Planet is running." ;;; ret None
  end.

Definition waitRollback (p : waitExecutor) (ctx : Context) : M Ext (option Error) :=
  ret None.

Definition waitPreCheck (p : waitExecutor) (ctx : Context) : M Ext (option Error) :=
  match CheckMasterServer (Servers (Plan (waitParams p))) with
  | Some err => ret (Some (Wrap err []))
  | None => ret None
  end.

Definition waitPostCheck (p : waitExecutor) (ctx : Context) : M Ext (option Error) :=
  ret None.


(** *** postsystem.go: the nodes phase *)

Record nodesExecutor : Type := mkNodesExecutor {
  nodesLogger : Logger;
  nodesClient : Clientset Ext;
  nodesApplication : string;
  nodesParams : ExecutorParams
}.

Definition NewNodes (p : ExecutorParams) (operator : Operator Ext)
  (apps : Applications Ext) (client : Clientset Ext)
  : M Ext (option nodesExecutor * option Error) :=
  match phaseData (Phase p) with
  | None => panic
  | Some data =>
      match dataPackage data with
      | None => panic
      | Some pkg =>
          got <- call (GetApp apps pkg) ;;
          match got with
          | Err err => ret (None, Some (Wrap err []))
          | Ok application =>
              ret (Some (mkNodesExecutor (newLogger p (dataServer data))
                           client application p),
                   None)
          end
      end
  end.

(** The labels [updateNode] leaves on the node. *)
Definition applyLabels (server : Server) (labels current : list (string * string))
  : list (string * string) :=
  setLabel (KubernetesAdvertiseIPLabel env) (AdvertiseIP server)
    (fold_left
       (fun acc kv =>
          if String.eqb (fst kv) (KubernetesRoleLabel env)
          then setLabel (fst kv) (ClusterRole server) acc
          else setLabel (fst kv) (snd kv) acc)
       labels current).

Definition updateNode (p : nodesExecutor) (client : Clientset Ext)
  (server : Server) (labels : list (string * string)) (taints : list string)
  : M Ext (option Error) :=
  got <- call (GetNode client server) ;;
  match got with
  | Err err => ret (Some (Wrap err []))
  | Ok node =>
      let node' := mkNode (nodeName node)
                     (applyLabels server labels (nodeLabels node)) taints in
      logAt InfoLevel
        ("Updating node " ++ nodeName node' ++ " with labels "
           ++ showLabels env (nodeLabels node') ++ " and taints "
           ++ showTaints env (nodeTaints node') ++ ".") ;;;
      err <- call (UpdateNode client node') ;;
      match err with
      | Some e =>
          ret (Some (ConvertErrorWithContext env e
                       ("failed to label and taint node " ++ nodeName node')))
      | None => ret None
      end
  end.

(** The loop of [nodesExecutor.Execute] over the servers of the plan. *)
Fixpoint nodesExecuteLoop (p : nodesExecutor) (servers : list Server)
  : M Ext (option Error) :=
  match servers with
  | [] => ret None
  | server :: rest =>
      NextStep ("Updating node " ++ Hostname server ++ " with labels and taints") ;;;
      match NodeProfileByName env (nodesApplication p) (Role server) with
      | Err err =>
          ret (Some (Wrap err [("could not find node profile for "
                                  ++ showServer env server)%string]))
      | Ok profile =>
          err <- Utils.Retry (RetryInterval env) (RetryLessAttempts env)
                   (updateNode p (nodesClient p) server
                      (profileLabels profile) (profileTaints profile)) ;;
          match err with
          | Some e => ret (Some (Wrap e []))
          | None => nodesExecuteLoop p rest
          end
      end
  end.

Definition nodesExecute (p : nodesExecutor) (ctx : Context) : M Ext (option Error) :=
  nodesExecuteLoop p (Servers (Plan (nodesParams p))).

(** [waitForNode]: the closure assigns the node it found to [node]. *)
Definition waitForNode (p : nodesExecutor) (server : Server) : M Ext (option Error) :=
  res <- withLocal (None : option Node)
           (Utils.Retry (RetryInterval env) (LabelRetryAttempts env)
              (got <- callOuter (GetNode (nodesClient p) server) ;;
               match got with
               | Err err =>
                   ret (Some (Wrap err [("Kubernetes node " ++ AdvertiseIP server
                                           ++ " has not registered yet")%string]))
               | Ok n => assign (Some n) ;;; ret None
               end)) ;;
  match fst res with
  | Some e =>
      ret (Some (Wrap e [("failed to wait for Kubernetes node " ++ AdvertiseIP server
                            ++ " to register")%string]))
  | None =>
      match snd res with
      | None => panic
      | Some node =>
          logAt InfoLevel ("Kubernetes node " ++ AdvertiseIP server
                             ++ " has registered: " ++ nodeName node ++ ".") ;;;
          ret None
      end
  end.

Fixpoint waitForNodes (p : nodesExecutor) (servers : list Server)
  : M Ext (option Error) :=
  match servers with
  | [] => ret None
  | server :: rest =>
      err <- waitForNode p server ;;
      match err with
      | Some e => ret (Some (Wrap e []))
      | None => waitForNodes p rest
      end
  end.

Definition nodesRollback (p : nodesExecutor) (ctx : Context) : M Ext (option Error) :=
  ret None.

Definition nodesPreCheck (p : nodesExecutor) (ctx : Context) : M Ext (option Error) :=
  match CheckMasterServer (Servers (Plan (nodesParams p))) with
  | Some err => ret (Some (Wrap err []))
  | None =>
      logAt InfoLevel "Waiting for Kubernetes nodes to register." ;;;
      err <- waitForNodes p (Servers (Plan (nodesParams p))) ;;
      match err with
      | Some e => ret (Some e)
      | None => logAt InfoLevel "All Kubernetes nodes have registered." ;;; ret None
      end
  end.

Definition nodesPostCheck (p : nodesExecutor) (ctx : Context) : M Ext (option Error) :=
  ret None.

(** *** postsystem.go: the rbac phase *)

Record rbacExecutor : Type := mkRbacExecutor {
  rbacLogger : Logger;
  rbacApps : Applications Ext;
  rbacClient : Clientset Ext;
  rbacParams : ExecutorParams
}.

Definition NewRBAC (p : ExecutorParams) (operator : Operator Ext)
  (apps : Applications Ext) (client : Clientset Ext)
  : option (option rbacExecutor * option Error) :=
  match phaseData (Phase p) with
  | None => None
  | Some data =>
      Some (Some (mkRbacExecutor (newLogger p (dataServer data)) apps client p), None)
  end.

(** [rbacExecutor.Execute]; unpacking the archive and upserting every
    object of its resources file is the collaborator call
    [UpsertResources]. *)
Definition rbacExecute (p : rbacExecutor) (ctx : Context) : M Ext (option Error) :=
  NextStep "Creating Kubernetes RBAC resources" ;;;
  match phaseData (Phase (rbacParams p)) with
  | None => panic
  | Some data =>
      match dataPackage data with
      | None => panic
      | Some pkg =>
          got <- call (GetAppResources (rbacApps p) pkg) ;;
          match got with
          | Err err => ret (Some (Wrap err []))
          | Ok reader =>
              err <- call (UpsertResources env (rbacClient p) reader) ;;
              match err with
              | Some e => ret (Some (Wrap e []))
              | None =>
                  logAt InfoLevel "Created Kubernetes RBAC resources." ;;; ret None
              end
          end
      end
  end.

Definition rbacRollback (p : rbacExecutor) (ctx : Context) : M Ext (option Error) :=
  ret None.

Definition rbacPreCheck (p : rbacExecutor) (ctx : Context) : M Ext (option Error) :=
  match CheckMasterServer (Servers (Plan (rbacParams p))) with
  | Some err => ret (Some (Wrap err []))
  | None => ret None
  end.

Definition rbacPostCheck (p : rbacExecutor) (ctx : Context) : M Ext (option Error) :=
  ret None.

(** *** postsystem.go: the resources phase *)

Record resourcesExecutor : Type := mkResourcesExecutor {
  resourcesLogger : Logger;
  resourcesParams : ExecutorParams
}.

Definition NewResources (p : ExecutorParams) (operator : Operator Ext)
  : option (option resourcesExecutor * option Error) :=
  match phaseData (Phase p) with
  | None => None
  | Some data =>
      Some (Some (mkResourcesExecutor (newLogger p (dataServer data)) p), None)
  end.

(** [filepath.Join] of two clean path elements. *)
Definition Join (dir file : string) : string := dir ++ "/" ++ file.

Definition resourcesExecute (p : resourcesExecutor) (ctx : Context)
  : M Ext (option Error) :=
  NextStep "Creating user-supplied Kubernetes resources" ;;;
  dir <- call (GetStateDir env) ;;
  match dir with
  | Err err => ret (Some (Wrap err []))
  | Ok stateDir =>
      match phaseData (Phase (resourcesParams p)) with
      | None => panic
      | Some data =>
          err <- call (WriteFile env (Join (ShareDir env stateDir) "resources.yaml")
                         (dataResources data)) ;;
          match err with
          | Some e => ret (Some (Wrap e ["failed to write user resources on disk"]))
          | None =>
              ran <- call (RunPlanetCommand env ctx
                             [KubectlBin env; "--kubeconfig";
                              PrivilegedKubeconfig env; "apply"; "-f";
                              Join (PlanetShareDir env) "resources.yaml"]) ;;
              match snd ran with
              | Some e =>
                  ret (Some (Wrap e [("failed to create user resources: "
                                        ++ fst ran)%string]))
              | None =>
                  logAt InfoLevel "Created user-supplied Kubernetes resources." ;;;
                  ret None
              end
          end
      end
  end.

Definition resourcesRollback (p : resourcesExecutor) (ctx : Context)
  : M Ext (option Error) :=
  ret None.

Definition resourcesPreCheck (p : resourcesExecutor) (ctx : Context)
  : M Ext (option Error) :=
  match CheckMasterServer (Servers (Plan (resourcesParams p))) with
  | Some err => ret (Some (Wrap err []))
  | None => ret None
  end.

Definition resourcesPostCheck (p : resourcesExecutor) (ctx : Context)
  : M Ext (option Error) :=
  ret None.

(** *** The executor contract and the engine's cycle *)

(** [fsm.PhaseExecutor]: the interface the five executors implement. *)
Class PhaseExecutor (T : Type) : Type := {
  PreCheck : T -> Context -> M Ext (option Error);
  Execute : T -> Context -> M Ext (option Error);
  Rollback : T -> Context -> M Ext (option Error);
  PostCheck : T -> Context -> M Ext (option Error)
}.

#[local] Instance appPhase : PhaseExecutor appExecutor :=
  {| PreCheck := appPreCheck; Execute := appExecute;
     Rollback := appRollback; PostCheck := appPostCheck |}.

#[local] Instance waitPhase : PhaseExecutor waitExecutor :=
  {| PreCheck := waitPreCheck; Execute := waitExecute;
     Rollback := waitRollback; PostCheck := waitPostCheck |}.

#[local] Instance nodesPhase : PhaseExecutor nodesExecutor :=
  {| PreCheck := nodesPreCheck; Execute := nodesExecute;
     Rollback := nodesRollback; PostCheck := nodesPostCheck |}.

#[local] Instance rbacPhase : PhaseExecutor rbacExecutor :=
  {| PreCheck := rbacPreCheck; Execute := rbacExecute;
     Rollback := rbacRollback; PostCheck := rbacPostCheck |}.

#[local] Instance resourcesPhase : PhaseExecutor resourcesExecutor :=
  {| PreCheck := resourcesPreCheck; Execute := resourcesExecute;
     Rollback := resourcesRollback; PostCheck := resourcesPostCheck |}.

(** Modelled from the spec: the engine's cycle over one phase; the FSM
    engine is not part of the sources. Section 2: "for each eligible phase,
    builds an executor via the Registry, runs PreCheck -> Execute ->
    PostCheck"; section 4.1: "failing PreCheck aborts the phase without
    mutating cluster state and is surfaced as a blocking configuration
    error, not retried automatically by the engine", "Failure in Execute or
    PostCheck is reported to the engine as phase failure". *)
Definition runPhase {T : Type} {X : PhaseExecutor T} (ex : T) (ctx : Context)
  : M Ext (option Error) :=
  enter MPreCheck ;;;
  pre <- PreCheck ex ctx ;;
  match pre with
  | Some err => ret (Some err)
  | None =>
      enter MExecute ;;;
      run <- Execute ex ctx ;;
      match run with
      | Some err => ret (Some err)
      | None => enter MPostCheck ;;; PostCheck ex ctx
      end
  end.

(** The engine asked [ex] to run in world [w] and [PreCheck] refused with
    [err]: the check itself changes nothing, and the engine's cycle ends
    with [err] having called [PreCheck] only. *)
Definition refusedBy {T : Type} {X : PhaseExecutor T} (ex : T) (ctx : Context)
  (w : World Ext) (err : Error) : Prop :=
  PreCheck ex ctx w = Some (Some err, w) /\
  runPhase ex ctx w =
  Some (Some err,
        mkWorld (ext w) (slept w) (steps w) (journal w) (invoked w ++ [MPreCheck])).

(** The line [runHooks] logs when the application lacks [hook]. *)
Definition missingHookLine (locator : Locator) (hook : HookType) : Level * string :=
  (DebugLevel,
   ("Application " ++ showLocator locator ++ " does not have "
      ++ hookName hook ++ " hook.")%string).

(** Why [runHooks] gave up on [hook] in world [v] with [err]: the check for
    the hook failed with something else than not-found, or the hook was
    there and running it failed. *)
Definition hookFailure (p : appExecutor) (ctx : Context) (locator : Locator)
  (hook : HookType) (v : World Ext) (err : Error) : Prop :=
  let req := hookRequest p locator hook in
  (exists e x,
     CheckHasAppHook (LocalApps p) req (ext v) = (Err e, x) /\
     IsNotFound e = false /\
     err = Wrap e []) \/
  (exists job x e output x',
     CheckHasAppHook (LocalApps p) req (ext v) = (Ok job, x) /\
     StreamAppHook (LocalApps p) ctx req x = ((Err e, output), x') /\
     err = Wrap e [(showLocator locator ++ " " ++ hookName hook ++ " hook failed")%string]).

(** A status under which the wait phase stops waiting. *)
Definition healthy (p : waitExecutor) (status : PlanetStatus) : Prop :=
  SystemStatus status = SystemStatus_Running /\
  length (Nodes status) = length (Servers (Plan (waitParams p))).

(** The world [waitExecutor.Execute] starts retrying in. *)
Definition waitStart (w : World Ext) : World Ext :=
  mkWorld (ext w) (slept w) (steps w ++ ["Waiting for the planet to start"])
    (journal w ++ [(InfoLevel, "Waiting for the planet to start.")]) (invoked w).

End Executors.

End Phases.

(** ** The storage checker of package monitoring *)

Module Monitoring.

(** [pb.Probe_Type] *)
Inductive ProbeStatus : Type :=
| Probe_Unknown
| Probe_Running
| Probe_Failed
| Probe_Terminated.

(** [pb.Probe] *)
Record Probe : Type := mkProbe {
  Checker : string;
  Detail : string;
  Status : ProbeStatus;
  ProbeError : string
}.

Record StorageConfig : Type := mkStorageConfig {
  Path : string;
  WillBeCreated : bool;
  MinBytesPerSecond : Z;
  Filesystems : list string;
  MinFreeBytes : Z
}.

(** [sigar.FileSystem], the two fields the checker reads. *)
Record FileSystem : Type := mkFileSystem {
  DirName : string;
  SysTypeName : string
}.

(** The interface [osInterface] (with the embedded [mountInfo]). *)
Record osInterface : Type := mkOS {
  mounts : Result (list FileSystem);
  diskSpeed : string -> string -> Result Z;
  diskCapacity : string -> Result Z
}.

Record storageChecker : Type := mkStorageChecker {
  config : StorageConfig;
  path : string;
  os : osInterface
}.

(** What [os.Stat] answers for a path. *)
Inductive StatResult : Type :=
| IsDir
| IsFile
| NotExist (e : Error)
| StatFailed (e : Error).

(** The standard library and third-party functions the checker calls, and
    [NewProbeFromErr], which the sources do not define. *)
Record Host : Type := mkHost {
  Stat : string -> StatResult;
  Dir : string -> string;
  EvalSymlinks : string -> Result string;
  sortChildPathFirst : list FileSystem -> list FileSystem;
  humanizeBytes : Z -> string;
  ConvertSystemError : Error -> Error;
  NewProbeFromErr : string -> string -> Error -> Probe
}.

Definition storageWriteCheckerID : string := "io-check".

(** [health.Reporter]: the probes added so far, oldest first. *)
Definition Reporter : Type := list Probe.

Definition Add (reporter : Reporter) (probe : Probe) : Reporter :=
  reporter ++ [probe].

(** [fmt.Sprintf("%v", s)] for a slice of strings. *)
Definition showStrings (l : list string) : string :=
  "[" ++ String.concat " " l ++ "]".

Section Checker.
Variable host : Host.

Definition checkerName (c : storageChecker) : string :=
  storageWriteCheckerID ++ "(" ++ Path (config c) ++ ")".

(** The loop of [evalPath]: [fuel] bounds the number of rounds, [None]
    means the bound was reached. *)
Fixpoint evalPathLoop (fuel : nat) (c : storageChecker) (p : string)
  : option (option Error * storageChecker) :=
  match fuel with
  | O => None
  | S fuel' =>
      match Stat host p with
      | StatFailed err => Some (Some (ConvertSystemError host err), c)
      | NotExist err =>
          if negb (WillBeCreated (config c)) then
            Some (Some (BadParameter (Path (config c) ++ " does not exist")), c)
          else
            let parent := Dir host p in
            if String.eqb parent p then
              Some (Some (BadParameter (p ++ " is root and is not a directory")), c)
            else evalPathLoop fuel' c parent
      | IsDir => Some (None, mkStorageChecker (config c) p (os c))
      | IsFile => Some (Some (BadParameter (p ++ " is not a directory")), c)
      end
  end.

(** [filepath.Dir] answers a strictly shorter path, or one of "." and the
    root, which are their own parents: so the loop makes at most one round
    per character of the path and two more (the empty path has the parent
    ".", a single name as well). *)
Definition evalPath (c : storageChecker) : option (option Error * storageChecker) :=
  evalPathLoop (S (S (String.length (Path (config c))))) c (Path (config c)).

(** The first mount, children first, that holds the path and is not the
    rootfs. *)
Definition fsFromPath (p : string) (mountInfo : osInterface) : Result FileSystem :=
  match EvalSymlinks host p with
  | Err err => Err (Wrap err [])
  | Ok cleanpath =>
      match mounts mountInfo with
      | Err err => Err (Wrap err [])
      | Ok list =>
          match find (fun mnt => String.prefix (DirName mnt) cleanpath
                                 && negb (String.eqb (SysTypeName mnt) "rootfs"))
                     (sortChildPathFirst host list) with
          | Some mnt => Ok mnt
          | None => Err (BadParameter ("failed to locate filesystem for " ++ p))
          end
      end
  end.

Definition checkFsType (c : storageChecker) (reporter : Reporter)
  : option Error * Reporter :=
  match Filesystems (config c) with
  | [] => (None, reporter)
  | _ :: _ =>
      match fsFromPath (path c) (os c) with
      | Err err => (Some (Wrap err []), reporter)
      | Ok mnt =>
          if Utils.StringInSlice (Filesystems (config c)) (SysTypeName mnt) then
            (None, Add reporter (mkProbe (checkerName c) "" Probe_Running ""))
          else
            (None, Add reporter
                     (mkProbe (checkerName c)
                        ("path " ++ Path (config c) ++ " requires filesystem "
                           ++ showStrings (Filesystems (config c))
                           ++ ", belongs to " ++ DirName mnt
                           ++ " mount point of type " ++ SysTypeName mnt)
                        Probe_Failed ""))
      end
  end.

Definition checkCapacity (c : storageChecker) (reporter : Reporter)
  : option Error * Reporter :=
  match diskCapacity (os c) (path c) with
  | Err err => (Some (Wrap err []), reporter)
  | Ok avail =>
      if (avail <? MinFreeBytes (config c))%Z then
        (None, Add reporter
                 (mkProbe (checkerName c)
                    (humanizeBytes host avail ++ " available space left on "
                       ++ Path (config c) ++ ", minimum of "
                       ++ humanizeBytes host (MinFreeBytes (config c)) ++ " required")
                    Probe_Failed ""))
      else (None, reporter)
  end.

Definition checkWriteSpeed (c : storageChecker) (reporter : Reporter)
  : option Error * Reporter :=
  if (MinBytesPerSecond (config c) =? 0)%Z then (None, reporter)
  else
    match diskSpeed (os c) (path c) "probe" with
    | Err err => (Some (Wrap err []), reporter)
    | Ok bps =>
        if (MinBytesPerSecond (config c) <=? bps)%Z then (None, reporter)
        else
          (None, Add reporter
                   (mkProbe (checkerName c)
                      ("min write speed " ++ humanizeBytes host (MinBytesPerSecond (config c))
                         ++ "/sec required, have " ++ humanizeBytes host bps)
                      Probe_Failed ""))
    end.

(** [check]: the three checks run in order, whatever the earlier ones
    returned, and their errors are aggregated. *)
Definition check (c : storageChecker) (reporter : Reporter)
  : option (option Error * Reporter) :=
  match evalPath c with
  | None => None
  | Some (Some err, _) => Some (Some (Wrap err []), reporter)
  | Some (None, c') =>
      let (e1, r1) := checkFsType c' reporter in
      let (e2, r2) := checkCapacity c' r1 in
      let (e3, r3) := checkWriteSpeed c' r2 in
      Some (NewAggregate [e1; e2; e3], r3)
  end.

Definition Check (c : storageChecker) (reporter : Reporter) : option Reporter :=
  match check c reporter with
  | None => None
  | Some (Some err, r) =>
      Some (Add r (NewProbeFromErr host (checkerName c)
                     "failed to validate storage requirements" (Wrap err [])))
  | Some (None, r) =>
      Some (Add r (mkProbe (checkerName c) "" Probe_Running ""))
  end.

End Checker.

(** The claim that every dimension of a run adds exactly one probe: the
    filesystem type when an allow-list is configured, the capacity always,
    the write speed when a minimum speed is configured. The checks run on
    the checker as [evalPath] leaves it. *)
Definition oneProbePerDimension (host : Host) (c : storageChecker)
  (reporter : Reporter) : Prop :=
  forall c',
    evalPath host c = Some (None, c') ->
    (Filesystems (config c) <> [] ->
     length (snd (checkFsType host c' reporter)) = S (length reporter)) /\
    length (snd (checkCapacity host c' reporter)) = S (length reporter) /\
    (MinBytesPerSecond (config c) <> 0%Z ->
     length (snd (checkWriteSpeed host c' reporter)) = S (length reporter)).

(** [s] occurs in [t]. *)
Definition Contains (t s : string) : Prop :=
  exists before after : string, t = (before ++ s ++ after)%string.

End Monitoring.

(** ** lib/install: logging *)

Module Install.

Record Entry : Type := mkEntry {
  entryLevel : Level;
  entryMessage : string
}.

(** The machine the installer logs on: the files by path, the text written
    to the console (stderr), the paths that cannot be opened for writing,
    the error of [entry.String()] when the formatter fails on an entry, and
    what goes wrong when a text is written to a file: [writeFault p msg] is
    the number of bytes of [msg] that reach the file at [p] and the error
    [WriteString] returns, or nothing when the write goes through. *)
Record Machine : Type := mkMachine {
  files : list (string * string);
  console : string;
  readOnly : string -> bool;
  formatError : Entry -> option Error;
  writeFault : string -> string -> option (nat * Error)
}.

Fixpoint readFile (fs : list (string * string)) (p : string) : option string :=
  match fs with
  | [] => None
  | (q, content) :: rest => if String.eqb q p then Some content else readFile rest p
  end.

Definition writeFile (fs : list (string * string)) (p content : string)
  : list (string * string) :=
  (p, content) :: filter (fun qc => negb (String.eqb (fst qc) p)) fs.

(** [Hook] *)
Record Hook : Type := mkHook { hookPath : string }.

(** Where the standard logger writes formatted entries. *)
Inductive Output : Type := Stderr | Discard.

(** The logrus standard logger: hooks by level, minimum level, output. *)
Record Logger : Type := mkLogger {
  Hooks : Level -> list Hook;
  LoggerLevel : Level;
  Out : Output
}.

Definition levelNumber (l : Level) : nat :=
  match l with
  | PanicLevel => 0 | FatalLevel => 1 | ErrorLevel => 2
  | WarnLevel => 3 | InfoLevel => 4 | DebugLevel => 5
  end.

Definition levelEqb (a b : Level) : bool := (levelNumber a =? levelNumber b)%nat.

Definition AllLevels : list Level :=
  [PanicLevel; FatalLevel; ErrorLevel; WarnLevel; InfoLevel; DebugLevel].

(** The logger of a fresh process. *)
Definition StandardLogger : Logger := mkLogger (fun _ => []) InfoLevel Stderr.

(** [entry.String()] with the text formatter. *)
Definition entryString (e : Entry) : string :=
  "level=" ++ match entryLevel e with
              | PanicLevel => "panic" | FatalLevel => "fatal"
              | ErrorLevel => "error" | WarnLevel => "warning"
              | InfoLevel => "info" | DebugLevel => "debug"
              end ++ " msg=" ++ entryMessage e ++ String (ascii_of_nat 10) "".

Definition Levels (r : Hook) : list Level := AllLevels.

(** [Hook.Fire]: format the entry, open the hook's file for appending
    (creating it when it is missing), and write the text; each of the three
    steps may fail, and the error of the deferred [f.Close()] is dropped. A
    write that fails leaves in the file the bytes that got through. *)
Definition Fire (r : Hook) (entry : Entry) (m : Machine) : option Error * Machine :=
  match formatError m entry with
  | Some err => (Some (Wrap err []), m)
  | None =>
      let msg := entryString entry in
      if readOnly m (hookPath r) then
        (Some (Wrap (mkError AccessDeniedKind "open: permission denied" []) []), m)
      else
        let old := match readFile (files m) (hookPath r) with
                   | Some content => content
                   | None => ""
                   end in
        match writeFault m (hookPath r) msg with
        | Some (n, err) =>
            (Some (Wrap err []),
             mkMachine (writeFile (files m) (hookPath r) (old ++ substring 0 n msg))
               (console m) (readOnly m) (formatError m) (writeFault m))
        | None =>
            (None,
             mkMachine (writeFile (files m) (hookPath r) (old ++ msg))
               (console m) (readOnly m) (formatError m) (writeFault m))
        end
  end.

(** [NewLogHook]: truncate the log file and return a hook on it. *)
Definition NewLogHook (p : string) (m : Machine) : Result Hook * Machine :=
  if readOnly m p then
    (Err (Wrap (mkError AccessDeniedKind "open: permission denied" []) []), m)
  else
    (Ok (mkHook p),
     mkMachine (writeFile (files m) p "") (console m) (readOnly m)
       (formatError m) (writeFault m)).

(** [LevelHooks.Add] *)
Definition addHook (hooks : Level -> list Hook) (h : Hook) : Level -> list Hook :=
  fun l => if existsb (levelEqb l) (Levels h) then hooks l ++ [h] else hooks l.

(** [InitLogging] on a logger and a machine. *)
Definition InitLogging (logFile : string) (lg : Logger) (m : Machine)
  : option Error * Logger * Machine :=
  match NewLogHook logFile m with
  | (Err err, m') =>
      (Some (Wrap err [("failed to create log file " ++ logFile)%string]), lg, m')
  | (Ok hook, m') =>
      (None, mkLogger (addHook (Hooks lg) hook) DebugLevel Discard, m')
  end.

(** logrus firing the hooks registered for the entry's level; a failing
    hook is reported on stderr and stops the round. *)
Fixpoint fireHooks (hooks : list Hook) (entry : Entry) (m : Machine) : Machine :=
  match hooks with
  | [] => m
  | h :: rest =>
      match Fire h entry m with
      | (Some err, m') =>
          mkMachine (files m')
            (console m' ++ "Failed to fire hook: " ++ errMessage err
               ++ String (ascii_of_nat 10) "")
            (readOnly m') (formatError m') (writeFault m')
      | (None, m') => fireHooks rest entry m'
      end
  end.

(** logrus logging one entry: dropped below the logger's level, otherwise
    handed to the hooks and then written to the logger's output. *)
Definition emit (lg : Logger) (entry : Entry) (m : Machine) : Machine :=
  if (levelNumber (entryLevel entry) <=? levelNumber (LoggerLevel lg))%nat then
    let m' := fireHooks (Hooks lg (entryLevel entry)) entry m in
    match Out lg with
    | Stderr =>
        mkMachine (files m') (console m' ++ entryString entry) (readOnly m')
          (formatError m') (writeFault m')
    | Discard => m'
    end
  else m.

End Install.


(** ** lib/utils: helpers on slices of strings *)

From Stdlib Require Import Permutation Sorted.

(** Go maps with string keys, as association lists read from the front:
    [Get] is [m[k]] with its presence flag, [Put] is [m[k] = v]. *)
Module GoMap.

Fixpoint Get {V : Type} (k : string) (m : list (string * V)) : option V :=
  match m with
  | [] => None
  | (k', v) :: rest => if String.eqb k' k then Some v else Get k rest
  end.

Definition Put {V : Type} (k : string) (v : V) (m : list (string * V))
  : list (string * V) :=
  (k, v) :: filter (fun kv => negb (String.eqb (fst kv) k)) m.

(** [m[k]] for a map of strings: the empty string when the key is
    missing. *)
Definition GetString (k : string) (m : list (string * string)) : string :=
  match Get k m with
  | Some v => v
  | None => ""
  end.

End GoMap.

Module Slices.

(** [StringsInSlice]: every needle is looked up by the loop of
    [StringInSlice]. *)
Fixpoint StringsInSlice (haystack needles : list string) : bool :=
  match needles with
  | [] => true
  | needle :: rest =>
      if Utils.StringInSlice haystack needle
      then StringsInSlice haystack rest
      else false
  end.

(** The cells of the backing arrays, by address. *)
Definition Memory : Type := nat -> string.

(** A slice of strings is a window on the cells of its backing array:
    [size] cells from address [start] on. Two slices cut from one array may
    share cells. *)
Record View : Type := mkView {
  start : nat;
  size : nat
}.

(** A slice that may be nil. *)
Definition Slice : Type := option View.

Definition len (s : Slice) : nat :=
  match s with
  | None => 0
  | Some v => size v
  end.

(** The cell at address [i] belongs to the window. *)
Definition within (v : View) (i : nat) : bool :=
  (start v <=? i)%nat && (i <? start v + size v)%nat.

(** The elements of a slice, first to last. *)
Definition read (mem : Memory) (v : View) : list string :=
  map mem (seq (start v) (size v)).

(** The elements of a slice replaced by those of [l], in place. *)
Definition write (mem : Memory) (v : View) (l : list string) : Memory :=
  fun i => if within v i then nth (i - start v) l "" else mem i.

Definition elements (mem : Memory) (s : Slice) : option (list string) :=
  option_map (read mem) s.

(** Insertion into a list sorted by the byte-wise order of strings. *)
Fixpoint insertSorted (x : string) (l : list string) : list string :=
  match l with
  | [] => [x]
  | y :: rest => if String.leb x y then x :: l else y :: insertSorted x rest
  end.

(** The increasing arrangement of [l], the same for every sorting
    algorithm since equal strings cannot be told apart
    ([sorted_arrangement_unique] below). *)
Definition sortStrings (l : list string) : list string :=
  fold_right insertSorted [] l.

(** [sort.Sort(sort.StringSlice(s))]: the cells of the slice are
    rearranged in place. *)
Definition sortInPlace (mem : Memory) (s : Slice) : Memory :=
  match s with
  | None => mem
  | Some v => write mem v (sortStrings (read mem v))
  end.

Fixpoint stringsEqual (a b : list string) : bool :=
  match a, b with
  | [], [] => true
  | x :: a', y :: b' => String.eqb x y && stringsEqual a' b'
  | _, _ => false
  end.

(** [reflect.DeepEqual] on two slices of strings, given their elements:
    both nil, or both non-nil with equal elements. *)
Definition DeepEqual (a b : option (list string)) : bool :=
  match a, b with
  | None, None => true
  | Some x, Some y => stringsEqual x y
  | _, _ => false
  end.

(** [CompareStringSlices]: the answer, and the memory as the call leaves
    it. The first slice is sorted, then the second, on the same memory: a
    slice that shares cells with the other one is rearranged through it. *)
Definition CompareStringSlices (mem : Memory) (a b : Slice) : bool * Memory :=
  if negb (len a =? len b)%nat then (false, mem)
  else
    let mem1 := sortInPlace mem a in
    let mem2 := sortInPlace mem1 b in
    (DeepEqual (elements mem2 a) (elements mem2 b), mem2).

(** The two windows share no cell. *)
Definition apart (va vb : View) : bool :=
  (size va =? 0)%nat || (size vb =? 0)%nat
  || (start va + size va <=? start vb)%nat
  || (start vb + size vb <=? start va)%nat.

(** [strings.Split(s, ",")] *)
Fixpoint splitComma (s : string) : list string :=
  match s with
  | EmptyString => [""]
  | String c rest =>
      if Ascii.eqb c ","%char then "" :: splitComma rest
      else
        match splitComma rest with
        | field :: fields => String c field :: fields
        | [] => [String c ""]
        end
  end.

Section Flatten.
(** [strings.TrimSpace] *)
Variable TrimSpace : string -> string.

(** [FlattenStringSlice] *)
Fixpoint FlattenStringSlice (slice : list string) : list string :=
  match slice with
  | [] => []
  | s :: rest => map TrimSpace (splitComma s) ++ FlattenStringSlice rest
  end.

End Flatten.

(** [HasOneOfPrefixes] *)
Fixpoint HasOneOfPrefixes (s : string) (prefixes : list string) : bool :=
  match prefixes with
  | [] => false
  | p :: rest => if String.prefix p s then true else HasOneOfPrefixes s rest
  end.

(** [MatchesLabels]: the loop over the entries of [wantedLabels]. *)
Fixpoint MatchesLabels (targetLabels wantedLabels : list (string * string)) : bool :=
  match wantedLabels with
  | [] => true
  | (k, v) :: rest =>
      if negb (String.eqb (GoMap.GetString k targetLabels) v) then false
      else MatchesLabels targetLabels rest
  end.

(** [strings.TrimPrefix] *)
Definition TrimPrefix (s p : string) : string :=
  if String.prefix p s
  then substring (String.length p) (String.length s - String.length p) s
  else s.

Section PathPrefix.
(** [filepath.Join] *)
Variable Join : list string -> string.

(** [TrimPathPrefix]; the path separator is a slash. *)
Definition TrimPathPrefix (path : string) (prefixPath : list string) : string :=
  TrimPrefix path (Join prefixPath ++ "/").

End PathPrefix.

(** Increasing order of strings, compared byte by byte. *)
Definition increasing : list string -> Prop :=
  StronglySorted (fun x y => String.leb x y = true).

(** The number of commas of a string. *)
Fixpoint countCommas (s : string) : nat :=
  match s with
  | EmptyString => 0
  | String c rest => (if Ascii.eqb c ","%char then 1 else 0) + countCommas rest
  end.

End Slices.

(** ** lib/utils: Kubernetes helpers *)

Module Kube.

(** The constants of package [defaults] these helpers read. *)
Record Defaults : Type := mkDefaults {
  KubernetesRoleLabel : string;
  KubernetesAdvertiseIPLabel : string;
  KubernetesHostnameLabel : string;
  RoleMaster : string
}.

(** Maps of nodes keyed by address. *)
Definition NodeMap : Type := list (string * Phases.Node).

Section Helpers.
Variable d : Defaults.

(** [GetMasters]: the loop over the entries of [nodes]. *)
Fixpoint GetMasters (nodes : NodeMap) : list string :=
  match nodes with
  | [] => []
  | (_, node) :: rest =>
      if negb (String.eqb
                 (GoMap.GetString (KubernetesRoleLabel d) (Phases.nodeLabels node))
                 (RoleMaster d))
      then GetMasters rest
      else
        match GoMap.Get (KubernetesAdvertiseIPLabel d) (Phases.nodeLabels node) with
        | Some ip => ip :: GetMasters rest
        | None =>
            match GoMap.Get (KubernetesHostnameLabel d) (Phases.nodeLabels node) with
            | Some ip => ip :: GetMasters rest
            | None => GetMasters rest
            end
        end
  end.

(** [corev1.NodeInterface], the one call [GetNodes] makes, and what the
    sources leave to other packages: [rigging.ConvertError], and the
    printing of a string with [%q] and of a node with [%v]. *)
Record NodeInterface : Type := mkNodeInterface {
  List : Result (list Phases.Node);
  ConvertError : Error -> Error;
  Quote : string -> string;
  showNode : Phases.Node -> string
}.

(** The loop of [GetNodes] over the listed nodes. *)
Fixpoint GetNodesLoop (client : NodeInterface) (items : list Phases.Node)
  (nodes : NodeMap) : Result NodeMap :=
  match items with
  | [] => Ok nodes
  | node :: rest =>
      match GoMap.Get (KubernetesAdvertiseIPLabel d) (Phases.nodeLabels node) with
      | Some ip => GetNodesLoop client rest (GoMap.Put ip node nodes)
      | None =>
          match GoMap.Get (KubernetesHostnameLabel d) (Phases.nodeLabels node) with
          | Some ip => GetNodesLoop client rest (GoMap.Put ip node nodes)
          | None =>
              Err (NotFound ("label " ++ Quote client (KubernetesAdvertiseIPLabel d)
                               ++ " not found for node " ++ showNode client node))
          end
      end
  end.

Definition GetNodes (client : NodeInterface) : Result NodeMap :=
  match List client with
  | Err err => Err (ConvertError client err)
  | Ok items => GetNodesLoop client items []
  end.

(** The address a node is known by: its advertise-IP label, else its
    hostname label. *)
Definition nodeAddress (node : Phases.Node) : option string :=
  match GoMap.Get (KubernetesAdvertiseIPLabel d) (Phases.nodeLabels node) with
  | Some ip => Some ip
  | None => GoMap.Get (KubernetesHostnameLabel d) (Phases.nodeLabels node)
  end.

Definition isMaster (node : Phases.Node) : bool :=
  String.eqb (GoMap.GetString (KubernetesRoleLabel d) (Phases.nodeLabels node))
    (RoleMaster d).

Definition hasAddress (ip : string) (node : Phases.Node) : bool :=
  match nodeAddress node with
  | Some ip' => String.eqb ip' ip
  | None => false
  end.

(** Keys are unique and every node sits under its own address. *)
Definition filed (nodes : NodeMap) : Prop :=
  NoDup (map fst nodes) /\
  forall key node, In (key, node) nodes -> nodeAddress node = Some key.

End Helpers.

(** [FlattenVersion]: the replacer built from the pairs (".", "") and
    ("+", "-") rewrites the string byte by byte. *)
Fixpoint FlattenVersion (version : string) : string :=
  match version with
  | EmptyString => EmptyString
  | String c rest =>
      if Ascii.eqb c "."%char then FlattenVersion rest
      else if Ascii.eqb c "+"%char then String "-"%char (FlattenVersion rest)
      else String c (FlattenVersion rest)
  end.

(** The number of occurrences of a byte in a string. *)
Fixpoint occurrences (a : ascii) (s : string) : nat :=
  match s with
  | EmptyString => 0
  | String c rest => (if Ascii.eqb c a then 1 else 0) + occurrences a rest
  end.

(** What [LoadKubeConfig] reads from its surroundings: the environment
    variable, [EnsureLocalPath], [clientcmd.LoadFromFile] (the config, nil
    when there is none, and the error), [os.IsNotExist],
    [clientcmdapi.NewConfig] and [trace.ConvertSystemError]. [Config] is the
    type of kubeconfig values. *)
Record KubeFiles (Config : Type) : Type := mkKubeFiles {
  EnvKubeConfigValue : string;
  KubeConfigDir : string;
  KubeConfigFile : string;
  EnsureLocalPath : string -> string -> string -> Result string;
  LoadFromFile : string -> option Config * option Error;
  IsNotExist : Error -> bool;
  NewConfig : Config;
  ConvertSystemError : Error -> Error
}.
Arguments EnvKubeConfigValue {Config}.
Arguments KubeConfigDir {Config}.
Arguments KubeConfigFile {Config}.
Arguments EnsureLocalPath {Config}.
Arguments LoadFromFile {Config}.
Arguments IsNotExist {Config}.
Arguments NewConfig {Config}.
Arguments ConvertSystemError {Config}.

(** [LoadKubeConfig]: the pair [(config, error)] it returns. *)
Definition LoadKubeConfig {Config : Type} (fs : KubeFiles Config)
  : option Config * option Error :=
  match EnsureLocalPath fs (EnvKubeConfigValue fs) (KubeConfigDir fs) (KubeConfigFile fs) with
  | Err err => (None, Some (Wrap err []))
  | Ok filename =>
      let (config, err) := LoadFromFile fs filename in
      let loaded := match config with
                    | None => NewConfig fs
                    | Some c => c
                    end in
      match err with
      | Some e => if negb (IsNotExist fs e) then (None, Some (ConvertSystemError fs e))
                  else (Some loaded, None)
      | None => (Some loaded, None)
      end
  end.

End Kube.

(** ** tool/gravity/cli: the install command's configuration *)

Module Cli.

(** [storage.DockerConfig] *)
Record DockerConfig : Type := mkDockerConfig {
  StorageDriver : string;
  Args : list string
}.

(** [storage.DNSOverrides] *)
Record DNSOverrides : Type := mkDNSOverrides {
  Hosts : list (string * string);
  Zones : list (string * list string)
}.

(** [localenv.LocalEnvironment]: its services by name, and the silent
    flag. *)
Record LocalEnvironment : Type := mkLocalEnvironment {
  Packages : string;
  Apps : string;
  Backend : string;
  Silent : bool
}.

(** [install.Config], as [ToInstallerConfig] fills it, but for the fresh
    context and its cancel function. [EventsC] is the capacity of the event
    channel, [Resources] is nil when there are none. *)
Module Installer.

Record Config (Process : Type) : Type := mkConfig {
  EventsC : nat;
  AdvertiseAddr : string;
  Resources : option string;
  AppPackage : Phases.Locator;
  LocalPackages : string;
  LocalApps : string;
  LocalBackend : string;
  Silent : bool;
  SiteDomain : string;
  StateDir : string;
  WriteStateDir : string;
  UserLogFile : string;
  SystemLogFile : string;
  Token : string;
  CloudProvider : string;
  Flavor : string;
  Role : string;
  SystemDevice : string;
  DockerDevice : string;
  Mounts : list (string * string);
  DNSOverrides : Cli.DNSOverrides;
  DNSListenAddr : string;
  Mode : string;
  PodCIDR : string;
  ServiceCIDR : string;
  VxlanPort : Z;
  Docker : DockerConfig;
  Insecure : bool;
  Manual : bool;
  ServiceUser : Phases.User;
  GCENodeTags : list string;
  NewProcess : option Process
}.

End Installer.

Definition IsAccessDenied (e : Error) : bool :=
  match errKind e with AccessDeniedKind => true | _ => false end.

Section Configs.
(** [process.NewGravityProcess], the type of launchers of the API server
    process. *)
Variable Process : Type.

(** [InstallConfig] *)
Record InstallConfig : Type := mkInstallConfig {
  Mode : string;
  Insecure : bool;
  ReadStateDir : string;
  WriteStateDir : string;
  SystemLogFile : string;
  UserLogFile : string;
  AdvertiseAddr : string;
  InstallToken : string;
  CloudProvider : string;
  License : string;
  SiteDomain : string;
  Flavor : string;
  Role : string;
  ResourcesPath : string;
  SystemDevice : string;
  DockerDevice : string;
  Mounts : list (string * string);
  DNSHosts : list string;
  DNSZones : list string;
  DNSListenAddr : string;
  PodCIDR : string;
  ServiceCIDR : string;
  VxlanPort : Z;
  Docker : DockerConfig;
  Manual : bool;
  AppPackage : string;
  ServiceUser : Phases.User;
  ServiceUID : string;
  ServiceGID : string;
  NodeTags : list string;
  NewProcess : option Process
}.

(** [i.ReadStateDir = v] *)
Definition setReadStateDir (v : string) (i : InstallConfig) : InstallConfig :=
  mkInstallConfig
    (Mode i) (Insecure i) v (WriteStateDir i) (SystemLogFile i)
    (UserLogFile i) (AdvertiseAddr i) (InstallToken i) (CloudProvider i)
    (License i) (SiteDomain i) (Flavor i) (Role i) (ResourcesPath i)
    (SystemDevice i) (DockerDevice i) (Mounts i) (DNSHosts i) (DNSZones i)
    (DNSListenAddr i) (PodCIDR i) (ServiceCIDR i) (VxlanPort i) (Docker i)
    (Manual i) (AppPackage i) (ServiceUser i) (ServiceUID i) (ServiceGID i)
    (NodeTags i) (NewProcess i).

(** [i.WriteStateDir = v] *)
Definition setWriteStateDir (v : string) (i : InstallConfig) : InstallConfig :=
  mkInstallConfig
    (Mode i) (Insecure i) (ReadStateDir i) v (SystemLogFile i) (UserLogFile i)
    (AdvertiseAddr i) (InstallToken i) (CloudProvider i) (License i)
    (SiteDomain i) (Flavor i) (Role i) (ResourcesPath i) (SystemDevice i)
    (DockerDevice i) (Mounts i) (DNSHosts i) (DNSZones i) (DNSListenAddr i)
    (PodCIDR i) (ServiceCIDR i) (VxlanPort i) (Docker i) (Manual i)
    (AppPackage i) (ServiceUser i) (ServiceUID i) (ServiceGID i) (NodeTags i)
    (NewProcess i).

(** [i.InstallToken = v] *)
Definition setInstallToken (v : string) (i : InstallConfig) : InstallConfig :=
  mkInstallConfig
    (Mode i) (Insecure i) (ReadStateDir i) (WriteStateDir i) (SystemLogFile i)
    (UserLogFile i) (AdvertiseAddr i) v (CloudProvider i) (License i)
    (SiteDomain i) (Flavor i) (Role i) (ResourcesPath i) (SystemDevice i)
    (DockerDevice i) (Mounts i) (DNSHosts i) (DNSZones i) (DNSListenAddr i)
    (PodCIDR i) (ServiceCIDR i) (VxlanPort i) (Docker i) (Manual i)
    (AppPackage i) (ServiceUser i) (ServiceUID i) (ServiceGID i) (NodeTags i)
    (NewProcess i).

(** [i.VxlanPort = v] *)
Definition setVxlanPort (v : Z) (i : InstallConfig) : InstallConfig :=
  mkInstallConfig
    (Mode i) (Insecure i) (ReadStateDir i) (WriteStateDir i) (SystemLogFile i)
    (UserLogFile i) (AdvertiseAddr i) (InstallToken i) (CloudProvider i)
    (License i) (SiteDomain i) (Flavor i) (Role i) (ResourcesPath i)
    (SystemDevice i) (DockerDevice i) (Mounts i) (DNSHosts i) (DNSZones i)
    (DNSListenAddr i) (PodCIDR i) (ServiceCIDR i) v (Docker i) (Manual i)
    (AppPackage i) (ServiceUser i) (ServiceUID i) (ServiceGID i) (NodeTags i)
    (NewProcess i).

(** [i.DNSListenAddr = v] *)
Definition setDNSListenAddr (v : string) (i : InstallConfig) : InstallConfig :=
  mkInstallConfig
    (Mode i) (Insecure i) (ReadStateDir i) (WriteStateDir i) (SystemLogFile i)
    (UserLogFile i) (AdvertiseAddr i) (InstallToken i) (CloudProvider i)
    (License i) (SiteDomain i) (Flavor i) (Role i) (ResourcesPath i)
    (SystemDevice i) (DockerDevice i) (Mounts i) (DNSHosts i) (DNSZones i) v
    (PodCIDR i) (ServiceCIDR i) (VxlanPort i) (Docker i) (Manual i)
    (AppPackage i) (ServiceUser i) (ServiceUID i) (ServiceGID i) (NodeTags i)
    (NewProcess i).

(** [i.ServiceUser = v] *)
Definition setServiceUser (v : Phases.User) (i : InstallConfig) : InstallConfig :=
  mkInstallConfig
    (Mode i) (Insecure i) (ReadStateDir i) (WriteStateDir i) (SystemLogFile i)
    (UserLogFile i) (AdvertiseAddr i) (InstallToken i) (CloudProvider i)
    (License i) (SiteDomain i) (Flavor i) (Role i) (ResourcesPath i)
    (SystemDevice i) (DockerDevice i) (Mounts i) (DNSHosts i) (DNSZones i)
    (DNSListenAddr i) (PodCIDR i) (ServiceCIDR i) (VxlanPort i) (Docker i)
    (Manual i) (AppPackage i) v (ServiceUID i) (ServiceGID i) (NodeTags i)
    (NewProcess i).

(** [i.NewProcess = v] *)
Definition setNewProcess (v : option Process) (i : InstallConfig) : InstallConfig :=
  mkInstallConfig
    (Mode i) (Insecure i) (ReadStateDir i) (WriteStateDir i) (SystemLogFile i)
    (UserLogFile i) (AdvertiseAddr i) (InstallToken i) (CloudProvider i)
    (License i) (SiteDomain i) (Flavor i) (Role i) (ResourcesPath i)
    (SystemDevice i) (DockerDevice i) (Mounts i) (DNSHosts i) (DNSZones i)
    (DNSListenAddr i) (PodCIDR i) (ServiceCIDR i) (VxlanPort i) (Docker i)
    (Manual i) (AppPackage i) (ServiceUser i) (ServiceUID i) (ServiceGID i)
    (NodeTags i) v.

(** [i'] differs from [i] at most in the fields [CheckAndSetDefaults]
    assigns: the state directories, the token, the overlay port, the DNS
    listen address, the service user and the process launcher. *)
Definition sameElsewhere (i i' : InstallConfig) : Prop :=
  Mode i' = Mode i /\
  Insecure i' = Insecure i /\
  SystemLogFile i' = SystemLogFile i /\
  UserLogFile i' = UserLogFile i /\
  AdvertiseAddr i' = AdvertiseAddr i /\
  CloudProvider i' = CloudProvider i /\
  License i' = License i /\
  SiteDomain i' = SiteDomain i /\
  Flavor i' = Flavor i /\
  Role i' = Role i /\
  ResourcesPath i' = ResourcesPath i /\
  SystemDevice i' = SystemDevice i /\
  DockerDevice i' = DockerDevice i /\
  Mounts i' = Mounts i /\
  DNSHosts i' = DNSHosts i /\
  DNSZones i' = DNSZones i /\
  PodCIDR i' = PodCIDR i /\
  ServiceCIDR i' = ServiceCIDR i /\
  Docker i' = Docker i /\
  Manual i' = Manual i /\
  AppPackage i' = AppPackage i /\
  ServiceUID i' = ServiceUID i /\
  ServiceGID i' = ServiceGID i /\
  NodeTags i' = NodeTags i.

(** What the configuration methods call outside this file: the operating
    system ([os.Getwd], [ioutil.TempDir], [utils.IsDirectory],
    [utils.ReadPath]), the random token, the service user, the network
    pickers, the package and local-environment services, the parsers of
    DNS overrides, and constants of [defaults], [constants] and [process].
    A call that returns a value next to its error is a pair. *)
Record System : Type := mkSystem {
  Getwd : string * option Error;
  TempDir : string * option Error;
  IsDirectory : string -> bool * option Error;
  CryptoRandomHex : string * option Error;
  GetOrCreateServiceUser : string -> string -> Result Phases.User;
  defaultVxlanPort : Z;
  defaultDNSListenAddr : string;
  processNewProcess : Process;
  ConvertSystemError : Error -> Error;
  InstallModeInteractive : string;
  selectNetworkInterface : Result string;
  PickAdvertiseIP : Result string;
  ReadPath : string -> Result string;
  MakeLocator : string -> Result Phases.Locator;
  localenvNew : string -> Result LocalEnvironment;
  installGetAppPackage : string -> Result Phases.Locator;
  ParseHostOverride : string -> Result (string * string);
  ParseZoneOverride : string -> Result (string * string)
}.

Variable sys : System.

(** The configuration as the method has left it so far, and the lines it
    has logged. *)
Definition Progress : Type := (InstallConfig * list string)%type.

(** Run [next] unless the steps so far have returned an error. *)
Definition andThen (done : option Error * Progress)
  (next : Progress -> option Error * Progress) : option Error * Progress :=
  match done with
  | (Some err, st) => (Some err, st)
  | (None, st) => next st
  end.

Definition resolveReadStateDir (st : Progress) : option Error * Progress :=
  let (i, logged) := st in
  if String.eqb (ReadStateDir i) "" then
    let (dir, err) := Getwd sys in
    match err with
    | Some e => (Some (ConvertSystemError sys e), (setReadStateDir dir i, logged))
    | None =>
        (None, (setReadStateDir dir i,
                logged ++ [("Set installer state directory: " ++ dir ++ ".")%string]))
    end
  else (None, st).

Definition resolveWriteStateDir (st : Progress) : option Error * Progress :=
  let (i, logged) := st in
  if String.eqb (WriteStateDir i) "" then
    let (dir, err) := TempDir sys in
    match err with
    | Some e => (Some (ConvertSystemError sys e), (setWriteStateDir dir i, logged))
    | None =>
        (None, (setWriteStateDir dir i,
                logged ++ [("Installer write layer: " ++ dir ++ ".")%string]))
    end
  else (None, st).

Definition checkStateDir (st : Progress) : option Error * Progress :=
  let (i, logged) := st in
  let (isDir, err) := IsDirectory sys (ReadStateDir i) in
  if negb isDir then
    (Some (BadParameter ("the specified state path " ++ ReadStateDir i
                           ++ " is not a directory")), st)
  else
    match err with
    | Some e =>
        if IsAccessDenied e then
          (Some (Wrap e [("access denied to the specified state dir "
                            ++ ReadStateDir i)%string]), st)
        else if IsNotFound e then
          (Some (Wrap e [("the specified state dir " ++ ReadStateDir i
                            ++ " is not found")%string]), st)
        else (Some (Wrap e []), st)
    | None => (None, st)
    end.

Definition resolveInstallToken (st : Progress) : option Error * Progress :=
  let (i, logged) := st in
  if String.eqb (InstallToken i) "" then
    let (token, err) := CryptoRandomHex sys in
    match err with
    | Some e => (Some (Wrap e []), (setInstallToken token i, logged))
    | None =>
        (None, (setInstallToken token i,
                logged ++ [("Generated install token: " ++ token ++ ".")%string]))
    end
  else (None, st).

Definition resolveServiceUser (st : Progress) : option Error * Progress :=
  let (i, logged) := st in
  match GetOrCreateServiceUser sys (ServiceUID i) (ServiceGID i) with
  | Err e => (Some (Wrap e []), st)
  | Ok serviceUser =>
      let i1 := if (VxlanPort i =? 0)%Z then setVxlanPort (defaultVxlanPort sys) i else i in
      let i2 := if String.eqb (DNSListenAddr i1) ""
                then setDNSListenAddr (defaultDNSListenAddr sys) i1 else i1 in
      let i3 := setServiceUser serviceUser i2 in
      let i4 := match NewProcess i3 with
                | None => setNewProcess (Some (processNewProcess sys)) i3
                | Some _ => i3
                end in
      (None, (i4, logged))
  end.

(** [CheckAndSetDefaults]: the error, the configuration as the call leaves
    it, and the lines logged. *)
Definition CheckAndSetDefaults (i : InstallConfig) : option Error * Progress :=
  andThen (resolveReadStateDir (i, [])) (fun st =>
  andThen (resolveWriteStateDir st) (fun st =>
  andThen (checkStateDir st) (fun st =>
  andThen (resolveInstallToken st) resolveServiceUser))).

(** [GetAdvertiseAddr] *)
Definition GetAdvertiseAddr (i : InstallConfig) : Result string :=
  if negb (String.eqb (AdvertiseAddr i) "") then Ok (AdvertiseAddr i)
  else if String.eqb (Mode i) (InstallModeInteractive sys) then selectNetworkInterface sys
  else
    match PickAdvertiseIP sys with
    | Err err =>
        Err (Wrap err ["could not pick advertise address among the host's network interfaces, please set the advertise address via --advertise-addr flag"])
    | Ok addr => Ok addr
    end.

(** [GetAppPackage] *)
Definition GetAppPackage (i : InstallConfig) : Result Phases.Locator :=
  if negb (String.eqb (AppPackage i) "") then MakeLocator sys (AppPackage i)
  else
    match localenvNew sys (ReadStateDir i) with
    | Err err => Err (Wrap err [])
    | Ok env =>
        match installGetAppPackage sys (Apps env) with
        | Err err =>
            if IsNotFound err then
              Err (NotFound ("the specified state dir " ++ ReadStateDir i
                               ++ " does not contain application data, please provide a path to the unpacked installer tarball or specify an application package via --app flag"))
            else Err (Wrap err [])
        | Ok locator => Ok locator
        end
    end.

(** [GetResources] *)
Definition GetResources (i : InstallConfig) : Result string :=
  if String.eqb (ResourcesPath i) "" then Err (NotFound "no resources provided")
  else
    match ReadPath sys (ResourcesPath i) with
    | Err err => Err (Wrap err [])
    | Ok resources => Ok resources
    end.

(** The first loop of [getDNSOverrides]. *)
Fixpoint hostOverrides (overrides : list string) (hosts : list (string * string))
  : Result (list (string * string)) :=
  match overrides with
  | [] => Ok hosts
  | hostOverride :: rest =>
      match ParseHostOverride sys hostOverride with
      | Err err => Err (Wrap err [])
      | Ok (host, ip) => hostOverrides rest (GoMap.Put host ip hosts)
      end
  end.

(** [zones[zone]] for a map of slices: nil when the key is missing. *)
Definition nameservers (zone : string) (zones : list (string * list string))
  : list string :=
  match GoMap.Get zone zones with
  | Some l => l
  | None => []
  end.

(** The second loop of [getDNSOverrides]. *)
Fixpoint zoneOverrides (overrides : list string) (zones : list (string * list string))
  : Result (list (string * list string)) :=
  match overrides with
  | [] => Ok zones
  | zoneOverride :: rest =>
      match ParseZoneOverride sys zoneOverride with
      | Err err => Err (Wrap err [])
      | Ok (zone, nameserver) =>
          zoneOverrides rest
            (GoMap.Put zone (nameservers zone zones ++ [nameserver]) zones)
      end
  end.

(** An override for the host or zone [name], once parsed. *)
Definition overrides (name : string) (parsed : string * string) : bool :=
  String.eqb (fst parsed) name.

(** [getDNSOverrides] *)
Definition getDNSOverrides (i : InstallConfig) : Result DNSOverrides :=
  match hostOverrides (DNSHosts i) [] with
  | Err err => Err err
  | Ok hosts =>
      match zoneOverrides (DNSZones i) [] with
      | Err err => Err err
      | Ok zones => Ok (mkDNSOverrides hosts zones)
      end
  end.

(** [ToInstallerConfig] *)
Definition ToInstallerConfig (i : InstallConfig) (env : LocalEnvironment)
  : Result (Installer.Config Process) :=
  match GetAdvertiseAddr i with
  | Err err => Err (Wrap err [])
  | Ok advertiseAddr =>
      let got := GetResources i in
      match (match got with
             | Err err => if negb (IsNotFound err) then Some err else None
             | Ok _ => None
             end) with
      | Some err => Err (Wrap err [])
      | None =>
          let resources := match got with
                           | Ok bytes => Some bytes
                           | Err _ => None
                           end in
          match GetAppPackage i with
          | Err err => Err (Wrap err [])
          | Ok appPackage =>
              match getDNSOverrides i with
              | Err err => Err (Wrap err [])
              | Ok dnsOverrides =>
                  Ok (Installer.mkConfig Process 100 advertiseAddr resources
                        appPackage (Packages env) (Apps env) (Backend env)
                        (Silent env) (SiteDomain i) (ReadStateDir i)
                        (WriteStateDir i) (UserLogFile i) (SystemLogFile i)
                        (InstallToken i) (CloudProvider i) (Flavor i) (Role i)
                        (SystemDevice i) (DockerDevice i) (Mounts i)
                        dnsOverrides (DNSListenAddr i) (Mode i) (PodCIDR i)
                        (ServiceCIDR i) (VxlanPort i) (Docker i) (Insecure i)
                        (Manual i) (ServiceUser i) (NodeTags i) (NewProcess i))
              end
          end
      end
  end.

End Configs.

End Cli.

(** ** The storage checker: the operating-system side *)

Module MonitoringOS.

(** The file [writeN] writes to and the context it watches, by the number
    of writes made so far: [Write k] is the error of the write that follows
    [k] earlier ones, [ctxErrAfter k] is [ctx.Err()] once [k] writes have
    been made. *)
Record Sink : Type := mkSink {
  Write : nat -> option Error;
  ctxErrAfter : nat -> option Error;
  ConvertSystemError : Error -> Error
}.

(** The loop of [writeN] with [rounds] rounds to go after [made] writes:
    the error, and the writes made in all. *)
Fixpoint writeLoop (f : Sink) (rounds made : nat) : option Error * nat :=
  match rounds with
  | O => (None, made)
  | S rounds' =>
      match Write f made with
      | Some err => (Some (ConvertSystemError f err), S made)
      | None =>
          match ctxErrAfter f (S made) with
          | Some err => (Some (Wrap err []), S made)
          | None => writeLoop f rounds' (S made)
          end
      end
  end.

(** [writeN(ctx, file, buf, n)] *)
Definition writeN (f : Sink) (n : Z) : option Error * nat :=
  writeLoop f (Z.to_nat n) 0.

(** [syscall.Statfs_t], the two fields [diskCapacity] reads: a signed and
    an unsigned 64-bit number. *)
Record Statfs_t : Type := mkStatfs {
  Bsize : Z;
  Bavail : Z
}.

(** [realOS.diskCapacity], given [syscall.Statfs]: the product is taken in
    unsigned 64-bit arithmetic. *)
Definition diskCapacity (Statfs : string -> Result Statfs_t) (path : string)
  : Z * option Error :=
  match Statfs path with
  | Err err => (0%Z, Some (Wrap err []))
  | Ok stat => (((Bsize stat mod 2 ^ 64) * Bavail stat) mod 2 ^ 64, None)%Z
  end.

(** What happens to the probe file of [diskSpeed], in order. [Written k]
    stands for [k] calls of [file.Write], each with a buffer of [blockSize]
    bytes; [Synced] and [Removed] are recorded when the call succeeded. *)
Inductive FileEvent : Type :=
| Created (name : string)
| Written (blocks : nat)
| Synced (name : string)
| Removed (name : string)
| Closed (name : string).

(** What [diskSpeed] calls: [ioutil.TempFile] (the name of the file it
    created), the file and the context as [writeN] sees them, [file.Sync],
    [os.Remove], and [Rate], the number [uint64(blockSize * cycles /
    elapsed)] for the time measured. *)
Record ProbeFile : Type := mkProbeFile {
  TempFile : string -> string -> Result string;
  probeSink : Sink;
  Sync : option Error;
  Rate : Z;
  Remove : string -> option Error
}.

Definition cycles : Z := 1024.

(** [realOS.diskSpeed]: the speed, the error, and what happened to the
    probe file; the deferred [file.Close()] runs last. *)
Definition diskSpeed (d : ProbeFile) (path prefix : string)
  : Z * option Error * list FileEvent :=
  match TempFile d path prefix with
  | Err err => (0%Z, Some (ConvertSystemError (probeSink d) err), [])
  | Ok name =>
      let (werr, made) := writeN (probeSink d) cycles in
      match werr with
      | Some err =>
          (0%Z, Some (ConvertSystemError (probeSink d) err),
           [Created name; Written made; Closed name])
      | None =>
          match Sync d with
          | Some err =>
              (0%Z, Some (ConvertSystemError (probeSink d) err),
               [Created name; Written made; Closed name])
          | None =>
              match Remove d name with
              | Some err =>
                  (0%Z, Some (ConvertSystemError (probeSink d) err),
                   [Created name; Written made; Synced name; Closed name])
              | None =>
                  (Rate d, None,
                   [Created name; Written made; Synced name; Removed name;
                    Closed name])
              end
          end
      end
  end.

(** The path [evalPath] looks at in its round [k], counting from 0: the
    configured path, its parent, the parent of that, and so on. *)
Definition ancestor (host : Monitoring.Host) (c : Monitoring.storageChecker)
  (k : nat) : string :=
  Nat.iter k (Monitoring.Dir host) (Monitoring.Path (Monitoring.config c)).

(** A mount [fsFromPath] may answer for the resolved path. *)
Definition holds (cleanpath : string) (mnt : Monitoring.FileSystem) : bool :=
  String.prefix (Monitoring.DirName mnt) cleanpath
  && negb (String.eqb (Monitoring.SysTypeName mnt) "rootfs").

End MonitoringOS.

(** ** Concrete scenarios the properties are exercised on *)

Module Scenarios.

Import Phases.

(** A world whose collaborators' state is a counter of calls. *)
Definition freshWorld : World nat := mkWorld 0%nat [] [] [] [].

Definition notReady : Error := BadParameter "not ready".
Definition stillNotReady : Error := BadParameter "still not ready".

(** A function that fails on its first two invocations and succeeds on
    the third. *)
Definition flaky : M nat (option Error) :=
  call (fun n => (match n with
                  | 0%nat => Some notReady
                  | 1%nat => Some stillNotReady
                  | _ => None
                  end, S n)).

(** The planet agent: two nodes expected; the first call sees one node,
    the second a degraded cluster, later calls a running one. *)
Definition planetAgent (ctx : Context) (n : nat) : Result PlanetStatus * nat :=
  (match n with
   | 0%nat => Ok (mkStatus ["10.0.0.1"] SystemStatus_Running)
   | 1%nat => Ok (mkStatus ["10.0.0.1"; "10.0.0.2"] SystemStatus_Degraded)
   | _ => Ok (mkStatus ["10.0.0.1"; "10.0.0.2"] SystemStatus_Running)
   end, S n).

Definition parseUser (u : OSUser) : Result User :=
  Ok (mkUser (osName u) 1000 1000).

(** Collaborators on a two-node cluster; phases are run against the
    server called node-2. *)
Definition env0 : Env nat :=
  mkEnv nat 5 3 2 4
    "gravitational.io/k8s-role" "gravitational.io/advertise-ip"
    (fun s => String.eqb (Hostname s) "node-2")
    (fun plan => OperationID plan)
    parseUser
    (fun _ => false)
    planetAgent
    (fun _ => "status")
    (fun s => Hostname s)
    (fun _ => "labels")
    (fun _ => "taints")
    (fun _ _ => Ok (mkProfile [] []))
    (fun e msg => Wrap e [msg])
    (fun _ _ n => (None, S n))
    (fun n => (Ok "/var/lib/gravity", S n))
    (fun _ _ n => (None, S n))
    (fun _ _ n => (("", None), S n))
    (fun dir => (dir ++ "/share")%string)
    "/usr/bin/kubectl"
    "/etc/kubernetes/scheduler.kubeconfig"
    "/ext/share".

Definition node1 : Server := mkServer "node-1" "10.0.0.1" "node" "master".
Definition node2 : Server := mkServer "node-2" "10.0.0.2" "node" "node".

Definition plan0 : OperationPlan := mkPlan "op-1" "example.com" [node1; node2].

Definition dnsApp : Locator := mkLocator "gravitational.io" "dns-app" "0.0.1".

(** An application without hooks. *)
Definition noHooks : Applications nat :=
  mkApplications nat
    (fun _ n => (Ok "dns-app", S n))
    (fun _ n => (Ok "resources", S n))
    (fun _ n => (Err (NotFound "hook not found"), S n))
    (fun _ _ n => ((Ok "", ""), S n)).

Definition operator0 : Operator nat :=
  mkOperator nat (fun _ _ n => (None, S n)).

(** A phase without data, and one with a package and a service user. *)
Definition bareParams : ExecutorParams :=
  mkParams plan0 (mkPhase "/app" None).

Definition appData : OperationPhaseData :=
  mkPhaseData (Some node2) (Some dnsApp) (Some (mkOSUser "planet" "1000" "1000")) "".

Definition params0 : ExecutorParams :=
  mkParams plan0 (mkPhase "/app" (Some appData)).

Definition logger0 : Logger := mkLogger "/app" "op-1" (Some node2).

Definition app0 : appExecutor :=
  mkAppExecutor logger0 operator0 noHooks (mkUser "planet" 1000 1000) params0.

Definition wait0 : waitExecutor := mkWaitExecutor logger0 params0.

Definition background : Context := mkContext None.

(** *** A host for the storage checker *)

Import Monitoring.

(** [less i j] of [childPathFirst]: the directory of [a] starts with the
    directory of [b]. *)
Definition childFirst (a b : FileSystem) : bool :=
  String.prefix (DirName b) (DirName a).

(** Insertion of [x] at the end of a sorted run, given most recent first:
    [x] moves towards the front past every element it is less than. *)
Fixpoint insertLast (x : FileSystem) (run : list FileSystem) : list FileSystem :=
  match run with
  | [] => [x]
  | y :: rest => if childFirst x y then y :: insertLast x rest else x :: run
  end.

(** The insertion sort that [sort.Sort] runs on a short slice. *)
Definition insertionSort (l : list FileSystem) : list FileSystem :=
  rev (fold_left (fun run x => insertLast x run) l []).

Definition GiB : Z := 1073741824.

(** A stand-in for [humanize.Bytes] on whole gigabytes: decimal units,
    rounded to the nearest. *)
Definition humanizeGB (n : Z) : string :=
  (Phases.Itoa ((n + 500000000) / 1000000000) ++ " GB")%string.

Definition host0 : Host :=
  mkHost
    (fun p => if String.eqb p "/var/lib/gravity" then IsDir
              else NotExist (NotFound "no such file or directory"))
    (fun _ => "/")
    (fun p => Ok p)
    insertionSort
    humanizeGB
    (fun e => e)
    (fun name detail e => mkProbe name detail Probe_Failed (errMessage e)).

(** A machine with an xfs root, an ext4 /boot, 50 GiB free and a disk that
    writes 200 MB a second. *)
Definition os0 : osInterface :=
  mkOS
    (Ok [mkFileSystem "/" "rootfs"; mkFileSystem "/" "xfs"; mkFileSystem "/boot" "ext4"])
    (fun _ _ => Ok 200000000%Z)
    (fun _ => Ok (50 * GiB)%Z).

(** Requirements the machine meets in all three dimensions. *)
Definition modest : storageChecker :=
  mkStorageChecker
    (mkStorageConfig "/var/lib/gravity" false 100000000 ["xfs"] (10 * GiB))
    "" os0.

(** Requirements it misses: ext4 and 100 GiB free. *)
Definition demanding : storageChecker :=
  mkStorageChecker
    (mkStorageConfig "/var/lib/gravity" false 0 ["ext4"] (100 * GiB))
    "/var/lib/gravity" os0.

(** A machine with /var on ext4 and /var/lib, mounted later, on xfs, in
    the order the mounts were made. *)
Definition layered : osInterface :=
  mkOS
    (Ok [mkFileSystem "/" "xfs"; mkFileSystem "/var" "ext4";
         mkFileSystem "/boot" "ext4"; mkFileSystem "/var/lib" "xfs"])
    (fun _ _ => Ok 200000000%Z)
    (fun _ => Ok (50 * GiB)%Z).

(** A checker that accepts ext4 only, for a directory that lies on the xfs
    mount /var/lib. *)
Definition strict : storageChecker :=
  mkStorageChecker
    (mkStorageConfig "/var/lib/gravity" false 0 ["ext4"] 0)
    "/var/lib/gravity" layered.

(** A machine with a volume mounted on /var/lib/gravity, and a checker for
    the directory /var/lib/gravity2 beside it, which lies on the root
    filesystem. *)
Definition beside : osInterface :=
  mkOS
    (Ok [mkFileSystem "/" "xfs"; mkFileSystem "/var/lib/gravity" "ext4"])
    (fun _ _ => Ok 200000000%Z)
    (fun _ => Ok (50 * GiB)%Z).

Definition neighbour : storageChecker :=
  mkStorageChecker
    (mkStorageConfig "/var/lib/gravity2" false 0 ["ext4"] 0)
    "/var/lib/gravity2" beside.

(** *** A machine for the installer's log *)

Import Install.

Definition installLog : string := "/var/log/telekube-install.log".

(** Nothing on disk, nothing on the console, every path writable, and
    neither formatting nor writing ever fails. *)
Definition machine0 : Machine :=
  mkMachine [] "" (fun _ => false) (fun _ => None) (fun _ _ => None).

Definition diskWarning : Entry := mkEntry WarnLevel "disk is almost full".

End Scenarios.

(** ** More scenarios: a cluster, an install command, a disk *)

Module Cases.

(** *** Kubernetes nodes *)

Definition kube : Kube.Defaults :=
  Kube.mkDefaults "gravitational.io/k8s-role" "gravitational.io/advertise-ip"
    "kubernetes.io/hostname" "master".

(** A master known by its advertise-IP label and a worker that only has
    the hostname label of older releases. *)
Definition master1 : Phases.Node :=
  Phases.mkNode "node-1"
    [("gravitational.io/k8s-role", "master");
     ("gravitational.io/advertise-ip", "10.0.0.1")] [].

Definition worker2 : Phases.Node :=
  Phases.mkNode "node-2"
    [("gravitational.io/k8s-role", "node");
     ("kubernetes.io/hostname", "10.0.0.2")] [].

Definition nodeClient : Kube.NodeInterface :=
  Kube.mkNodeInterface (Ok [master1; worker2]) (fun e => e)
    (fun s => String (ascii_of_nat 34) (s ++ String (ascii_of_nat 34) ""))
    Phases.nodeName.

(** The map [GetNodes] builds from that listing. *)
Definition nodesByAddress : Kube.NodeMap :=
  [("10.0.0.2", worker2); ("10.0.0.1", master1)].

(** Labels of a node profile, and the labels a node comes with. *)
Definition profileLabels0 : list (string * string) :=
  [("role", "worker"); ("gravitational.io/k8s-role", "anything")].

Definition nodeLabels0 : list (string * string) :=
  [("gravitational.io/advertise-ip", "192.168.0.7"); ("zone", "a")].

(** *** Slices of strings *)

(** Six cells of one array, and three windows on it: the first two share
    no cell, the last two share the cell at address 1. *)
Definition cells : Slices.Memory :=
  fun i => nth i ["x"; "y"; "x"; "y"; "x"; "z"] "".

Definition front : Slices.View := Slices.mkView 0 2.
Definition back : Slices.View := Slices.mkView 3 2.
Definition middle : Slices.View := Slices.mkView 1 2.

(** *** The install command *)

(** An override of the form name/address. *)
Definition parseOverride (s : string) : Result (string * string) :=
  match index 0 "/" s with
  | Some n => Ok (substring 0 n s, substring (S n) (String.length s - S n) s)
  | None => Err (BadParameter ("invalid override " ++ s))
  end.

(** A machine whose working directory is a directory; launchers of the API
    server process are not told apart. *)
Definition installer : Cli.System unit :=
  Cli.mkSystem unit
    ("/home/installer", None)
    ("/tmp/gravity-wizard123", None)
    (fun p => (String.eqb p "/home/installer", None))
    ("a1b2c3d4e5f6", None)
    (fun _ _ => Ok (Phases.mkUser "planet" 1000 1000))
    8472%Z
    "127.0.0.2"
    tt
    (fun e => e)
    "interactive"
    (Ok "192.168.1.10")
    (Ok "10.0.0.1")
    (fun _ => Ok "kind: ConfigMap")
    (fun s => Ok (Phases.mkLocator "gravitational.io" s "0.0.1"))
    (fun _ => Ok (Cli.mkLocalEnvironment "packages" "apps" "backend" false))
    (fun _ => Ok Scenarios.dnsApp)
    parseOverride
    parseOverride.

(** [gravity install] with DNS overrides and nothing else on the command
    line. *)
Definition bareInstall : Cli.InstallConfig unit :=
  Cli.mkInstallConfig unit
    "" false "" "" "/var/log/telekube-system.log" "/var/log/telekube-install.log"
    "" "" "generic" "" "example.com" "small" "node" "" "" "" []
    ["a.example.com/10.0.0.5"; "b.example.com/10.0.0.6"; "a.example.com/10.0.0.7"]
    ["example.com/10.0.0.53"; "example.com/10.0.0.54"]
    "" "10.244.0.0/16" "10.100.0.0/16" 0%Z (Cli.mkDockerConfig "overlay2" [])
    false "" (Phases.mkUser "" 0 0) "1000" "1000" [] None.

(** The same with a state path that is a file. *)
Definition misdirected : Cli.InstallConfig unit :=
  Cli.setReadStateDir unit "/etc/hosts" bareInstall.

Definition localEnv : Cli.LocalEnvironment :=
  Cli.mkLocalEnvironment "packages" "apps" "backend" false.

(** *** A disk *)

(** A host on which /data exists and the site directory below it is still
    to be created. *)
Definition dataHost : Monitoring.Host :=
  Monitoring.mkHost
    (fun p => if String.eqb p "/data" then Monitoring.IsDir
              else if String.eqb p "/" then Monitoring.IsDir
              else Monitoring.NotExist (NotFound "no such file or directory"))
    (fun p => if String.eqb p "/data/gravity/site" then "/data/gravity"
              else if String.eqb p "/data/gravity" then "/data"
              else "/")
    (fun p => Ok p)
    Scenarios.insertionSort
    Scenarios.humanizeGB
    (fun e => e)
    (fun name detail e =>
       Monitoring.mkProbe name detail Monitoring.Probe_Failed (errMessage e)).

Definition planned : Monitoring.storageChecker :=
  Monitoring.mkStorageChecker
    (Monitoring.mkStorageConfig "/data/gravity/site" true 0 [] 0)
    "" Scenarios.os0.

(** A host on which relative paths are resolved against a working
    directory that exists. *)
Definition hereHost : Monitoring.Host :=
  Monitoring.mkHost
    (fun p => if String.eqb p "." then Monitoring.IsDir
              else Monitoring.NotExist (NotFound "no such file or directory"))
    (fun _ => ".")
    (fun p => Ok p)
    Scenarios.insertionSort
    Scenarios.humanizeGB
    (fun e => e)
    (fun name detail e =>
       Monitoring.mkProbe name detail Monitoring.Probe_Failed (errMessage e)).

(** A checker whose path is left empty. *)
Definition unnamed : Monitoring.storageChecker :=
  Monitoring.mkStorageChecker
    (Monitoring.mkStorageConfig "" true 0 [] 0)
    "" Scenarios.os0.

Definition canceled : Error := mkError SystemKind "context canceled" [].

(** A file every write to which succeeds, under a context that is done. *)
Definition doomed : MonitoringOS.Sink :=
  MonitoringOS.mkSink (fun _ => None) (fun _ => Some canceled) (fun e => e).

(** A Kubernetes API that knows no node. *)
Definition emptyCluster : Phases.Clientset nat :=
  Phases.mkClientset nat
    (fun _ n => (Err (NotFound "node not found"), S n))
    (fun _ n => (None, S n)).

(** *** The installer's log *)

Definition firstLines : list Install.Entry :=
  [Install.mkEntry InfoLevel "starting";
   Scenarios.diskWarning;
   Install.mkEntry DebugLevel "done"].

End Cases.
(** * Properties *)

(** ** The retry policy *)

Module RetryPolicy.

Import Utils.

Section Facts.
Context {Ext : Type}.
Variable period : Z.
Variable fn : M Ext (option Error).

Lemma history_step (k : nat) (w : World Ext) :
  history period fn (S k) w =
  match fn w with
  | None => []
  | Some (r, w') => (w, r) :: history period fn k (pause period w')
  end.
Proof. reflexivity. Qed.

Lemma retryLoop_step (k : nat) (last : option Error) (w : World Ext) :
  retryLoop period (S k) fn last w =
  match fn w with
  | None => None
  | Some (None, w') => Some (None, w')
  | Some (Some e, w') => retryLoop period k fn (Some e) (pause period w')
  end.
Proof.
  cbn [retryLoop]. unfold bind at 1.
  destruct (fn w) as [[[e|] w']|]; reflexivity.
Qed.

(** A shorter run of invocations is a prefix of a longer one. *)
Lemma history_firstn (k : nat) :
  forall w, history period fn k w = firstn k (history period fn (S k) w).
Proof.
  induction k as [|k IH]; intros w.
  - reflexivity.
  - rewrite (history_step (S k)), (history_step k).
    destruct (fn w) as [[r w']|]; [|reflexivity].
    cbn [firstn]. f_equal. apply IH.
Qed.

Lemma outcomes_firstn (k : nat) (w : World Ext) :
  outcomes period fn k w = firstn k (outcomes period fn (S k) w).
Proof.
  unfold outcomes. rewrite history_firstn. symmetry. apply firstn_map.
Qed.

Lemma history_length (k : nat) :
  forall w, (length (history period fn k w) <= k)%nat.
Proof.
  induction k as [|k IH]; intros w; [apply Nat.le_refl|].
  rewrite history_step. destruct (fn w) as [[r w']|]; cbn [length]; [|lia].
  specialize (IH (pause period w')). lia.
Qed.

Lemma last_cons_default {A : Type} (l : list A) :
  forall x d, List.last (x :: l) d = List.last l x.
Proof.
  induction l as [|y l IH]; intros x d; [reflexivity|].
  change (List.last (x :: y :: l) d) with (List.last (y :: l) d).
  rewrite (IH y d), (IH y x). reflexivity.
Qed.

(** When every one of the [k] attempts fails, the loop ends with the
    error of the last of them, or with the one it started from when
    [k = 0]. *)
Lemma retryLoop_exhausted (k : nat) :
  forall w es last,
    outcomes period fn k w = map Some es ->
    length es = k ->
    exists w',
      retryLoop period k fn last w =
      Some (option_map (fun e => Wrap e []) (List.last (map Some es) last), w').
Proof.
  induction k as [|k IH]; intros w es last Hout Hlen.
  - destruct es; [|discriminate]. cbn. eexists; reflexivity.
  - destruct es as [|e es]; [discriminate|].
    unfold outcomes in Hout. rewrite history_step in Hout. rewrite retryLoop_step.
    destruct (fn w) as [[r w']|]; [|discriminate].
    cbn [map snd] in Hout. injection Hout as Hr Hrest. subst r.
    injection Hlen as Hlen.
    destruct (IH (pause period w') es (Some e) Hrest Hlen) as [w'' Hw''].
    exists w''. rewrite Hw''. do 2 f_equal.
    cbn [map]. rewrite last_cons_default. reflexivity.
Qed.

(** When the attempts fail [length es] times and then succeed, the loop
    succeeds under every budget that reaches the success, and ends in the
    same world whatever the budget. *)
Lemma retryLoop_succeeds (es : list Error) :
  forall w last,
    outcomes period fn (S (length es)) w = map Some es ++ [None] ->
    exists w',
      forall budget, (S (length es) <= budget)%nat ->
        retryLoop period budget fn last w = Some (None, w').
Proof.
  induction es as [|e es IH]; intros w last Hout.
  - unfold outcomes in Hout. rewrite history_step in Hout.
    destruct (fn w) as [[r w']|] eqn:Hfn; [|discriminate].
    cbn in Hout. injection Hout as Hr. subst r.
    exists w'. intros [|budget] Hb; [cbn in Hb; lia|].
    rewrite retryLoop_step, Hfn. reflexivity.
  - unfold outcomes in Hout. rewrite history_step in Hout.
    destruct (fn w) as [[r w']|] eqn:Hfn; [|discriminate].
    cbn [map snd app] in Hout. injection Hout as Hr Hrest. subst r.
    destruct (IH (pause period w') (Some e) Hrest) as [w'' Hw''].
    exists w''. intros [|budget] Hb; [cbn in Hb; lia|].
    rewrite retryLoop_step, Hfn. apply Hw''. cbn [length] in Hb. lia.
Qed.

(** A successful loop either made no attempt at all or has a successful
    attempt in its history. *)
Lemma retryLoop_success_inv (k : nat) :
  forall w last w',
    retryLoop period k fn last w = Some (None, w') ->
    (k = 0%nat /\ last = None) \/
    exists wi, In (wi, None) (history period fn k w) /\ fn wi = Some (None, w').
Proof.
  induction k as [|k IH]; intros w last w' H.
  - left. cbn in H. destruct last; [discriminate|]. auto.
  - right. rewrite retryLoop_step in H. rewrite history_step.
    destruct (fn w) as [[[e|] w1]|] eqn:Hfn; [| |discriminate].
    + destruct (IH _ _ _ H) as [[_ Hl]|[wi [Hin Hwi]]]; [discriminate|].
      exists wi. split; [right; exact Hin|exact Hwi].
    + injection H as <-. exists w. split; [left; reflexivity|exact Hfn].
Qed.

(** A failed loop made all its attempts, every one failed, and its
    error is the one of the last attempt. *)
Lemma retryLoop_failure_inv (k : nat) :
  forall w last err w',
    retryLoop period k fn last w = Some (Some err, w') ->
    exists es,
      outcomes period fn k w = map Some es /\
      length es = k /\
      Some err = option_map (fun e => Wrap e []) (List.last (map Some es) last).
Proof.
  induction k as [|k IH]; intros w last err w' H.
  - exists []. cbn in H. injection H as H _. cbn. auto.
  - rewrite retryLoop_step in H. unfold outcomes. rewrite history_step.
    destruct (fn w) as [[[e|] w1]|] eqn:Hfn; try discriminate.
    destruct (IH _ _ _ _ H) as (es & Hout & Hlen & Hlast).
    exists (e :: es). cbn [map snd length]. fold (outcomes period fn k (pause period w1)).
    rewrite Hout. repeat split; [congruence|].
    rewrite Hlast. cbn [map]. rewrite last_cons_default. reflexivity.
Qed.

(** The loop pauses once after every failed attempt and never otherwise;
    a loop that succeeds has made fewer failed attempts than its budget. *)
Lemma retryLoop_pauses (k : nat) :
  (forall w r w', fn w = Some (r, w') -> slept w' = slept w) ->
  forall w last r w',
    retryLoop period k fn last w = Some (r, w') ->
    exists failed,
      (failed <= k)%nat /\
      (r = None -> k = 0%nat \/ (failed < k)%nat) /\
      slept w' = slept w ++ repeat period failed.
Proof.
  intros Hquiet. induction k as [|k IH]; intros w last r w' H.
  - exists 0%nat. cbn in H. injection H as _ <-. cbn. rewrite app_nil_r. auto.
  - rewrite retryLoop_step in H.
    destruct (fn w) as [[[e|] w1]|] eqn:Hfn; try discriminate.
    + destruct (IH _ _ _ _ H) as (failed & Hle & Hlt & Hs).
      exists (S failed). split; [lia|]. split.
      * intros Hr. right. destruct (Hlt Hr) as [->|Hlt'].
        -- cbn in H. subst r. discriminate.
        -- lia.
      * rewrite Hs. cbn [pause slept repeat]. rewrite (Hquiet _ _ _ Hfn).
        rewrite <- app_assoc. reflexivity.
    + injection H as _ <-. exists 0%nat. split; [lia|]. split; [intros _; right; lia|].
      cbn. rewrite app_nil_r. eapply Hquiet; eauto.
Qed.

(** The run of the loop, attempt by attempt: the attempts it made before
    the last one failed (with [es]), it paused once after each failed
    attempt, and it ended either on the first attempt that succeeded, in
    the world that attempt left, or, with all [k] attempts failed, in the
    world after the pause that follows the last of them. *)
Lemma retryLoop_trace (k : nat) :
  (forall w r w', fn w = Some (r, w') -> slept w' = slept w) ->
  forall w last r w',
    retryLoop period k fn last w = Some (r, w') ->
    exists es,
      (length es <= k)%nat /\
      firstn (length es) (outcomes period fn k w) = map Some es /\
      slept w' = slept w ++ repeat period (length es) /\
      match r with
      | None =>
          (k = 0%nat /\ last = None /\ w' = w) \/
          ((length es < k)%nat /\
           exists v,
             nth_error (history period fn k w) (length es) = Some (v, None) /\
             fn v = Some (None, w'))
      | Some err =>
          length es = k /\
          Some err = option_map (fun e => Wrap e []) (List.last (map Some es) last) /\
          ((k = 0%nat /\ w' = w) \/
           exists v e v',
             nth_error (history period fn k w) (k - 1) = Some (v, Some e) /\
             fn v = Some (Some e, v') /\
             w' = pause period v')
      end.
Proof.
  intros Hquiet. induction k as [|k IH]; intros w last r w' H.
  - cbn in H. injection H as <- <-. exists []. cbn. rewrite app_nil_r.
    split; [lia|]. split; [reflexivity|]. split; [reflexivity|].
    destruct last as [e|]; cbn; auto.
  - rewrite retryLoop_step in H.
    destruct (fn w) as [[[e|] w1]|] eqn:Hfn; [| |discriminate].
    + destruct (IH _ _ _ _ H) as (es & Hle & Hfirst & Hslept & Hend).
      exists (e :: es). split; [cbn [length]; lia|]. split; [|split].
      * unfold outcomes. rewrite history_step, Hfn. cbn [length map snd firstn].
        f_equal. exact Hfirst.
      * rewrite Hslept. cbn [pause slept length repeat].
        rewrite (Hquiet _ _ _ Hfn), <- app_assoc. reflexivity.
      * destruct r as [err|].
        -- destruct Hend as (Hlen & Hlast & Hworld).
           split; [cbn [length]; lia|]. split.
           ++ rewrite Hlast. cbn [map]. rewrite last_cons_default. reflexivity.
           ++ right. destruct Hworld as [[-> ->]|(v & e' & v' & Hnth & Hv & ->)].
              ** exists w, e, w1. cbn. rewrite Hfn. auto.
              ** exists v, e', v'. split; [|auto].
                 destruct k as [|k']; [discriminate Hnth|].
                 rewrite history_step, Hfn.
                 replace (S (S k') - 1)%nat with (S (S k' - 1)) by lia.
                 exact Hnth.
        -- right. destruct Hend as [(_ & Hl & _)|(Hlt & v & Hnth & Hv)];
             [discriminate|].
           split; [cbn [length]; lia|]. exists v. split; [|exact Hv].
           rewrite history_step, Hfn. exact Hnth.
    + injection H as <- <-. exists []. cbn [length firstn map repeat].
      rewrite app_nil_r. split; [lia|]. split; [reflexivity|].
      split; [eapply Hquiet; exact Hfn|]. right. split; [lia|].
      exists w. rewrite history_step, Hfn. auto.
Qed.

(** A function that never panics makes the loop return. *)
Lemma retryLoop_returns (k : nat) :
  (forall w, exists r w', fn w = Some (r, w')) ->
  forall w last, exists r w', retryLoop period k fn last w = Some (r, w').
Proof.
  intros Htotal. induction k as [|k IH]; intros w last.
  - do 2 eexists. reflexivity.
  - rewrite retryLoop_step. destruct (Htotal w) as (r & w1 & Hfn). rewrite Hfn.
    destruct r as [e|]; eauto.
Qed.

Lemma lastObserved_snoc (es : list Error) (e : Error) :
  lastObserved (es ++ [e]) = Some (Wrap e []).
Proof.
  unfold lastObserved. rewrite map_app. cbn [map]. rewrite last_last. reflexivity.
Qed.


(** C3. A function that fails exactly [N - 1] times and then succeeds: with
    a budget of [N] attempts [Retry] returns success, and so it does, ending
    in the same world, with any larger budget (the success cuts the
    remaining attempts short); with a budget of [N - 1] attempts it returns
    the last error the function answered (wrapped), which for [N >= 2] is
    the error of attempt [N - 1]. *)
Theorem retry_budget (N : nat) (w : World Ext) (es : list Error) :
  N = S (length es) ->
  outcomes period fn N w = map Some es ++ [None] ->
  (exists w',
     Retry period (Z.of_nat N) fn w = Some (None, w') /\
     forall budget, (N <= budget)%nat ->
       Retry period (Z.of_nat budget) fn w = Some (None, w')) /\
  (exists w',
     Retry period (Z.of_nat N - 1) fn w = Some (lastObserved es, w')) /\
  (forall es' e, es = es' ++ [e] -> lastObserved es = Some (Wrap e [])).
Proof.
  intros -> Hout. split; [|split].
  - destruct (retryLoop_succeeds es w None Hout) as [w' Hw'].
    exists w'. unfold Retry. split.
    + rewrite Nat2Z.id. apply Hw'. apply Nat.le_refl.
    + intros budget Hb. rewrite Nat2Z.id. apply Hw'. exact Hb.
  - unfold Retry.
    replace (Z.to_nat (Z.of_nat (S (length es)) - 1)) with (length es) by lia.
    apply retryLoop_exhausted; [|reflexivity].
    rewrite outcomes_firstn, Hout.
    rewrite <- (length_map Some es) at 1.
    rewrite firstn_app, Nat.sub_diag, firstn_all. cbn [firstn].
    apply app_nil_r.
  - intros es' e ->. apply lastObserved_snoc.
Qed.

End Facts.

(** Three attempts reach the success after two pauses; two attempts end
    with the error of the second. *)
Example flaky_three_attempts :
  Retry 5 3 Scenarios.flaky Scenarios.freshWorld =
  Some (None, mkWorld 3%nat [5%Z; 5%Z] [] [] []).
Proof. reflexivity. Qed.

Example flaky_two_attempts :
  Retry 5 2 Scenarios.flaky Scenarios.freshWorld =
  Some (Some (Wrap Scenarios.stillNotReady []), mkWorld 2%nat [5%Z; 5%Z] [] [] []).
Proof. reflexivity. Qed.

(** The flaky function under budgets of three and of two attempts. *)
Lemma retry_budget_witness :
  (exists w',
     Retry 5 (Z.of_nat 3) Scenarios.flaky Scenarios.freshWorld = Some (None, w') /\
     forall budget, (3 <= budget)%nat ->
       Retry 5 (Z.of_nat budget) Scenarios.flaky Scenarios.freshWorld = Some (None, w')) /\
  (exists w',
     Retry 5 (Z.of_nat 3 - 1) Scenarios.flaky Scenarios.freshWorld =
     Some (lastObserved [Scenarios.notReady; Scenarios.stillNotReady], w')) /\
  (forall es' e,
     [Scenarios.notReady; Scenarios.stillNotReady] = es' ++ [e] ->
     lastObserved [Scenarios.notReady; Scenarios.stillNotReady] = Some (Wrap e [])).
Proof.
  apply (retry_budget 5 Scenarios.flaky 3 Scenarios.freshWorld
           [Scenarios.notReady; Scenarios.stillNotReady]).
  - reflexivity.
  - reflexivity.
Defined.

End RetryPolicy.

(** ** The phase executors *)

Module PhaseContract.

Import Phases.

Section Facts.
Context {Ext : Type}.
Variable env : Env Ext.

Lemma CheckMasterServer_refuses (servers : list Server) (s : Server) :
  find (target env) servers = Some s ->
  IsMasterServer s = false ->
  CheckMasterServer env servers =
  Some (BadParameter "this phase must be executed on a master node").
Proof.
  intros Hfind Hrole. unfold CheckMasterServer. rewrite Hfind, Hrole. reflexivity.
Qed.

(** Whatever an executor's other methods are, a [PreCheck] that answers
    [err] without touching the world makes the engine stop there. *)
Lemma refusedBy_intro {T : Type} (X : PhaseExecutor T) (ex : T) (ctx : Context)
  (w : World Ext) (err : Error) :
  (forall v, PreCheck ex ctx v = Some (Some err, v)) ->
  refusedBy ex ctx w err.
Proof.
  intros Hpre. split; [apply Hpre|].
  unfold runPhase, bind, enter. rewrite Hpre. reflexivity.
Qed.

(** C1. A master-only phase (app, wait, nodes, rbac, resources) run against
    a server of the plan that is not a master: [PreCheck] returns the
    bad-parameter error of [CheckMasterServer], a precondition failure, and
    changes nothing (in particular it neither pauses nor retries); the
    engine's cycle over the phase ends with that error after calling
    [PreCheck] only, so [Execute] is not invoked. *)
Theorem master_only_precheck (servers : list Server) (s : Server)
  (ctx : Context) (w : World Ext) :
  find (target env) servers = Some s ->
  IsMasterServer s = false ->
  exists err,
    IsBadParameter err = true /\
    (forall p : appExecutor, Servers (Plan (appParams p)) = servers ->
       refusedBy (X := appPhase env) p ctx w err) /\
    (forall p : waitExecutor, Servers (Plan (waitParams p)) = servers ->
       refusedBy (X := waitPhase env) p ctx w err) /\
    (forall p : nodesExecutor, Servers (Plan (nodesParams p)) = servers ->
       refusedBy (X := nodesPhase env) p ctx w err) /\
    (forall p : rbacExecutor, Servers (Plan (rbacParams p)) = servers ->
       refusedBy (X := rbacPhase env) p ctx w err) /\
    (forall p : resourcesExecutor, Servers (Plan (resourcesParams p)) = servers ->
       refusedBy (X := resourcesPhase env) p ctx w err).
Proof.
  intros Hfind Hrole.
  pose proof (CheckMasterServer_refuses servers s Hfind Hrole) as Hcheck.
  exists (Wrap (BadParameter "this phase must be executed on a master node") []).
  split; [reflexivity|].
  split; [|split; [|split; [|split]]];
    intros p Hp; apply refusedBy_intro; intros v; cbn [PreCheck].
  - unfold appPhase, appPreCheck. cbn [PreCheck]. rewrite Hp, Hcheck. reflexivity.
  - unfold waitPhase, waitPreCheck. cbn [PreCheck]. rewrite Hp, Hcheck. reflexivity.
  - unfold nodesPhase, nodesPreCheck. cbn [PreCheck]. rewrite Hp, Hcheck. reflexivity.
  - unfold rbacPhase, rbacPreCheck. cbn [PreCheck]. rewrite Hp, Hcheck. reflexivity.
  - unfold resourcesPhase, resourcesPreCheck. cbn [PreCheck]. rewrite Hp, Hcheck.
    reflexivity.
Qed.

(** C2. A phase without data, or whose data carries no service user: [NewApp]
    returns no executor and the bad-parameter error "service user is
    required", so there is no executor whose [Execute] could run. *)
Theorem NewApp_requires_service_user (p : ExecutorParams)
  (operator : Operator Ext) (apps : Applications Ext) :
  (phaseData (Phase p) = None \/
   exists data, phaseData (Phase p) = Some data /\ dataServiceUser data = None) ->
  NewApp env p operator apps = (None, Some (BadParameter "service user is required")) /\
  IsBadParameter (BadParameter "service user is required") = true.
Proof.
  intros [Hdata | (data & Hdata & Huser)]; unfold NewApp; rewrite Hdata.
  - split; reflexivity.
  - rewrite Huser. split; reflexivity.
Qed.

(** C8. [Rollback] of the app, rbac and resources executors returns nil and
    leaves the world as it was: the collaborators' state (the cluster), the
    pauses, the progress steps, the log and the engine's record are all
    unchanged; the plan is a value inside the executor, which [Rollback]
    does not return. *)
Theorem rollback_is_noop (ctx : Context) (w : World Ext) :
  (forall p : appExecutor, Rollback (PhaseExecutor := appPhase env) p ctx w = Some (None, w)) /\
  (forall p : rbacExecutor, Rollback (PhaseExecutor := rbacPhase env) p ctx w = Some (None, w)) /\
  (forall p : resourcesExecutor,
     Rollback (PhaseExecutor := resourcesPhase env) p ctx w = Some (None, w)).
Proof. repeat split. Qed.

(** *** The app phase and its hooks *)

Section Hooks.
Variable p : @appExecutor Ext.
Variable ctx : Context.
Variable data : OperationPhaseData.
Variable locator : Locator.
Hypothesis Hdata : phaseData (Phase (appParams p)) = Some data.
Hypothesis Hpackage : dataPackage data = Some locator.

Lemma forwardLogs_returns (output : string) (w : World Ext) :
  exists w', forwardLogs env p output w = Some (tt, w') /\ steps w' = steps w.
Proof.
  unfold forwardLogs, bind, call.
  destruct (StreamOperationLogs _ _ _ _) as [[e|] x].
  - destruct (IsStreamClosedError env e); eexists; split; reflexivity.
  - eexists; split; reflexivity.
Qed.

(** One round of the loop of [runHooks]. *)
Lemma runHooks_round (hook : HookType) (rest : list HookType) (w : World Ext) :
  runHooks env p ctx (hook :: rest) w =
  let req := hookRequest p locator hook in
  match CheckHasAppHook (LocalApps p) req (ext w) with
  | (Err err, x) =>
      if IsNotFound err then
        runHooks env p ctx rest
          (mkWorld x (slept w) (steps w)
             (journal w ++ [missingHookLine locator hook]) (invoked w))
      else
        Some (Some (Wrap err []),
              mkWorld x (slept w) (steps w) (journal w) (invoked w))
  | (Ok job, x) =>
      (NextStep ("Executing " ++ hookName hook ++ " hook for "
                   ++ Name locator ++ ":" ++ Version locator) ;;;
       logAt InfoLevel
         ("Executing " ++ hookName hook ++ " hook for "
            ++ Name locator ++ ":" ++ Version locator ++ ".") ;;;
       ran <- call (StreamAppHook (LocalApps p) ctx req) ;;
       forwardLogs env p (snd ran) ;;;
       match fst ran with
       | Err err =>
           ret (Some (Wrap err [(showLocator locator ++ " "
                                   ++ hookName hook ++ " hook failed")%string]))
       | Ok _ => runHooks env p ctx rest
       end)
        (mkWorld x (slept w) (steps w) (journal w) (invoked w))
  end.
Proof.
  cbn [runHooks]. rewrite Hdata, Hpackage. cbv zeta.
  unfold bind at 1. unfold call at 1.
  destruct (CheckHasAppHook _ _ _) as [[job|err] x]; [reflexivity|].
  destruct (IsNotFound err); reflexivity.
Qed.

(** When every hook of the list is missing, the loop returns nil having
    announced no step, with one debug line per hook. *)
Lemma runHooks_all_missing (hooks : list HookType) :
  (forall hook x, In hook hooks ->
     exists e x',
       CheckHasAppHook (LocalApps p) (hookRequest p locator hook) x = (Err e, x') /\
       IsNotFound e = true) ->
  forall w, exists w',
    runHooks env p ctx hooks w = Some (None, w') /\
    steps w' = steps w /\
    journal w' = journal w ++ map (missingHookLine locator) hooks.
Proof.
  induction hooks as [|hook rest IH]; intros Hmissing w.
  - exists w. cbn. rewrite app_nil_r. auto.
  - rewrite runHooks_round. cbv zeta.
    destruct (Hmissing hook (ext w) (or_introl eq_refl)) as (e & x' & Hcheck & Hnf).
    rewrite Hcheck, Hnf.
    destruct (IH (fun h x Hin => Hmissing h x (or_intror Hin))
                (mkWorld x' (slept w) (steps w)
                   (journal w ++ [missingHookLine locator hook]) (invoked w)))
      as (w' & Hrun & Hsteps & Hjournal).
    exists w'. split; [exact Hrun|]. split; [exact Hsteps|].
    rewrite Hjournal. cbn [journal map]. rewrite <- app_assoc. reflexivity.
Qed.

(** An error of the loop has one of two causes, at one of its hooks. *)
Lemma runHooks_error (hooks : list HookType) :
  forall w err w',
    runHooks env p ctx hooks w = Some (Some err, w') ->
    exists hook v, In hook hooks /\ hookFailure p ctx locator hook v err.
Proof.
  induction hooks as [|hook rest IH]; intros w err w' Hrun.
  - discriminate.
  - rewrite runHooks_round in Hrun. cbv zeta in Hrun.
    destruct (CheckHasAppHook _ _ (ext w)) as [[job|e] x] eqn:Hcheck.
    + unfold bind, NextStep, logAt, call in Hrun. cbn [ext] in Hrun.
      destruct (StreamAppHook _ _ _ x) as [[ran output] x'] eqn:Hstream.
      cbn [fst snd] in Hrun.
      match type of Hrun with
      | context [forwardLogs env p output ?v] =>
          destruct (forwardLogs_returns output v) as (v' & Hfwd & _)
      end.
      rewrite Hfwd in Hrun.
      destruct ran as [ok|e].
      * destruct (IH _ _ _ Hrun) as (h & v & Hin & Hcause).
        exists h, v. split; [right; exact Hin|exact Hcause].
      * injection Hrun as <- _. exists hook, w. split; [left; reflexivity|].
        right. exists job, x, e, output, x'. auto.
    + destruct (IsNotFound e) eqn:Hnf.
      * destruct (IH _ _ _ Hrun) as (h & v & Hin & Hcause).
        exists h, v. split; [right; exact Hin|exact Hcause].
      * injection Hrun as <- _. exists hook, w. split; [left; reflexivity|].
        left. exists e, x. auto.
Qed.

(** C10. An application that has neither the install nor the post-install
    hook (the check answers not-found for both): [Execute] of the app phase
    skips both, announcing no step, and returns nil. And whenever [Execute]
    returns an error, it is because at one of the two hooks the check failed
    with an error other than not-found, or the hook exists and running it
    failed; a missing hook is never the cause. *)
Theorem missing_hooks_are_skipped (w : World Ext) :
  ((forall hook x,
      In hook [HookInstall; HookInstalled] ->
      exists e x',
        CheckHasAppHook (LocalApps p) (hookRequest p locator hook) x = (Err e, x') /\
        IsNotFound e = true) ->
   exists w',
     appExecute env p ctx w = Some (None, w') /\
     steps w' = steps w /\
     journal w' = journal w ++ [missingHookLine locator HookInstall;
                                missingHookLine locator HookInstalled]) /\
  (forall err w',
     appExecute env p ctx w = Some (Some err, w') ->
     exists hook v cause,
       In hook [HookInstall; HookInstalled] /\
       hookFailure p ctx locator hook v cause /\
       err = Wrap cause []).
Proof.
  split.
  - intros Hmissing.
    destruct (runHooks_all_missing [HookInstall; HookInstalled] Hmissing w)
      as (w' & Hrun & Hsteps & Hjournal).
    exists w'. unfold appExecute, bind. rewrite Hrun. auto.
  - intros err w' Hexec. unfold appExecute, bind in Hexec.
    destruct (runHooks env p ctx _ w) as [[[cause|] v']|] eqn:Hrun; try discriminate.
    injection Hexec as <- _.
    destruct (runHooks_error _ _ _ _ Hrun) as (hook & v & Hin & Hcause).
    exists hook, v, cause. auto.
Qed.

End Hooks.

(** *** The wait phase *)

Section Wait.
Variable p : @waitExecutor.
Variable ctx : Context.

(** One attempt: a single call to the planet agent, judged by its answer. *)
Lemma waitAttempt_call (v : World Ext) :
  waitAttempt env p ctx v =
  let (got, x) := FromPlanetAgent env ctx (ext v) in
  Some (match got with
        | Err err => Some (Wrap err [])
        | Ok status =>
            if negb (length (Nodes status)
                     =? length (Servers (Plan (waitParams p))))%nat then
              Some (BadParameter ("not all planets have come up yet: "
                                    ++ showStatus env status))
            else if negb (isRunning (SystemStatus status)) then
              Some (BadParameter ("planet is not running yet: "
                                    ++ showStatus env status))
            else None
        end,
        mkWorld x (slept v) (steps v) (journal v) (invoked v)).
Proof.
  unfold waitAttempt, bind, call.
  destruct (FromPlanetAgent env ctx (ext v)) as [[status|err] x]; [|reflexivity].
  destruct (negb _); [reflexivity|].
  destruct (negb _); reflexivity.
Qed.

Lemma waitAttempt_returns (v : World Ext) :
  exists r v', waitAttempt env p ctx v = Some (r, v').
Proof.
  rewrite waitAttempt_call. destruct (FromPlanetAgent env ctx (ext v)). eauto.
Qed.

Lemma waitAttempt_quiet (v : World Ext) (r : option Error) (v' : World Ext) :
  waitAttempt env p ctx v = Some (r, v') -> slept v' = slept v.
Proof.
  rewrite waitAttempt_call. destruct (FromPlanetAgent env ctx (ext v)).
  intros H. injection H as _ <-. reflexivity.
Qed.

Lemma isRunning_true (s : SystemStatusType) :
  isRunning s = true <-> s = SystemStatus_Running.
Proof. destruct s; cbn; split; congruence. Qed.

(** An attempt succeeds only on a healthy status. *)
Lemma waitAttempt_success_inv (v v' : World Ext) :
  waitAttempt env p ctx v = Some (None, v') ->
  exists status x,
    FromPlanetAgent env ctx (ext v) = (Ok status, x) /\ healthy p status.
Proof.
  rewrite waitAttempt_call.
  destruct (FromPlanetAgent env ctx (ext v)) as [[status|err] x]; [|discriminate].
  destruct (Nat.eqb_spec (length (Nodes status))
              (length (Servers (Plan (waitParams p))))) as [Hcount|]; [|discriminate].
  destruct (isRunning (SystemStatus status)) eqn:Hrun; [|discriminate].
  intros _. exists status, x. split; [reflexivity|].
  split; [apply isRunning_true; exact Hrun|exact Hcount].
Qed.

(** An attempt that sees another node count or a status that is not
    Running fails with a bad-parameter error. *)
Lemma waitAttempt_unhealthy (v : World Ext) (status : PlanetStatus) (x : Ext) :
  FromPlanetAgent env ctx (ext v) = (Ok status, x) ->
  (length (Nodes status) <> length (Servers (Plan (waitParams p))) \/
   SystemStatus status <> SystemStatus_Running) ->
  exists e v',
    waitAttempt env p ctx v = Some (Some e, v') /\ IsBadParameter e = true.
Proof.
  intros Hcall Hbad. rewrite waitAttempt_call, Hcall.
  destruct (Nat.eqb_spec (length (Nodes status))
              (length (Servers (Plan (waitParams p))))) as [Hcount|Hcount];
    cbn [negb].
  - destruct Hbad as [Hbad|Hbad]; [contradiction|].
    destruct (isRunning (SystemStatus status)) eqn:Hrun.
    + apply isRunning_true in Hrun. contradiction.
    + do 2 eexists. split; reflexivity.
  - do 2 eexists. split; reflexivity.
Qed.

Lemma waitExecute_retry (w : World Ext) :
  waitExecute env p ctx w =
  match Utils.retryLoop (RetryInterval env) (Z.to_nat (RetryAttempts env))
          (waitAttempt env p ctx) None (waitStart w) with
  | None => None
  | Some (Some e, v) => Some (Some (Wrap e []), v)
  | Some (None, v) =>
      Some (None,
            mkWorld (ext v) (slept v) (steps v)
              (journal v ++ [(InfoLevel, "Planet is running.")]) (invoked v))
  end.
Proof.
  unfold waitExecute, Utils.Retry, bind, NextStep, logAt. cbn [ext slept steps journal invoked].
  fold (waitStart w).
  destruct (Utils.retryLoop _ _ _ _ _) as [[[e|] v]|]; reflexivity.
Qed.

(** C4. With a positive attempt budget, [Execute] of the wait phase always
    returns, after at most [RetryAttempts] attempts, having paused
    [RetryInterval] once per failed attempt and not otherwise. The attempts
    it makes are the first ones of [seen], a pause apart, and [es] are the
    errors of those that failed. It returns nil only if the attempt that
    follows them got from the planet agent a status that is Running and
    lists as many nodes as the plan has servers, and it then ends in the
    world that attempt left, with the closing line logged; an attempt that
    sees another node count or another system status fails; and when it
    returns an error, every attempt of the budget has failed, the error is
    the one of the last attempt, wrapped, and it ends in the world after the
    pause that follows that attempt. *)
Theorem wait_execute_converges (w : World Ext) :
  (0 < RetryAttempts env)%Z ->
  let budget := Z.to_nat (RetryAttempts env) in
  let seen := Utils.history (RetryInterval env) (waitAttempt env p ctx) budget
                (waitStart w) in
  (forall v status x,
     FromPlanetAgent env ctx (ext v) = (Ok status, x) ->
     (length (Nodes status) <> length (Servers (Plan (waitParams p))) \/
      SystemStatus status <> SystemStatus_Running) ->
     exists e v',
       waitAttempt env p ctx v = Some (Some e, v') /\ IsBadParameter e = true) /\
  exists r w' es,
    waitExecute env p ctx w = Some (r, w') /\
    (length es <= budget)%nat /\
    firstn (length es) (map snd seen) = map Some es /\
    slept w' = slept w ++ repeat (RetryInterval env) (length es) /\
    match r with
    | None =>
        (length es < budget)%nat /\
        exists v v' status x,
          nth_error seen (length es) = Some (v, None) /\
          waitAttempt env p ctx v = Some (None, v') /\
          FromPlanetAgent env ctx (ext v) = (Ok status, x) /\
          healthy p status /\
          w' = mkWorld (ext v') (slept v') (steps v')
                 (journal v' ++ [(InfoLevel, "Planet is running.")]) (invoked v')
    | Some err =>
        length es = budget /\
        map snd seen = map Some es /\
        exists es' e v v',
          es = es' ++ [e] /\
          nth_error seen (budget - 1) = Some (v, Some e) /\
          waitAttempt env p ctx v = Some (Some e, v') /\
          w' = Utils.pause (RetryInterval env) v' /\
          err = Wrap (Wrap e []) []
    end.
Proof.
  intros Hbudget budget seen. split; [exact waitAttempt_unhealthy|].
  assert (Hpos : (0 < budget)%nat) by (unfold budget; lia).
  destruct (RetryPolicy.retryLoop_returns (RetryInterval env) (waitAttempt env p ctx)
              budget waitAttempt_returns (waitStart w) None) as (r0 & v0 & Hloop).
  destruct (RetryPolicy.retryLoop_trace (RetryInterval env) (waitAttempt env p ctx)
              budget waitAttempt_quiet _ _ _ _ Hloop)
    as (es & Hle & Hfirst & Hslept & Hend).
  unfold Utils.outcomes in Hfirst. fold seen in Hfirst, Hend.
  rewrite waitExecute_retry. fold budget. rewrite Hloop.
  destruct r0 as [e0|].
  - destruct Hend as (Hlen & Hlast & Hworld).
    exists (Some (Wrap e0 [])), v0, es. split; [reflexivity|].
    split; [exact Hle|]. split; [exact Hfirst|]. split; [exact Hslept|].
    split; [exact Hlen|].
    assert (Hall : map snd seen = map Some es).
    { rewrite <- Hfirst. symmetry. apply firstn_all2. rewrite length_map, Hlen.
      apply RetryPolicy.history_length. }
    split; [exact Hall|].
    destruct (exists_last (l := es)) as (es' & e & ->).
    { intros ->. cbn in Hlen. lia. }
    rewrite map_app in Hlast. cbn [map] in Hlast. rewrite last_last in Hlast.
    cbn in Hlast. injection Hlast as ->.
    destruct Hworld as [[Hzero _]|(v & e' & v' & Hnth & Hv & ->)]; [lia|].
    assert (e' = e) as ->.
    { apply (map_nth_error snd) in Hnth. rewrite Hall in Hnth. cbn [snd] in Hnth.
      rewrite length_app in Hlen. cbn [length] in Hlen.
      replace (budget - 1)%nat with (length (map Some es')) in Hnth
        by (rewrite length_map; lia).
      rewrite map_app, nth_error_app2, Nat.sub_diag in Hnth by apply Nat.le_refl.
      cbn in Hnth. congruence. }
    exists es', e, v, v'. auto.
  - destruct Hend as [[Hzero _]|(Hlt & v & Hnth & Hv)]; [lia|].
    eexists None, _, es. split; [reflexivity|].
    split; [exact Hle|]. split; [exact Hfirst|]. split; [exact Hslept|].
    split; [exact Hlt|].
    destruct (waitAttempt_success_inv _ _ Hv) as (status & x & Hcall & Hok).
    exists v, v0, status, x. auto.
Qed.

End Wait.

End Facts.

(** The wait phase on the two-node cluster: two failed attempts, two
    pauses, success on the third. *)
Example wait_two_node_cluster :
  waitExecute Scenarios.env0 Scenarios.wait0 Scenarios.background Scenarios.freshWorld =
  Some (None,
        mkWorld 3%nat [5%Z; 5%Z] ["Waiting for the planet to start"]
          [(InfoLevel, "Waiting for the planet to start.");
           (InfoLevel, "Planet is running.")] []).
Proof. reflexivity. Qed.

(** The engine's cycle over the wait phase run against node-2. *)
Example wait_refused_on_node2 :
  runPhase (X := waitPhase Scenarios.env0) Scenarios.wait0 Scenarios.background
    Scenarios.freshWorld =
  Some (Some (Wrap (BadParameter "this phase must be executed on a master node") []),
        mkWorld 0%nat [] [] [] [MPreCheck]).
Proof. reflexivity. Qed.

(** The plan of two servers, run against node-2, which is not a master. *)
Lemma master_only_precheck_witness :
  exists err,
    IsBadParameter err = true /\
    (forall p : appExecutor,
       Servers (Plan (appParams p)) = [Scenarios.node1; Scenarios.node2] ->
       refusedBy (X := appPhase Scenarios.env0) p Scenarios.background
         Scenarios.freshWorld err) /\
    (forall p : waitExecutor,
       Servers (Plan (waitParams p)) = [Scenarios.node1; Scenarios.node2] ->
       refusedBy (X := waitPhase Scenarios.env0) p Scenarios.background
         Scenarios.freshWorld err) /\
    (forall p : nodesExecutor,
       Servers (Plan (nodesParams p)) = [Scenarios.node1; Scenarios.node2] ->
       refusedBy (X := nodesPhase Scenarios.env0) p Scenarios.background
         Scenarios.freshWorld err) /\
    (forall p : rbacExecutor,
       Servers (Plan (rbacParams p)) = [Scenarios.node1; Scenarios.node2] ->
       refusedBy (X := rbacPhase Scenarios.env0) p Scenarios.background
         Scenarios.freshWorld err) /\
    (forall p : resourcesExecutor,
       Servers (Plan (resourcesParams p)) = [Scenarios.node1; Scenarios.node2] ->
       refusedBy (X := resourcesPhase Scenarios.env0) p Scenarios.background
         Scenarios.freshWorld err).
Proof.
  apply (master_only_precheck Scenarios.env0
           [Scenarios.node1; Scenarios.node2] Scenarios.node2).
  - reflexivity.
  - reflexivity.
Defined.

(** A phase that carries no data at all. *)
Lemma NewApp_requires_service_user_witness :
  NewApp Scenarios.env0 Scenarios.bareParams Scenarios.operator0 Scenarios.noHooks =
  (None, Some (BadParameter "service user is required")) /\
  IsBadParameter (BadParameter "service user is required") = true.
Proof.
  apply (NewApp_requires_service_user Scenarios.env0 Scenarios.bareParams).
  left. reflexivity.
Defined.

(** The application without hooks, installed by the app phase: both hooks
    are skipped and [Execute] returns nil. *)
Lemma missing_hooks_are_skipped_witness :
  (exists w',
     appExecute Scenarios.env0 Scenarios.app0 Scenarios.background
       Scenarios.freshWorld = Some (None, w') /\
     steps w' = steps Scenarios.freshWorld /\
     journal w' = journal Scenarios.freshWorld
                    ++ [missingHookLine Scenarios.dnsApp HookInstall;
                        missingHookLine Scenarios.dnsApp HookInstalled]) /\
  (forall err w',
     appExecute Scenarios.env0 Scenarios.app0 Scenarios.background
       Scenarios.freshWorld = Some (Some err, w') ->
     exists hook v cause,
       In hook [HookInstall; HookInstalled] /\
       hookFailure Scenarios.app0 Scenarios.background Scenarios.dnsApp hook v cause /\
       err = Wrap cause []).
Proof.
  destruct (missing_hooks_are_skipped Scenarios.env0 Scenarios.app0
              Scenarios.background Scenarios.appData Scenarios.dnsApp
              eq_refl eq_refl Scenarios.freshWorld) as [Hskip Herr].
  split; [|exact Herr].
  apply Hskip. intros hook x _. do 2 eexists. split; reflexivity.
Defined.

(** The wait phase on the two-node cluster with a budget of three attempts:
    the third attempt sees both nodes and a running cluster. *)
Lemma wait_execute_converges_witness :
  let env := Scenarios.env0 in
  let p := Scenarios.wait0 in
  let ctx := Scenarios.background in
  let w := Scenarios.freshWorld in
  let seen := Utils.history 5 (waitAttempt env p ctx) 3 (waitStart w) in
  (forall v status x,
     FromPlanetAgent env ctx (ext v) = (Ok status, x) ->
     (length (Nodes status) <> length (Servers (Plan (waitParams p))) \/
      SystemStatus status <> SystemStatus_Running) ->
     exists e v',
       waitAttempt env p ctx v = Some (Some e, v') /\ IsBadParameter e = true) /\
  exists r w' es,
    waitExecute env p ctx w = Some (r, w') /\
    (length es <= 3)%nat /\
    firstn (length es) (map snd seen) = map Some es /\
    slept w' = slept w ++ repeat 5%Z (length es) /\
    match r with
    | None =>
        (length es < 3)%nat /\
        exists v v' status x,
          nth_error seen (length es) = Some (v, None) /\
          waitAttempt env p ctx v = Some (None, v') /\
          FromPlanetAgent env ctx (ext v) = (Ok status, x) /\
          healthy p status /\
          w' = mkWorld (ext v') (slept v') (steps v')
                 (journal v' ++ [(InfoLevel, "Planet is running.")]) (invoked v')
    | Some err =>
        length es = 3%nat /\
        map snd seen = map Some es /\
        exists es' e v v',
          es = es' ++ [e] /\
          nth_error seen (3 - 1) = Some (v, Some e) /\
          waitAttempt env p ctx v = Some (Some e, v') /\
          w' = Utils.pause 5 v' /\
          err = Wrap (Wrap e []) []
    end.
Proof.
  apply (wait_execute_converges Scenarios.env0 Scenarios.wait0 Scenarios.background
           Scenarios.freshWorld).
  reflexivity.
Defined.

End PhaseContract.

(** ** The storage checker *)

Module StorageChecks.

Import Monitoring.

Lemma append_assoc (a b c : string) : ((a ++ b) ++ c = a ++ (b ++ c))%string.
Proof. induction a as [|ch a IH]; cbn; [reflexivity|now rewrite IH]. Qed.

Lemma append_empty_r (a : string) : (a ++ "" = a)%string.
Proof. induction a as [|ch a IH]; cbn; [reflexivity|now rewrite IH]. Qed.

Lemma Contains_here (before s after : string) :
  Contains (before ++ s ++ after) s.
Proof. exists before, after. reflexivity. Qed.

Lemma Contains_after (before t s : string) :
  Contains t s -> Contains (before ++ t) s.
Proof.
  intros (b & a & ->). exists (before ++ b)%string, a.
  now rewrite append_assoc.
Qed.

Lemma Contains_start (s after : string) : Contains (s ++ after) s.
Proof. exists "", after. reflexivity. Qed.

Lemma Contains_end (before s : string) : Contains (before ++ s) s.
Proof. exists before, "". now rewrite append_empty_r. Qed.

Lemma StringInSlice_In (haystack : list string) (needle : string) :
  Utils.StringInSlice haystack needle = true <-> In needle haystack.
Proof.
  induction haystack as [|h rest IH]; cbn.
  - split; [discriminate|contradiction].
  - destruct (String.eqb_spec h needle) as [->|Hne].
    + split; auto.
    + rewrite IH. split; [auto|]. intros [Heq|Hin]; [contradiction|exact Hin].
Qed.

Section Facts.
Variable host : Host.

(** C6. When the capacity available on the path is strictly below
    [MinFreeBytes], [checkCapacity] returns nil and adds one probe, which is
    Failed and whose detail contains the available and the required amount
    as [humanize.Bytes] prints them. *)
Theorem capacity_below_floor (c : storageChecker) (reporter : Reporter)
  (avail : Z) :
  diskCapacity (os c) (path c) = Ok avail ->
  (avail < MinFreeBytes (config c))%Z ->
  exists probe,
    checkCapacity host c reporter = (None, reporter ++ [probe]) /\
    Checker probe = checkerName c /\
    Status probe = Probe_Failed /\
    Contains (Detail probe) (humanizeBytes host avail) /\
    Contains (Detail probe) (humanizeBytes host (MinFreeBytes (config c))).
Proof.
  intros Hcap Hlow. unfold checkCapacity. rewrite Hcap.
  apply Z.ltb_lt in Hlow. rewrite Hlow.
  eexists. split; [reflexivity|]. cbn [Checker Status Detail].
  repeat split.
  - apply Contains_start.
  - do 3 apply Contains_after. apply Contains_here.
Qed.

(** What [checkFsType] makes of the mount [fsFromPath] answers. With a
    non-empty allow-list and a mount answered, it returns nil and adds one
    probe: Failed, with a detail that names that mount point and its
    filesystem type, when the type is not in the allow-list; Running when
    it is. *)
Theorem fs_type_probe (c : storageChecker) (reporter : Reporter)
  (mnt : FileSystem) :
  Filesystems (config c) <> [] ->
  fsFromPath host (path c) (os c) = Ok mnt ->
  exists probe,
    checkFsType host c reporter = (None, reporter ++ [probe]) /\
    Checker probe = checkerName c /\
    (~ In (SysTypeName mnt) (Filesystems (config c)) ->
     Status probe = Probe_Failed /\
     Contains (Detail probe) (DirName mnt) /\
     Contains (Detail probe) (SysTypeName mnt)) /\
    (In (SysTypeName mnt) (Filesystems (config c)) ->
     Status probe = Probe_Running).
Proof.
  intros Hlist Hmnt. unfold checkFsType. rewrite Hmnt.
  destruct (Filesystems (config c)) as [|fs rest] eqn:Hfs; [contradiction|].
  destruct (Utils.StringInSlice (fs :: rest) (SysTypeName mnt)) eqn:Hin.
  - eexists. split; [reflexivity|]. split; [reflexivity|]. split.
    + intros Hnot. apply StringInSlice_In in Hin. contradiction.
    + reflexivity.
  - eexists. split; [reflexivity|]. split; [reflexivity|]. split.
    + intros _. cbn [Status Detail]. split; [reflexivity|]. split.
      * do 5 apply Contains_after. apply Contains_start.
      * do 6 apply Contains_after. apply Contains_end.
    + intros Hyes. apply StringInSlice_In in Hyes. congruence.
Qed.

(** What each check adds to the reporter. *)
Lemma checkFsType_adds (c : storageChecker) (reporter : Reporter) :
  exists e added,
    checkFsType host c reporter = (e, reporter ++ added) /\
    match Filesystems (config c) with
    | [] => e = None /\ added = []
    | _ :: _ =>
        match fsFromPath host (path c) (os c) with
        | Err _ => e <> None /\ added = []
        | Ok mnt =>
            e = None /\
            exists probe,
              added = [probe] /\
              Status probe =
              if Utils.StringInSlice (Filesystems (config c)) (SysTypeName mnt)
              then Probe_Running else Probe_Failed
        end
    end.
Proof.
  unfold checkFsType. destruct (Filesystems (config c)) as [|fs rest].
  - exists None, []. rewrite app_nil_r. auto.
  - destruct (fsFromPath host (path c) (os c)) as [mnt|err].
    + destruct (Utils.StringInSlice (fs :: rest) (SysTypeName mnt));
        do 2 eexists; (split; [reflexivity|]); split; eauto.
    + exists (Some (Wrap err [])), []. rewrite app_nil_r.
      split; [reflexivity|]. split; [discriminate|reflexivity].
Qed.

Lemma checkCapacity_adds (c : storageChecker) (reporter : Reporter) :
  exists e added,
    checkCapacity host c reporter = (e, reporter ++ added) /\
    match diskCapacity (os c) (path c) with
    | Err _ => e <> None /\ added = []
    | Ok avail =>
        e = None /\
        if (avail <? MinFreeBytes (config c))%Z
        then exists probe, added = [probe] /\ Status probe = Probe_Failed
        else added = []
    end.
Proof.
  unfold checkCapacity. destruct (diskCapacity (os c) (path c)) as [avail|err].
  - destruct (avail <? MinFreeBytes (config c))%Z.
    + do 2 eexists. split; [reflexivity|]. split; eauto.
    + exists None, []. rewrite app_nil_r. auto.
  - exists (Some (Wrap err [])), []. rewrite app_nil_r.
    split; [reflexivity|]. split; [discriminate|reflexivity].
Qed.

Lemma checkWriteSpeed_adds (c : storageChecker) (reporter : Reporter) :
  exists e added,
    checkWriteSpeed host c reporter = (e, reporter ++ added) /\
    if (MinBytesPerSecond (config c) =? 0)%Z then e = None /\ added = []
    else
      match diskSpeed (os c) (path c) "probe" with
      | Err _ => e <> None /\ added = []
      | Ok bps =>
          e = None /\
          if (MinBytesPerSecond (config c) <=? bps)%Z then added = []
          else exists probe, added = [probe] /\ Status probe = Probe_Failed
      end.
Proof.
  unfold checkWriteSpeed. destruct (MinBytesPerSecond (config c) =? 0)%Z.
  - exists None, []. rewrite app_nil_r. auto.
  - destruct (diskSpeed (os c) (path c) "probe") as [bps|err].
    + destruct (MinBytesPerSecond (config c) <=? bps)%Z.
      * exists None, []. rewrite app_nil_r. auto.
      * do 2 eexists. split; [reflexivity|]. split; eauto.
    + exists (Some (Wrap err [])), []. rewrite app_nil_r.
      split; [reflexivity|]. split; [discriminate|reflexivity].
Qed.

Lemma evalPath_existing (c : storageChecker) :
  Stat host (Path (config c)) = IsDir ->
  evalPath host c = Some (None, mkStorageChecker (config c) (Path (config c)) (os c)).
Proof. intros Hdir. unfold evalPath. cbn [evalPathLoop]. rewrite Hdir. reflexivity. Qed.

Lemma NewAggregate_nil (e1 e2 e3 : option Error) :
  NewAggregate [e1; e2; e3] = None <-> e1 = None /\ e2 = None /\ e3 = None.
Proof.
  unfold NewAggregate. destruct e1, e2, e3; cbn; split;
    try discriminate; try (intros (? & ? & ?); discriminate); auto.
Qed.

(** The error a check returns does not depend on the reporter. *)
Lemma check_errors_fixed (c : storageChecker) (r1 r2 : Reporter) :
  fst (checkFsType host c r1) = fst (checkFsType host c r2) /\
  fst (checkCapacity host c r1) = fst (checkCapacity host c r2) /\
  fst (checkWriteSpeed host c r1) = fst (checkWriteSpeed host c r2).
Proof.
  unfold checkFsType, checkCapacity, checkWriteSpeed. repeat split.
  - destruct (Filesystems (config c)); [reflexivity|].
    destruct (fsFromPath host (path c) (os c)) as [mnt|]; [|reflexivity].
    destruct (Utils.StringInSlice _ _); reflexivity.
  - destruct (diskCapacity (os c) (path c)) as [avail|]; [|reflexivity].
    destruct (avail <? _)%Z; reflexivity.
  - destruct (MinBytesPerSecond (config c) =? 0)%Z; [reflexivity|].
    destruct (diskSpeed (os c) (path c) "probe") as [bps|]; [|reflexivity].
    destruct (_ <=? bps)%Z; reflexivity.
Qed.

(** C5, as the code has it. On an existing directory [Check] returns, and
    what it adds to the reporter is, in this order: from the filesystem
    check one probe (Running or Failed) when an allow-list is configured and
    the mount is found, else none; from the capacity check one Failed probe
    when the available capacity is below [MinFreeBytes], else none; from the
    write-speed check one Failed probe when a minimum is configured and the
    measured speed is below it, else none; and one closing probe, which is
    the checker's Running probe when none of the three checks returned an
    error. *)
Theorem probes_per_dimension (c : storageChecker) (reporter : Reporter) :
  Stat host (Path (config c)) = IsDir ->
  let c' := mkStorageChecker (config c) (Path (config c)) (os c) in
  exists fs capacity speed closing,
    Check host c reporter = Some (reporter ++ fs ++ capacity ++ speed ++ [closing]) /\
    match Filesystems (config c) with
    | [] => fs = []
    | _ :: _ =>
        match fsFromPath host (path c') (os c) with
        | Err _ => fs = []
        | Ok mnt =>
            exists probe,
              fs = [probe] /\
              Status probe =
              if Utils.StringInSlice (Filesystems (config c)) (SysTypeName mnt)
              then Probe_Running else Probe_Failed
        end
    end /\
    match diskCapacity (os c) (path c') with
    | Err _ => capacity = []
    | Ok avail =>
        if (avail <? MinFreeBytes (config c))%Z
        then exists probe, capacity = [probe] /\ Status probe = Probe_Failed
        else capacity = []
    end /\
    (if (MinBytesPerSecond (config c) =? 0)%Z then speed = []
     else
       match diskSpeed (os c) (path c') "probe" with
       | Err _ => speed = []
       | Ok bps =>
           if (MinBytesPerSecond (config c) <=? bps)%Z then speed = []
           else exists probe, speed = [probe] /\ Status probe = Probe_Failed
       end) /\
    (fst (checkFsType host c' reporter) = None ->
     fst (checkCapacity host c' reporter) = None ->
     fst (checkWriteSpeed host c' reporter) = None ->
     closing = mkProbe (checkerName c) "" Probe_Running "").
Proof.
  intros Hdir c'.
  destruct (checkFsType_adds c' reporter) as (e1 & fs & H1 & S1).
  destruct (checkCapacity_adds c' (reporter ++ fs)) as (e2 & capacity & H2 & S2).
  destruct (checkWriteSpeed_adds c' ((reporter ++ fs) ++ capacity))
    as (e3 & speed & H3 & S3).
  destruct (check_errors_fixed c' reporter (reporter ++ fs)) as (_ & E2 & _).
  destruct (check_errors_fixed c' reporter ((reporter ++ fs) ++ capacity))
    as (_ & _ & E3).
  rewrite H1. rewrite E2, H2. rewrite E3, H3. cbn [fst].
  assert (Hcheck : check host c reporter =
                   Some (NewAggregate [e1; e2; e3],
                         ((reporter ++ fs) ++ capacity) ++ speed)).
  { unfold check. rewrite (evalPath_existing c Hdir). fold c'.
    rewrite H1, H2, H3. reflexivity. }
  assert (Hshape : forall closing,
             ((reporter ++ fs) ++ capacity) ++ speed ++ [closing]
             = reporter ++ fs ++ capacity ++ speed ++ [closing]).
  { intros closing. now rewrite <- !app_assoc. }
  exists fs, capacity, speed.
  exists (match NewAggregate [e1; e2; e3] with
          | Some err =>
              NewProbeFromErr host (checkerName c)
                "failed to validate storage requirements" (Wrap err [])
          | None => mkProbe (checkerName c) "" Probe_Running ""
          end).
  split; [|split; [|split; [|split]]].
  - unfold Check. rewrite Hcheck.
    destruct (NewAggregate [e1; e2; e3]); unfold Add;
      rewrite <- Hshape, <- !app_assoc; reflexivity.
  - cbn [config path os c'] in S1. destruct (Filesystems (config c)); [tauto|].
    destruct (fsFromPath host _ (os c)); tauto.
  - cbn [config path os c'] in S2. destruct (diskCapacity (os c) _); tauto.
  - cbn [config path os c'] in S3.
    destruct (MinBytesPerSecond (config c) =? 0)%Z; [tauto|].
    destruct (diskSpeed (os c) _ "probe"); tauto.
  - intros -> -> ->. reflexivity.
Qed.

End Facts.

(** A machine that meets every requirement: the run adds the Running probe
    of the filesystem check and the closing Running probe, and nothing for
    capacity or write speed. *)
Example modest_run :
  Check Scenarios.host0 Scenarios.modest [] =
  Some [mkProbe "io-check(/var/lib/gravity)" "" Probe_Running "";
        mkProbe "io-check(/var/lib/gravity)" "" Probe_Running ""].
Proof. reflexivity. Qed.

(** C5 as stated fails: on that machine the capacity check, which passes,
    adds no probe (and neither does the write-speed check). *)
Lemma one_probe_per_dimension_fails :
  ~ oneProbePerDimension Scenarios.host0 Scenarios.modest [].
Proof.
  intros Hclaim.
  destruct (Hclaim _ eq_refl) as (_ & Hcapacity & _).
  vm_compute in Hcapacity. discriminate.
Qed.

Lemma probes_per_dimension_witness :
  let c := Scenarios.modest in
  let c' := mkStorageChecker (config c) (Path (config c)) (os c) in
  exists fs capacity speed closing,
    Check Scenarios.host0 c [] = Some ([] ++ fs ++ capacity ++ speed ++ [closing]) /\
    match Filesystems (config c) with
    | [] => fs = []
    | _ :: _ =>
        match fsFromPath Scenarios.host0 (path c') (os c) with
        | Err _ => fs = []
        | Ok mnt =>
            exists probe,
              fs = [probe] /\
              Status probe =
              if Utils.StringInSlice (Filesystems (config c)) (SysTypeName mnt)
              then Probe_Running else Probe_Failed
        end
    end /\
    match diskCapacity (os c) (path c') with
    | Err _ => capacity = []
    | Ok avail =>
        if (avail <? MinFreeBytes (config c))%Z
        then exists probe, capacity = [probe] /\ Status probe = Probe_Failed
        else capacity = []
    end /\
    (if (MinBytesPerSecond (config c) =? 0)%Z then speed = []
     else
       match diskSpeed (os c) (path c') "probe" with
       | Err _ => speed = []
       | Ok bps =>
           if (MinBytesPerSecond (config c) <=? bps)%Z then speed = []
           else exists probe, speed = [probe] /\ Status probe = Probe_Failed
       end) /\
    (fst (checkFsType Scenarios.host0 c' []) = None ->
     fst (checkCapacity Scenarios.host0 c' []) = None ->
     fst (checkWriteSpeed Scenarios.host0 c' []) = None ->
     closing = mkProbe (checkerName c) "" Probe_Running "").
Proof.
  apply (probes_per_dimension Scenarios.host0 Scenarios.modest []).
  reflexivity.
Defined.

(** 50 GiB free against a floor of 100 GiB. *)
Example demanding_capacity :
  checkCapacity Scenarios.host0 Scenarios.demanding [] =
  (None,
   [mkProbe "io-check(/var/lib/gravity)"
      "54 GB available space left on /var/lib/gravity, minimum of 107 GB required"
      Probe_Failed ""]).
Proof. reflexivity. Qed.

Lemma capacity_below_floor_witness :
  exists probe,
    checkCapacity Scenarios.host0 Scenarios.demanding [] = (None, [] ++ [probe]) /\
    Checker probe = checkerName Scenarios.demanding /\
    Status probe = Probe_Failed /\
    Contains (Detail probe) (humanizeBytes Scenarios.host0 (50 * Scenarios.GiB)) /\
    Contains (Detail probe)
      (humanizeBytes Scenarios.host0 (MinFreeBytes (config Scenarios.demanding))).
Proof.
  apply (capacity_below_floor Scenarios.host0 Scenarios.demanding []
           (50 * Scenarios.GiB)).
  - reflexivity.
  - reflexivity.
Defined.

(** An allow-list of ext4 and a path on the xfs root. *)
Example demanding_fs_type :
  checkFsType Scenarios.host0 Scenarios.demanding [] =
  (None,
   [mkProbe "io-check(/var/lib/gravity)"
      "path /var/lib/gravity requires filesystem [ext4], belongs to / mount point of type xfs"
      Probe_Failed ""]).
Proof. reflexivity. Qed.

(** [sort.Sort] on the mounts of the layered machine: /var stays ahead of
    its child /var/lib, since the insertion stops at /boot, which is no
    prefix of /var/lib. *)
Example layered_mounts_sorted :
  sortChildPathFirst Scenarios.host0
    [mkFileSystem "/" "xfs"; mkFileSystem "/var" "ext4";
     mkFileSystem "/boot" "ext4"; mkFileSystem "/var/lib" "xfs"]
  = [mkFileSystem "/var" "ext4"; mkFileSystem "/boot" "ext4";
     mkFileSystem "/var/lib" "xfs"; mkFileSystem "/" "xfs"].
Proof. reflexivity. Qed.

(** C7, on the layered machine. The directory /var/lib/gravity lies on the
    mount /var/lib, of type xfs: that mount is listed, holds the path, and
    no listed mount that holds the path is deeper. With the allow-list
    {ext4} the claim has [checkFsType] add a Failed probe that names
    /var/lib and xfs. The code takes the path to be on /var, of type ext4,
    and adds a Running probe. *)
Theorem fs_type_wrong_mount :
  let c := Scenarios.strict in
  let actual := mkFileSystem "/var/lib" "xfs" in
  mounts (os c) = Ok [mkFileSystem "/" "xfs"; mkFileSystem "/var" "ext4";
                      mkFileSystem "/boot" "ext4"; actual] /\
  String.prefix (DirName actual) (path c) = true /\
  (forall mnt listed,
     mounts (os c) = Ok listed -> In mnt listed ->
     String.prefix (DirName mnt) (path c) = true ->
     (String.length (DirName mnt) <= String.length (DirName actual))%nat) /\
  ~ In (SysTypeName actual) (Filesystems (config c)) /\
  fsFromPath Scenarios.host0 (path c) (os c) = Ok (mkFileSystem "/var" "ext4") /\
  checkFsType Scenarios.host0 c []
  = (None, [mkProbe "io-check(/var/lib/gravity)" "" Probe_Running ""]).
Proof.
  cbv zeta. split; [reflexivity|]. split; [reflexivity|]. split; [|split].
  - intros mnt listed Hlisted Hin _. injection Hlisted as <-.
    destruct Hin as [<-|[<-|[<-|[<-|[]]]]]; cbn; lia.
  - intros [H|[]]. discriminate H.
  - split; reflexivity.
Qed.

(** The same defect on names: /var/lib/gravity2 lies on the root
    filesystem, of type xfs, but its name starts with the mount point
    /var/lib/gravity, whose mount the code answers. *)
Example fs_type_sibling_directory :
  fsFromPath Scenarios.host0 (path Scenarios.neighbour) (os Scenarios.neighbour)
  = Ok (mkFileSystem "/var/lib/gravity" "ext4") /\
  checkFsType Scenarios.host0 Scenarios.neighbour []
  = (None, [mkProbe "io-check(/var/lib/gravity2)" "" Probe_Running ""]).
Proof. split; reflexivity. Qed.

Lemma fs_type_probe_witness :
  exists probe,
    checkFsType Scenarios.host0 Scenarios.demanding [] = (None, [] ++ [probe]) /\
    Checker probe = checkerName Scenarios.demanding /\
    (~ In "xfs" (Filesystems (config Scenarios.demanding)) ->
     Status probe = Probe_Failed /\
     Contains (Detail probe) "/" /\
     Contains (Detail probe) "xfs") /\
    (In "xfs" (Filesystems (config Scenarios.demanding)) ->
     Status probe = Probe_Running).
Proof.
  apply (fs_type_probe Scenarios.host0 Scenarios.demanding []
           (mkFileSystem "/" "xfs")).
  - discriminate.
  - reflexivity.
Defined.

End StorageChecks.

(** ** The installer's log hook *)

Module LogHook.

Import Install.

Lemma levelEqb_refl (l : Level) : levelEqb l l = true.
Proof. destruct l; reflexivity. Qed.

(** The hook is registered for every level. *)
Lemma addHook_every_level (hooks : Level -> list Hook) (h : Hook) (l : Level) :
  addHook hooks h l = hooks l ++ [h].
Proof. destruct l; reflexivity. Qed.

(** After [InitLogging] on the standard logger, an entry of any level goes
    to the log file, when it can be written, and the console is left as it
    was: [Fire] writes to the file only and the logger's own output is
    discarded. *)
Lemma emit_after_InitLogging (logFile : string) (m : Machine) (entry : Entry) :
  readOnly m logFile = false ->
  formatError m entry = None ->
  writeFault m logFile (entryString entry) = None ->
  exists lg m0,
    InitLogging logFile StandardLogger m = (None, lg, m0) /\
    readFile (files (emit lg entry m0)) logFile = Some (entryString entry) /\
    console (emit lg entry m0) = console m.
Proof.
  intros Hrw Hformat Hwrite. unfold InitLogging, NewLogHook. rewrite Hrw.
  do 2 eexists. split; [reflexivity|].
  unfold emit. cbn [LoggerLevel Out Hooks].
  replace (levelNumber (entryLevel entry) <=? levelNumber DebugLevel)%nat with true
    by (destruct (entryLevel entry); reflexivity).
  rewrite addHook_every_level. cbn [StandardLogger Hooks app fireHooks].
  unfold Fire. cbn [readOnly hookPath files console formatError writeFault].
  rewrite Hformat, Hrw, Hwrite.
  cbn [files console readFile writeFile fst]. rewrite String.eqb_refl.
  split; reflexivity.
Qed.

(** C9, at a warning. [InitLogging] succeeds, the warning is appended to
    the log file, and the console receives nothing, although the hook
    is documented to copy entries of warning level and above to stderr. *)
Theorem warning_not_on_console :
  exists lg m,
    InitLogging Scenarios.installLog StandardLogger Scenarios.machine0 = (None, lg, m) /\
    readFile (files (emit lg Scenarios.diskWarning m)) Scenarios.installLog
    = Some (entryString Scenarios.diskWarning) /\
    console (emit lg Scenarios.diskWarning m) = "".
Proof. do 2 eexists. repeat split. Qed.

End LogHook.

(** ** Helpers on slices of strings *)

Module SliceFacts.

Import Slices.

Lemma StringInSlice_iff (haystack : list string) (needle : string) :
  Utils.StringInSlice haystack needle = true <-> In needle haystack.
Proof.
  induction haystack as [|h rest IH]; cbn.
  - split; [discriminate|contradiction].
  - destruct (String.eqb_spec h needle) as [->|Hne].
    + split; auto.
    + rewrite IH. split; [auto|]. intros [Heq|Hin]; [contradiction|exact Hin].
Qed.

(** X1. [StringsInSlice] answers true exactly when every needle occurs in the
    haystack; in particular it is true for no needles at all. *)
Theorem StringsInSlice_all_found (haystack needles : list string) :
  StringsInSlice haystack needles = true <->
  (forall needle, In needle needles -> In needle haystack).
Proof.
  induction needles as [|needle rest IH]; cbn [StringsInSlice].
  - split; [intros _ n []|reflexivity].
  - destruct (Utils.StringInSlice haystack needle) eqn:Hfound.
    + apply StringInSlice_iff in Hfound. rewrite IH. split.
      * intros Hrest n [<-|Hin]; auto.
      * intros Hall n Hin. apply Hall. right. exact Hin.
    + split; [discriminate|]. intros Hall.
      assert (Hin : In needle haystack) by (apply Hall; left; reflexivity).
      apply StringInSlice_iff in Hin. congruence.
Qed.

(** *** The order of strings *)

Lemma ascii_compare_refl (a : ascii) : Ascii.compare a a = Eq.
Proof. unfold Ascii.compare. apply N.compare_refl. Qed.

Lemma ascii_compare_trans (a b c : ascii) (r : comparison) :
  Ascii.compare a b = r -> Ascii.compare b c = r -> Ascii.compare a c = r.
Proof.
  unfold Ascii.compare. destruct r; intros Hab Hbc.
  - apply N.compare_eq_iff in Hab, Hbc. apply N.compare_eq_iff. congruence.
  - apply N.compare_lt_iff in Hab, Hbc. apply N.compare_lt_iff.
    eapply N.lt_trans; eassumption.
  - apply N.compare_gt_iff in Hab, Hbc. apply N.compare_gt_iff.
    eapply N.lt_trans; eassumption.
Qed.

Lemma string_leb_trans (s1 : string) :
  forall s2 s3,
    String.leb s1 s2 = true -> String.leb s2 s3 = true -> String.leb s1 s3 = true.
Proof.
  unfold String.leb.
  induction s1 as [|a s1 IH]; intros [|b s2] [|c s3]; cbn; try congruence.
  destruct (Ascii.compare a b) eqn:Hab; try discriminate;
    destruct (Ascii.compare b c) eqn:Hbc; try discriminate; intros H12 H23.
  - rewrite (ascii_compare_trans _ _ _ _ Hab Hbc). apply (IH s2 s3); assumption.
  - apply Ascii.compare_eq_iff in Hab. subst b. rewrite Hbc. reflexivity.
  - apply Ascii.compare_eq_iff in Hbc. subst c. rewrite Hab. reflexivity.
  - rewrite (ascii_compare_trans _ _ _ _ Hab Hbc). reflexivity.
Qed.

Lemma string_leb_refl (s : string) : String.leb s s = true.
Proof. destruct (String.leb_total s s); assumption. Qed.

Lemma insertSorted_perm (x : string) (l : list string) :
  Permutation (insertSorted x l) (x :: l).
Proof.
  induction l as [|y rest IH]; cbn; [reflexivity|].
  destruct (String.leb x y); [reflexivity|].
  rewrite IH. apply perm_swap.
Qed.

Lemma sortStrings_perm (l : list string) : Permutation (sortStrings l) l.
Proof.
  induction l as [|x rest IH]; cbn; [reflexivity|].
  rewrite insertSorted_perm. now rewrite IH.
Qed.

Lemma insertSorted_increasing (x : string) (l : list string) :
  increasing l -> increasing (insertSorted x l).
Proof.
  unfold increasing. induction l as [|y rest IH]; intros Hl; cbn.
  - constructor; constructor.
  - inversion Hl as [|? ? Hrest Hy]; subst.
    destruct (String.leb x y) eqn:Hxy.
    + constructor; [exact Hl|]. constructor; [exact Hxy|].
      eapply Forall_impl; [|exact Hy]. intros z Hz.
      eapply string_leb_trans; eassumption.
    + constructor; [apply IH; exact Hrest|].
      eapply Permutation_Forall; [symmetry; apply insertSorted_perm|].
      constructor; [|exact Hy].
      destruct (String.leb_total x y); congruence.
Qed.

Lemma sortStrings_increasing (l : list string) : increasing (sortStrings l).
Proof.
  induction l as [|x rest IH]; cbn.
  - constructor.
  - apply insertSorted_increasing. exact IH.
Qed.

(** Two increasing arrangements of the same strings are the same list. *)
Lemma sorted_arrangement_unique (l1 : list string) :
  forall l2, increasing l1 -> increasing l2 -> Permutation l1 l2 -> l1 = l2.
Proof.
  unfold increasing. induction l1 as [|a l1 IH]; intros l2 H1 H2 Hperm.
  - apply Permutation_nil in Hperm. congruence.
  - destruct l2 as [|b l2].
    + symmetry in Hperm. apply Permutation_nil in Hperm. discriminate.
    + inversion H1 as [|? ? H1' Ha]; inversion H2 as [|? ? H2' Hb]; subst.
      assert (a = b) as ->.
      { assert (Hab : String.leb a b = true).
        { assert (Hin : In b (a :: l1))
            by (eapply Permutation_in; [symmetry; exact Hperm|left; reflexivity]).
          destruct Hin as [->|Hin]; [apply string_leb_refl|].
          rewrite Forall_forall in Ha. apply Ha. exact Hin. }
        assert (Hba : String.leb b a = true).
        { assert (Hin : In a (b :: l2))
            by (eapply Permutation_in; [exact Hperm|left; reflexivity]).
          destruct Hin as [->|Hin]; [apply string_leb_refl|].
          rewrite Forall_forall in Hb. apply Hb. exact Hin. }
        apply String.leb_antisym; assumption. }
      f_equal. apply IH; [assumption|assumption|].
      eapply Permutation_cons_inv. exact Hperm.
Qed.

Lemma stringsEqual_iff (a : list string) :
  forall b, stringsEqual a b = true <-> a = b.
Proof.
  induction a as [|x a IH]; intros [|y b]; cbn; try (split; congruence).
  rewrite andb_true_iff, String.eqb_eq, IH. split.
  - intros [-> ->]. reflexivity.
  - intros H. injection H as -> ->. auto.
Qed.

Lemma sortStrings_equal_iff (la lb : list string) :
  stringsEqual (sortStrings la) (sortStrings lb) = true <-> Permutation la lb.
Proof.
  rewrite stringsEqual_iff. split.
  - intros Heq. rewrite <- (sortStrings_perm la), Heq. apply sortStrings_perm.
  - intros Hperm. apply sorted_arrangement_unique; try apply sortStrings_increasing.
    rewrite !sortStrings_perm. exact Hperm.
Qed.

(** *** Windows on the memory *)

Lemma within_iff (v : View) (i : nat) :
  within v i = true <-> (start v <= i < start v + size v)%nat.
Proof.
  unfold within. rewrite andb_true_iff, Nat.leb_le, Nat.ltb_lt. reflexivity.
Qed.

Lemma apart_cells (va vb : View) (i : nat) :
  apart va vb = true -> within va i = true -> within vb i = false.
Proof.
  unfold apart. rewrite !orb_true_iff, !Nat.eqb_eq, !Nat.leb_le.
  intros Hapart Ha. apply within_iff in Ha.
  destruct (within vb i) eqn:Hb; [|reflexivity].
  apply within_iff in Hb. lia.
Qed.

Lemma apart_sym (va vb : View) : apart va vb = apart vb va.
Proof.
  unfold apart.
  destruct (size va =? 0)%nat, (size vb =? 0)%nat,
    (start va + size va <=? start vb)%nat, (start vb + size vb <=? start va)%nat;
    reflexivity.
Qed.

Lemma length_read (mem : Memory) (v : View) : length (read mem v) = size v.
Proof. unfold read. now rewrite length_map, length_seq. Qed.

Lemma map_nth_seq (l : list string) :
  forall s, map (fun i => nth (i - s) l "") (seq s (length l)) = l.
Proof.
  induction l as [|x l IH]; intros s; [reflexivity|].
  cbn [length seq map]. rewrite Nat.sub_diag. cbn [nth]. f_equal.
  rewrite <- (IH (S s)) at 2. apply map_ext_in. intros i Hi.
  apply in_seq in Hi. replace (i - s)%nat with (S (i - S s)) by lia. reflexivity.
Qed.

Lemma read_write_same (mem : Memory) (v : View) (l : list string) :
  length l = size v -> read (write mem v l) v = l.
Proof.
  intros Hlen. unfold read, write. rewrite <- Hlen.
  rewrite <- (map_nth_seq l (start v)) at 2. apply map_ext_in. intros i Hi.
  apply in_seq in Hi.
  replace (within v i) with true; [reflexivity|].
  symmetry. apply within_iff. lia.
Qed.

Lemma read_write_apart (mem : Memory) (v v' : View) (l : list string) :
  apart v v' = true -> read (write mem v l) v' = read mem v'.
Proof.
  intros Hapart. unfold read, write. apply map_ext_in. intros i Hi.
  apply in_seq in Hi.
  destruct (within v i) eqn:Hv; [|reflexivity].
  assert (Hv' : within v' i = true) by (apply within_iff; lia).
  rewrite (apart_cells v v' i Hapart Hv) in Hv'. discriminate.
Qed.

Lemma length_sortStrings (l : list string) : length (sortStrings l) = length l.
Proof. apply Permutation_length, sortStrings_perm. Qed.

(** What the call leaves in two slices that share no cell and have the
    same length. *)
Lemma CompareStringSlices_apart (mem : Memory) (va vb : View) :
  apart va vb = true ->
  size va = size vb ->
  let after := snd (CompareStringSlices mem (Some va) (Some vb)) in
  read after va = sortStrings (read mem va) /\
  read after vb = sortStrings (read mem vb) /\
  fst (CompareStringSlices mem (Some va) (Some vb))
  = stringsEqual (sortStrings (read mem va)) (sortStrings (read mem vb)).
Proof.
  intros Hapart Hsize. unfold CompareStringSlices. cbn [len].
  rewrite Hsize, Nat.eqb_refl. cbn [negb sortInPlace elements option_map fst snd DeepEqual].
  assert (Hb : read (write mem va (sortStrings (read mem va))) vb = read mem vb)
    by (apply read_write_apart; exact Hapart).
  rewrite Hb.
  assert (Hb' : read (write (write mem va (sortStrings (read mem va))) vb
                        (sortStrings (read mem vb))) vb
                = sortStrings (read mem vb)).
  { apply read_write_same. rewrite length_sortStrings. apply length_read. }
  assert (Ha' : read (write (write mem va (sortStrings (read mem va))) vb
                        (sortStrings (read mem vb))) va
                = sortStrings (read mem va)).
  { rewrite read_write_apart by (rewrite apart_sym; exact Hapart).
    apply read_write_same. rewrite length_sortStrings. apply length_read. }
  rewrite Ha', Hb'. auto.
Qed.

(** X2. [CompareStringSlices] on two slices that share no cell answers
    true exactly when they hold the same strings the same number of times,
    in whatever order. Two nil slices compare equal, and a nil slice
    compares different from every non-nil one, the empty one included. *)
Theorem CompareStringSlices_same_elements (mem : Memory) (va vb : View) :
  apart va vb = true ->
  (fst (CompareStringSlices mem (Some va) (Some vb)) = true <->
   Permutation (read mem va) (read mem vb)) /\
  fst (CompareStringSlices mem None None) = true /\
  fst (CompareStringSlices mem None (Some va)) = false /\
  fst (CompareStringSlices mem (Some va) None) = false.
Proof.
  intros Hapart. split; [|split; [reflexivity|split]].
  - destruct (Nat.eq_dec (size va) (size vb)) as [Hsize|Hsize].
    + destruct (CompareStringSlices_apart mem va vb Hapart Hsize) as (_ & _ & ->).
      apply sortStrings_equal_iff.
    + unfold CompareStringSlices. cbn [len].
      apply Nat.eqb_neq in Hsize. rewrite Hsize. cbn [negb fst].
      split; [discriminate|]. intros Hperm. apply Permutation_length in Hperm.
      rewrite !length_read in Hperm. apply Nat.eqb_neq in Hsize. contradiction.
  - unfold CompareStringSlices. cbn [len].
    destruct (0 =? size va)%nat; reflexivity.
  - unfold CompareStringSlices. cbn [len].
    destruct (size va =? 0)%nat; reflexivity.
Qed.

(** X3. [CompareStringSlices] reorders its arguments. On two slices that
    share no cell: when the lengths agree, the call leaves both slices
    sorted in increasing order, each holding the strings it held before,
    and no cell outside the two slices is changed; when the lengths differ,
    it answers false and leaves the memory as it was. *)
Theorem CompareStringSlices_sorts_in_place (mem : Memory) (va vb : View) :
  apart va vb = true ->
  let after := snd (CompareStringSlices mem (Some va) (Some vb)) in
  (size va = size vb ->
   increasing (read after va) /\ Permutation (read after va) (read mem va) /\
   increasing (read after vb) /\ Permutation (read after vb) (read mem vb) /\
   forall i, within va i = false -> within vb i = false -> after i = mem i) /\
  (size va <> size vb ->
   CompareStringSlices mem (Some va) (Some vb) = (false, mem)).
Proof.
  intros Hapart after. split.
  - intros Hsize.
    destruct (CompareStringSlices_apart mem va vb Hapart Hsize) as (Ha & Hb & _).
    fold after in Ha, Hb. rewrite Ha, Hb.
    repeat split; auto using sortStrings_increasing, sortStrings_perm.
    intros i Hia Hib. subst after. unfold CompareStringSlices. cbn [len].
    rewrite Hsize, Nat.eqb_refl. cbn [negb sortInPlace snd]. unfold write.
    rewrite Hia, Hib. reflexivity.
  - intros Hsize. unfold CompareStringSlices. cbn [len].
    apply Nat.eqb_neq in Hsize. rewrite Hsize. reflexivity.
Qed.

(** Two slices cut from one array so that they share a cell: they hold the
    same strings, yet the call answers false, since sorting the second
    slice rearranges the first. *)
Example CompareStringSlices_overlapping :
  Permutation (read Cases.cells Cases.front) (read Cases.cells Cases.middle) /\
  CompareStringSlices Cases.cells (Some Cases.front) (Some Cases.middle)
  = (false, snd (CompareStringSlices Cases.cells (Some Cases.front) (Some Cases.middle))) /\
  read (snd (CompareStringSlices Cases.cells (Some Cases.front) (Some Cases.middle)))
    Cases.front = ["x"; "x"].
Proof.
  split; [apply perm_swap|]. split; reflexivity.
Qed.

Lemma CompareStringSlices_same_elements_witness :
  apart Cases.front Cases.back = true /\
  (fst (CompareStringSlices Cases.cells (Some Cases.front) (Some Cases.back)) = true <->
   Permutation (read Cases.cells Cases.front) (read Cases.cells Cases.back)) /\
  fst (CompareStringSlices Cases.cells None None) = true /\
  fst (CompareStringSlices Cases.cells None (Some Cases.front)) = false /\
  fst (CompareStringSlices Cases.cells (Some Cases.front) None) = false.
Proof.
  split; [reflexivity|].
  apply (CompareStringSlices_same_elements Cases.cells Cases.front Cases.back).
  reflexivity.
Defined.

Lemma CompareStringSlices_sorts_in_place_witness :
  let after := snd (CompareStringSlices Cases.cells (Some Cases.front) (Some Cases.back)) in
  apart Cases.front Cases.back = true /\
  (size Cases.front = size Cases.back ->
   increasing (read after Cases.front) /\
   Permutation (read after Cases.front) (read Cases.cells Cases.front) /\
   increasing (read after Cases.back) /\
   Permutation (read after Cases.back) (read Cases.cells Cases.back) /\
   forall i, within Cases.front i = false -> within Cases.back i = false ->
             after i = Cases.cells i) /\
  (size Cases.front <> size Cases.back ->
   CompareStringSlices Cases.cells (Some Cases.front) (Some Cases.back)
   = (false, Cases.cells)).
Proof.
  split; [reflexivity|].
  apply (CompareStringSlices_sorts_in_place Cases.cells Cases.front Cases.back).
  reflexivity.
Defined.

(** *** Splitting at commas *)

Lemma splitComma_cons (c : ascii) (rest : string) :
  splitComma (String c rest) =
  if Ascii.eqb c ","%char then "" :: splitComma rest
  else match splitComma rest with
       | field :: fields => String c field :: fields
       | [] => [String c ""]
       end.
Proof. reflexivity. Qed.

Lemma splitComma_length (s : string) :
  length (splitComma s) = S (countCommas s).
Proof.
  induction s as [|c rest IH]; [reflexivity|].
  rewrite splitComma_cons. cbn [countCommas].
  destruct (Ascii.eqb c ","%char); cbn [length].
  - rewrite IH. reflexivity.
  - destruct (splitComma rest); cbn [length] in *; [discriminate|]. exact IH.
Qed.

Lemma splitComma_fields_have_no_comma (s : string) :
  forall field, In field (splitComma s) -> countCommas field = 0%nat.
Proof.
  induction s as [|c rest IH]; intros field Hin.
  - destruct Hin as [<-|[]]. reflexivity.
  - rewrite splitComma_cons in Hin. destruct (Ascii.eqb c ","%char) eqn:Hc.
    + destruct Hin as [<-|Hin]; [reflexivity|auto].
    + destruct (splitComma rest) as [|f fs] eqn:Hsplit.
      * destruct Hin as [<-|[]]. cbn. rewrite Hc. reflexivity.
      * destruct Hin as [<-|Hin].
        -- cbn. rewrite Hc. apply IH. left. reflexivity.
        -- apply IH. right. exact Hin.
Qed.

(** Joining the fields with commas gives the string back. *)
Lemma splitComma_join (s : string) : String.concat "," (splitComma s) = s.
Proof.
  induction s as [|c rest IH]; [reflexivity|].
  rewrite splitComma_cons. destruct (Ascii.eqb_spec c ","%char) as [->|Hc].
  - pose proof (splitComma_length rest) as Hlen.
    destruct (splitComma rest) as [|f fs]; [discriminate|].
    cbn [String.concat] in *. cbn. f_equal. exact IH.
  - pose proof (splitComma_length rest) as Hlen.
    destruct (splitComma rest) as [|f fs]; [discriminate|].
    destruct fs as [|g fs]; cbn [String.concat] in *; cbn; f_equal; exact IH.
Qed.

(** X4. [FlattenStringSlice] yields, for every string of the slice, one entry
    per comma-separated field (so an empty string still yields one, empty,
    field): the result has as many entries as the slice has strings and
    commas together, and its entries are exactly the trimmed fields, none of
    which was cut at anything but a comma. Flattening distributes over
    concatenation of slices. *)
Theorem FlattenStringSlice_fields (TrimSpace : string -> string)
  (slice : list string) :
  length (FlattenStringSlice TrimSpace slice)
  = (length slice + list_sum (map countCommas slice))%nat /\
  (forall x,
     In x (FlattenStringSlice TrimSpace slice) <->
     exists s field,
       In s slice /\ In field (splitComma s) /\
       countCommas field = 0%nat /\ x = TrimSpace field) /\
  (forall other,
     FlattenStringSlice TrimSpace (slice ++ other)
     = FlattenStringSlice TrimSpace slice ++ FlattenStringSlice TrimSpace other).
Proof.
  split; [|split].
  - induction slice as [|s rest IH]; [reflexivity|].
    cbn [FlattenStringSlice length map].
    change (list_sum (countCommas s :: map countCommas rest))
      with (countCommas s + list_sum (map countCommas rest))%nat.
    rewrite length_app, length_map, splitComma_length, IH. lia.
  - intros x. induction slice as [|s rest IH]; cbn [FlattenStringSlice].
    + split; [intros []|intros (s & f & [] & _)].
    + rewrite in_app_iff, in_map_iff, IH. split.
      * intros [(field & <- & Hin)|(s' & field & Hs' & Hin & Hc & ->)].
        -- exists s, field. split; [left; reflexivity|].
           split; [exact Hin|]. split; [|reflexivity].
           eapply splitComma_fields_have_no_comma; exact Hin.
        -- exists s', field. split; [right; exact Hs'|auto].
      * intros (s' & field & [<-|Hs'] & Hin & Hc & ->).
        -- left. exists field. auto.
        -- right. exists s', field. auto.
  - intros other. induction slice as [|s rest IH]; [reflexivity|].
    cbn [FlattenStringSlice app]. rewrite IH. apply app_assoc.
Qed.

(** *** Prefixes *)

Lemma prefix_iff_append (p : string) :
  forall s, String.prefix p s = true <-> exists rest, s = (p ++ rest)%string.
Proof.
  induction p as [|a p IH]; intros s.
  - destruct s; cbn; split; eauto.
  - destruct s as [|b s]; cbn.
    + split; [discriminate|]. intros (rest & Hrest). discriminate.
    + destruct (ascii_dec a b) as [<-|Hne].
      * rewrite IH. split; intros (rest & Hrest); exists rest; congruence.
      * split; [discriminate|]. intros (rest & Hrest). congruence.
Qed.

(** X5. [HasOneOfPrefixes] answers true exactly when the string starts with
    one of the prefixes: never for an empty list of prefixes, always when
    the empty string is one of them. *)
Theorem HasOneOfPrefixes_some_prefix (s : string) (prefixes : list string) :
  (HasOneOfPrefixes s prefixes = true <->
   exists p rest, In p prefixes /\ s = (p ++ rest)%string) /\
  HasOneOfPrefixes s [] = false /\
  (In "" prefixes -> HasOneOfPrefixes s prefixes = true).
Proof.
  assert (Hiff : forall l,
             HasOneOfPrefixes s l = true <->
             exists p rest, In p l /\ s = (p ++ rest)%string).
  { induction l as [|p l IH]; cbn [HasOneOfPrefixes].
    - split; [discriminate|intros (p & rest & [] & _)].
    - destruct (String.prefix p s) eqn:Hp.
      + split; [|reflexivity]. intros _.
        apply prefix_iff_append in Hp. destruct Hp as (rest & Hrest).
        exists p, rest. split; [left; reflexivity|exact Hrest].
      + rewrite IH. split.
        * intros (q & rest & Hin & Hs). exists q, rest. split; [right|]; assumption.
        * intros (q & rest & [<-|Hin] & Hs).
          -- assert (String.prefix p s = true)
               by (apply prefix_iff_append; eauto).
             congruence.
          -- exists q, rest. auto. }
  split; [apply Hiff|]. split; [reflexivity|].
  intros Hin. apply Hiff. exists "", s. auto.
Qed.

(** *** Labels *)

(** X6. [MatchesLabels] answers true exactly when every wanted label has its
    value in the target, where a key the target lacks reads as the empty
    string: so nothing wanted matches every target, and a wanted label with
    an empty value is matched by a target without that key. *)
Theorem MatchesLabels_all_wanted (targetLabels wantedLabels : list (string * string)) :
  (MatchesLabels targetLabels wantedLabels = true <->
   forall k v, In (k, v) wantedLabels -> GoMap.GetString k targetLabels = v) /\
  MatchesLabels targetLabels [] = true /\
  (forall k v,
     GoMap.Get k targetLabels = None ->
     (MatchesLabels targetLabels [(k, v)] = true <-> v = "")).
Proof.
  split; [|split].
  - induction wantedLabels as [|[k v] rest IH]; cbn [MatchesLabels].
    + split; [intros _ k v []|reflexivity].
    + destruct (String.eqb_spec (GoMap.GetString k targetLabels) v) as [Heq|Hne];
        cbn [negb].
      * rewrite IH. split.
        -- intros Hrest k' v' [Hin|Hin]; [congruence|auto].
        -- intros Hall k' v' Hin. apply Hall. right. exact Hin.
      * split; [discriminate|]. intros Hall. exfalso. apply Hne.
        apply Hall. left. reflexivity.
  - reflexivity.
  - intros k v Hmissing. cbn [MatchesLabels]. unfold GoMap.GetString.
    rewrite Hmissing. destruct (String.eqb_spec "" v) as [<-|Hne]; cbn [negb].
    + split; reflexivity.
    + split; [discriminate|congruence].
Qed.

(** *** Path prefixes *)

Lemma substring_all (s : string) : substring 0 (String.length s) s = s.
Proof. induction s as [|c s IH]; cbn; [reflexivity|now rewrite IH]. Qed.

Lemma length_append (a b : string) :
  String.length (a ++ b) = (String.length a + String.length b)%nat.
Proof. induction a as [|c a IH]; cbn; [reflexivity|now rewrite IH]. Qed.

Lemma TrimPrefix_append (p rest : string) : TrimPrefix (p ++ rest) p = rest.
Proof.
  unfold TrimPrefix.
  replace (String.prefix p (p ++ rest)) with true
    by (symmetry; apply prefix_iff_append; eauto).
  rewrite length_append.
  replace (String.length p + String.length rest - String.length p)%nat
    with (String.length rest) by lia.
  induction p as [|c p IH]; cbn; [apply substring_all|exact IH].
Qed.

(** X7. [TrimPathPrefix] gives back the relative part of a path built from the
    prefix, a slash and that part; it returns any other path unchanged, in
    particular the prefix directory itself, which lacks the slash. *)
Theorem TrimPathPrefix_relative (Join : list string -> string)
  (prefixPath : list string) :
  (forall rest,
     TrimPathPrefix Join (Join prefixPath ++ "/" ++ rest) prefixPath = rest) /\
  (forall path,
     TrimPathPrefix Join path prefixPath = path \/
     path = (Join prefixPath ++ "/" ++ TrimPathPrefix Join path prefixPath)%string) /\
  TrimPathPrefix Join (Join prefixPath) prefixPath = Join prefixPath.
Proof.
  unfold TrimPathPrefix. split; [|split].
  - intros rest. rewrite <- StorageChecks.append_assoc. apply TrimPrefix_append.
  - intros path. destruct (String.prefix (Join prefixPath ++ "/") path) eqn:Hp.
    + right. apply prefix_iff_append in Hp. destruct Hp as (rest & ->).
      rewrite TrimPrefix_append. apply StorageChecks.append_assoc.
    + left. unfold TrimPrefix. rewrite Hp. reflexivity.
  - unfold TrimPrefix.
    destruct (String.prefix (Join prefixPath ++ "/") (Join prefixPath)) eqn:Hp;
      [|reflexivity].
    apply prefix_iff_append in Hp. destruct Hp as (rest & Hrest).
    apply (f_equal String.length) in Hrest. rewrite !length_append in Hrest.
    cbn in Hrest. lia.
Qed.

End SliceFacts.

(** ** Maps *)

Module GoMapFacts.

Import GoMap.

Lemma Get_Put_same {V : Type} (k : string) (v : V) (m : list (string * V)) :
  Get k (Put k v m) = Some v.
Proof. unfold Put. cbn. now rewrite String.eqb_refl. Qed.

Lemma Get_filter_other {V : Type} (k k' : string) (m : list (string * V)) :
  k <> k' ->
  Get k (filter (fun kv => negb (String.eqb (fst kv) k')) m) = Get k m.
Proof.
  intros Hne. induction m as [|[q v] m IH]; [reflexivity|].
  cbn [filter fst Get]. destruct (String.eqb_spec q k') as [->|Hq]; cbn [negb Get].
  - destruct (String.eqb_spec k' k); [congruence|exact IH].
  - rewrite IH. reflexivity.
Qed.

Lemma Get_Put_other {V : Type} (k k' : string) (v : V) (m : list (string * V)) :
  k <> k' -> Get k (Put k' v m) = Get k m.
Proof.
  intros Hne. unfold Put. cbn [Get].
  destruct (String.eqb_spec k' k); [congruence|].
  apply Get_filter_other. exact Hne.
Qed.

Lemma Get_In {V : Type} (k : string) (v : V) (m : list (string * V)) :
  Get k m = Some v -> In (k, v) m.
Proof.
  induction m as [|[q u] m IH]; cbn [Get]; [discriminate|].
  destruct (String.eqb_spec q k) as [->|Hne].
  - intros H. injection H as ->. left. reflexivity.
  - intros H. right. auto.
Qed.

Lemma In_Get {V : Type} (k : string) (v : V) (m : list (string * V)) :
  NoDup (map fst m) -> In (k, v) m -> Get k m = Some v.
Proof.
  induction m as [|[q u] m IH]; cbn [map fst Get]; [intros _ []|].
  intros Hnd Hin. inversion Hnd as [|? ? Hq Hnd']; subst.
  destruct Hin as [Heq|Hin].
  - injection Heq as -> ->. now rewrite String.eqb_refl.
  - destruct (String.eqb_spec q k) as [->|Hne]; [|auto].
    exfalso. apply Hq. apply in_map_iff. exists (k, v). auto.
Qed.

Lemma In_Put {V : Type} (k k' : string) (v v' : V) (m : list (string * V)) :
  In (k, v) (Put k' v' m) <-> (k = k' /\ v = v') \/ (k <> k' /\ In (k, v) m).
Proof.
  unfold Put. cbn [In]. rewrite filter_In. cbn [fst]. split.
  - intros [Heq|[Hin Hne]].
    + injection Heq as <- <-. auto.
    + right. split; [|exact Hin].
      destruct (String.eqb_spec k k'); [discriminate|assumption].
  - intros [[-> ->]|[Hne Hin]]; [auto|].
    right. split; [exact Hin|].
    destruct (String.eqb_spec k k'); [contradiction|reflexivity].
Qed.

Lemma NoDup_Put {V : Type} (k : string) (v : V) (m : list (string * V)) :
  NoDup (map fst m) -> NoDup (map fst (Put k v m)).
Proof.
  intros Hnd. unfold Put. cbn [map fst]. constructor.
  - rewrite in_map_iff. intros ([q u] & Hq & Hin). cbn in Hq. subst q.
    apply filter_In in Hin. destruct Hin as [_ Hin]. cbn in Hin.
    now rewrite String.eqb_refl in Hin.
  - induction m as [|[q u] m IH]; cbn [filter map fst]; [constructor|].
    inversion Hnd as [|? ? Hq Hnd']; subst.
    destruct (negb (String.eqb q k)); cbn [map fst]; [|auto].
    constructor; [|auto]. rewrite in_map_iff. intros ([q' u'] & Hq' & Hin).
    cbn in Hq'. subst q'. apply filter_In in Hin. destruct Hin as [Hin _].
    apply Hq. apply in_map_iff. exists (q, u'). auto.
Qed.

End GoMapFacts.

(** ** Kubernetes helpers *)

Module KubeFacts.

Import Kube.

Section Facts.
Variable d : Defaults.

Lemma GetMasters_step (key : string) (node : Phases.Node) (rest : NodeMap) :
  GetMasters d ((key, node) :: rest) =
  if isMaster d node
  then match nodeAddress d node with
       | Some ip => ip :: GetMasters d rest
       | None => GetMasters d rest
       end
  else GetMasters d rest.
Proof.
  cbn [GetMasters]. unfold isMaster, nodeAddress.
  destruct (String.eqb _ _); cbn [negb]; [|reflexivity].
  destruct (GoMap.Get (KubernetesAdvertiseIPLabel d) _); [reflexivity|].
  destruct (GoMap.Get (KubernetesHostnameLabel d) _); reflexivity.
Qed.

Lemma GetMasters_In (nodes : NodeMap) (ip : string) :
  In ip (GetMasters d nodes) <->
  exists key node,
    In (key, node) nodes /\ isMaster d node = true /\
    nodeAddress d node = Some ip.
Proof.
  induction nodes as [|[key node] rest IH].
  - split; [intros []|intros (k & n & [] & _)].
  - rewrite GetMasters_step. split.
    + intros Hin. destruct (isMaster d node) eqn:Hm.
      * destruct (nodeAddress d node) as [ip'|] eqn:Ha.
        -- destruct Hin as [<-|Hin].
           ++ exists key, node. split; [left; reflexivity|auto].
           ++ apply IH in Hin. destruct Hin as (k & n & Hin & H).
              exists k, n. split; [right; exact Hin|exact H].
        -- apply IH in Hin. destruct Hin as (k & n & Hin & H).
           exists k, n. split; [right; exact Hin|exact H].
      * apply IH in Hin. destruct Hin as (k & n & Hin & H).
        exists k, n. split; [right; exact Hin|exact H].
    + intros (k & n & [Heq|Hin] & Hm & Ha).
      * injection Heq as -> ->. rewrite Hm, Ha. left. reflexivity.
      * assert (Hrest : In ip (GetMasters d rest)) by (apply IH; eauto).
        destruct (isMaster d node); [|exact Hrest].
        destruct (nodeAddress d node); [right|]; exact Hrest.
Qed.

(** X8. [GetMasters] returns the addresses of the nodes whose role label is the
    master role: for each such node its advertise-IP label, or, when it has
    none, its hostname label; a master with neither label is passed over,
    and the keys of the map play no part. It returns at most one address
    per node. *)
Theorem GetMasters_addresses (nodes : NodeMap) :
  (forall ip,
     In ip (GetMasters d nodes) <->
     exists key node,
       In (key, node) nodes /\ isMaster d node = true /\
       nodeAddress d node = Some ip) /\
  (length (GetMasters d nodes) <= length nodes)%nat.
Proof.
  split.
  - intros ip. apply GetMasters_In.
  - induction nodes as [|[key node] rest IH]; [apply Nat.le_refl|].
    rewrite GetMasters_step. cbn [length].
    destruct (isMaster d node); [|lia].
    destruct (nodeAddress d node); cbn [length]; lia.
Qed.

Variable client : NodeInterface.

Lemma GetNodesLoop_step (node : Phases.Node) (rest : list Phases.Node)
  (nodes : NodeMap) :
  GetNodesLoop d client (node :: rest) nodes =
  match nodeAddress d node with
  | Some ip => GetNodesLoop d client rest (GoMap.Put ip node nodes)
  | None =>
      Err (NotFound ("label " ++ Quote client (KubernetesAdvertiseIPLabel d)
                       ++ " not found for node " ++ showNode client node))
  end.
Proof.
  cbn [GetNodesLoop]. unfold nodeAddress.
  destruct (GoMap.Get (KubernetesAdvertiseIPLabel d) _); [reflexivity|].
  destruct (GoMap.Get (KubernetesHostnameLabel d) _); reflexivity.
Qed.

Lemma find_snoc {A : Type} (f : A -> bool) (l : list A) (x : A) :
  find f (l ++ [x]) =
  match find f l with
  | Some y => Some y
  | None => if f x then Some x else None
  end.
Proof.
  induction l as [|y l IH]; cbn [app find]; [reflexivity|].
  destruct (f y); [reflexivity|exact IH].
Qed.

Lemma GetNodesLoop_ok (items : list Phases.Node) :
  forall acc nodes,
    GetNodesLoop d client items acc = Ok nodes ->
    (forall ip,
       GoMap.Get ip nodes =
       match find (hasAddress d ip) (rev items) with
       | Some node => Some node
       | None => GoMap.Get ip acc
       end) /\
    (filed d acc -> filed d nodes).
Proof.
  induction items as [|node rest IH]; intros acc nodes Hloop.
  - injection Hloop as <-. split; [reflexivity|auto].
  - rewrite GetNodesLoop_step in Hloop.
    destruct (nodeAddress d node) as [ip0|] eqn:Ha; [|discriminate].
    destruct (IH _ _ Hloop) as [Hget Hfiled]. split.
    + intros ip. rewrite Hget. cbn [rev]. rewrite find_snoc.
      destruct (find (hasAddress d ip) (rev rest)); [reflexivity|].
      unfold hasAddress. rewrite Ha.
      destruct (String.eqb_spec ip0 ip) as [->|Hne].
      * apply GoMapFacts.Get_Put_same.
      * apply GoMapFacts.Get_Put_other. congruence.
    + intros [Hnd Hkeys]. apply Hfiled. split.
      * apply GoMapFacts.NoDup_Put. exact Hnd.
      * intros key n Hin. apply GoMapFacts.In_Put in Hin.
        destruct Hin as [[-> ->]|[_ Hin]]; [exact Ha|auto].
Qed.

Lemma GetNodesLoop_returns (items : list Phases.Node) :
  forall acc,
    (forall node, In node items -> nodeAddress d node <> None) ->
    exists nodes, GetNodesLoop d client items acc = Ok nodes.
Proof.
  induction items as [|node rest IH]; intros acc Hall.
  - eexists. reflexivity.
  - rewrite GetNodesLoop_step.
    destruct (nodeAddress d node) as [ip0|] eqn:Ha.
    + apply IH. intros n Hin. apply Hall. right. exact Hin.
    + exfalso. apply (Hall node); [left; reflexivity|exact Ha].
Qed.

Lemma GetNodesLoop_fails (items : list Phases.Node) :
  forall acc,
    (exists node, In node items /\ nodeAddress d node = None) ->
    exists e, GetNodesLoop d client items acc = Err e /\ IsNotFound e = true.
Proof.
  induction items as [|node rest IH]; intros acc (bad & Hin & Hbad).
  - destruct Hin.
  - rewrite GetNodesLoop_step.
    destruct (nodeAddress d node) as [ip0|] eqn:Ha.
    + apply IH. destruct Hin as [->|Hin]; [congruence|eauto].
    + eexists. split; reflexivity.
Qed.

(** X9. [GetNodes] on a successful listing. When every listed node has an
    advertise-IP or a hostname label, it returns the map in which each
    address leads to the last listed node with that address (a later node
    replaces an earlier one of the same address) and an address no node has
    is absent. When some listed node has neither label, it returns a
    not-found error and no map. *)
Theorem GetNodes_by_address (items : list Phases.Node) :
  List client = Ok items ->
  ((forall node, In node items -> nodeAddress d node <> None) ->
   exists nodes,
     GetNodes d client = Ok nodes /\
     forall ip, GoMap.Get ip nodes = find (hasAddress d ip) (rev items)) /\
  ((exists node, In node items /\ nodeAddress d node = None) ->
   exists e, GetNodes d client = Err e /\ IsNotFound e = true).
Proof.
  intros Hlist. unfold GetNodes. rewrite Hlist. split.
  - intros Hall. destruct (GetNodesLoop_returns items [] Hall) as [nodes Hloop].
    exists nodes. split; [exact Hloop|].
    intros ip. destruct (GetNodesLoop_ok items [] nodes Hloop) as [Hget _].
    rewrite Hget. destruct (find (hasAddress d ip) (rev items)); reflexivity.
  - apply GetNodesLoop_fails.
Qed.

(** X10. [GetMasters] on a map built by [GetNodes]: the addresses it returns
    are exactly the keys under which the map holds a master node. *)
Theorem GetMasters_of_GetNodes (nodes : NodeMap) :
  GetNodes d client = Ok nodes ->
  forall ip,
    In ip (GetMasters d nodes) <->
    exists node, GoMap.Get ip nodes = Some node /\ isMaster d node = true.
Proof.
  intros Hnodes ip. unfold GetNodes in Hnodes.
  destruct (List client) as [items|err]; [|discriminate].
  destruct (GetNodesLoop_ok items [] nodes Hnodes) as [_ Hfiled].
  destruct Hfiled as [Hnd Hkeys].
  { split; [constructor|intros key node []]. }
  rewrite GetMasters_In. split.
  - intros (key & node & Hentry & Hm & Ha).
    pose proof (Hkeys _ _ Hentry) as Hkey. rewrite Ha in Hkey.
    injection Hkey as ->. exists node. split; [|exact Hm].
    apply GoMapFacts.In_Get; assumption.
  - intros (node & Hget & Hm). apply GoMapFacts.Get_In in Hget.
    exists ip, node. auto.
Qed.

End Facts.

(** *** Versions *)

Lemma FlattenVersion_cons (c : ascii) (rest : string) :
  FlattenVersion (String c rest) =
  if Ascii.eqb c "."%char then FlattenVersion rest
  else if Ascii.eqb c "+"%char then String "-"%char (FlattenVersion rest)
  else String c (FlattenVersion rest).
Proof. reflexivity. Qed.

(** X11. [FlattenVersion] leaves no dot and no plus sign in its result, keeps a
    string that has neither as it is (so flattening twice changes nothing
    more), never lengthens the string, and works piece by piece. *)
Theorem FlattenVersion_clean (version : string) :
  occurrences "."%char (FlattenVersion version) = 0%nat /\
  occurrences "+"%char (FlattenVersion version) = 0%nat /\
  (occurrences "."%char version = 0%nat ->
   occurrences "+"%char version = 0%nat ->
   FlattenVersion version = version) /\
  FlattenVersion (FlattenVersion version) = FlattenVersion version /\
  (String.length (FlattenVersion version) <= String.length version)%nat /\
  (forall more,
     FlattenVersion (version ++ more)
     = (FlattenVersion version ++ FlattenVersion more)%string).
Proof.
  assert (Hdot : forall v, occurrences "."%char (FlattenVersion v) = 0%nat).
  { induction v as [|c v IH]; [reflexivity|]. rewrite FlattenVersion_cons.
    destruct (Ascii.eqb c "."%char) eqn:Hc; [exact IH|].
    destruct (Ascii.eqb c "+"%char); cbn [occurrences]; [|rewrite Hc]; exact IH. }
  assert (Hplus : forall v, occurrences "+"%char (FlattenVersion v) = 0%nat).
  { induction v as [|c v IH]; [reflexivity|]. rewrite FlattenVersion_cons.
    destruct (Ascii.eqb c "."%char); [exact IH|].
    destruct (Ascii.eqb c "+"%char) eqn:Hc; cbn [occurrences]; [|rewrite Hc]; exact IH. }
  assert (Hfix : forall v,
             occurrences "."%char v = 0%nat -> occurrences "+"%char v = 0%nat ->
             FlattenVersion v = v).
  { induction v as [|c v IH]; [reflexivity|]. cbn [occurrences].
    rewrite FlattenVersion_cons.
    destruct (Ascii.eqb c "."%char); [discriminate|].
    destruct (Ascii.eqb c "+"%char); [discriminate|].
    cbn. intros H1 H2. f_equal. auto. }
  split; [apply Hdot|]. split; [apply Hplus|]. split; [apply Hfix|].
  split; [apply Hfix; [apply Hdot|apply Hplus]|]. split.
  - induction version as [|c v IH]; [apply Nat.le_refl|].
    rewrite FlattenVersion_cons.
    destruct (Ascii.eqb c "."%char); [cbn [String.length]; lia|].
    destruct (Ascii.eqb c "+"%char); cbn [String.length]; lia.
  - intros more. induction version as [|c v IH]; [reflexivity|].
    cbn [append]. rewrite !FlattenVersion_cons.
    destruct (Ascii.eqb c "."%char); [exact IH|].
    destruct (Ascii.eqb c "+"%char); cbn [append]; now rewrite IH.
Qed.

(** *** Kubeconfig files *)

(** X12. [LoadKubeConfig] returns either a config and no error, or an error and
    no config, never neither; and a file that does not exist, for which the
    loader has no config and an error [os.IsNotExist] recognises, yields the
    empty config and no error. *)
Theorem LoadKubeConfig_config_or_error {Config : Type} (fs : KubeFiles Config) :
  ((exists config, LoadKubeConfig fs = (Some config, None)) \/
   (exists err, LoadKubeConfig fs = (None, Some err))) /\
  (forall filename err,
     EnsureLocalPath fs (EnvKubeConfigValue fs) (KubeConfigDir fs) (KubeConfigFile fs)
     = Ok filename ->
     LoadFromFile fs filename = (None, Some err) ->
     IsNotExist fs err = true ->
     LoadKubeConfig fs = (Some (NewConfig fs), None)).
Proof.
  unfold LoadKubeConfig. split.
  - destruct (EnsureLocalPath fs _ _ _) as [filename|err]; [|eauto].
    destruct (LoadFromFile fs filename) as [config [e|]]; [|eauto].
    destruct (IsNotExist fs e); cbn [negb]; eauto.
  - intros filename err Hpath Hload Hmissing. rewrite Hpath, Hload, Hmissing.
    reflexivity.
Qed.

(** *** On a two-node cluster *)

Lemma GetNodes_by_address_witness :
  exists nodes,
    GetNodes Cases.kube Cases.nodeClient = Ok nodes /\
    forall ip,
      GoMap.Get ip nodes
      = find (hasAddress Cases.kube ip) (rev [Cases.master1; Cases.worker2]).
Proof.
  apply (proj1 (GetNodes_by_address Cases.kube Cases.nodeClient
                  [Cases.master1; Cases.worker2] eq_refl)).
  intros node [<-|[<-|[]]]; discriminate.
Defined.

Lemma GetMasters_of_GetNodes_witness :
  GetNodes Cases.kube Cases.nodeClient = Ok Cases.nodesByAddress /\
  forall ip,
    In ip (GetMasters Cases.kube Cases.nodesByAddress) <->
    exists node,
      GoMap.Get ip Cases.nodesByAddress = Some node /\
      isMaster Cases.kube node = true.
Proof.
  split; [reflexivity|].
  apply (GetMasters_of_GetNodes Cases.kube Cases.nodeClient Cases.nodesByAddress).
  reflexivity.
Defined.

End KubeFacts.

(** ** The install command's configuration *)

Module CliFacts.

Import Cli.

Section Facts.
Context {Process : Type}.
Variable sys : System Process.

Lemma sameElsewhere_refl (i : InstallConfig Process) : sameElsewhere Process i i.
Proof. unfold sameElsewhere. repeat split. Qed.

Lemma sameElsewhere_trans (i j k : InstallConfig Process) :
  sameElsewhere Process i j -> sameElsewhere Process j k -> sameElsewhere Process i k.
Proof.
  unfold sameElsewhere. intros Hij Hjk.
  repeat match goal with H : _ /\ _ |- _ => destruct H end.
  repeat split; congruence.
Qed.

Lemma setters_frame (i : InstallConfig Process) :
  (forall v, sameElsewhere Process i (setReadStateDir Process v i)) /\
  (forall v, sameElsewhere Process i (setWriteStateDir Process v i)) /\
  (forall v, sameElsewhere Process i (setInstallToken Process v i)) /\
  (forall v, sameElsewhere Process i (setVxlanPort Process v i)) /\
  (forall v, sameElsewhere Process i (setDNSListenAddr Process v i)) /\
  (forall v, sameElsewhere Process i (setServiceUser Process v i)) /\
  (forall v, sameElsewhere Process i (setNewProcess Process v i)).
Proof.
  unfold sameElsewhere.
  split; [|split; [|split; [|split; [|split; [|split]]]]];
    intros v; cbn; repeat split.
Qed.

Ltac frame :=
  repeat first
    [ apply sameElsewhere_refl
    | eapply sameElsewhere_trans; [|apply setters_frame] ].

(** No step of [CheckAndSetDefaults] touches the other fields. *)
Lemma steps_frame (st : Progress Process) :
  sameElsewhere Process (fst st) (fst (snd (resolveReadStateDir Process sys st))) /\
  sameElsewhere Process (fst st) (fst (snd (resolveWriteStateDir Process sys st))) /\
  sameElsewhere Process (fst st) (fst (snd (checkStateDir Process sys st))) /\
  sameElsewhere Process (fst st) (fst (snd (resolveInstallToken Process sys st))) /\
  sameElsewhere Process (fst st) (fst (snd (resolveServiceUser Process sys st))).
Proof.
  destruct st as [i logged].
  unfold resolveReadStateDir, resolveWriteStateDir, checkStateDir,
    resolveInstallToken, resolveServiceUser.
  split; [|split; [|split; [|split]]].
  - destruct (String.eqb (ReadStateDir Process i) ""); [|apply sameElsewhere_refl].
    destruct (Getwd Process sys) as [dir [e|]]; cbn [fst snd]; frame.
  - destruct (String.eqb (WriteStateDir Process i) ""); [|apply sameElsewhere_refl].
    destruct (TempDir Process sys) as [dir [e|]]; cbn [fst snd]; frame.
  - destruct (IsDirectory Process sys _) as [isDir [e|]]; destruct isDir; cbn [negb];
      try apply sameElsewhere_refl.
    destruct (IsAccessDenied e); [apply sameElsewhere_refl|].
    destruct (IsNotFound e); apply sameElsewhere_refl.
  - destruct (String.eqb (InstallToken Process i) ""); [|apply sameElsewhere_refl].
    destruct (CryptoRandomHex Process sys) as [token [e|]]; cbn [fst snd]; frame.
  - destruct (GetOrCreateServiceUser Process sys _ _) as [user|e];
      [|apply sameElsewhere_refl].
    cbv zeta. cbn [fst snd].
    repeat match goal with
           | |- context [if ?c then _ else _] => destruct c
           | |- context [match ?x with Some _ => _ | None => _ end] => destruct x
           end; frame.
Qed.

(** X13. [CheckAndSetDefaults] assigns the state directories, the token, the
    overlay port, the DNS listen address, the service user and the process
    launcher, and nothing else: whether it succeeds or fails, and wherever
    it fails, all other fields of the configuration are as before. *)
Theorem CheckAndSetDefaults_frame (i : InstallConfig Process) :
  sameElsewhere Process i (fst (snd (CheckAndSetDefaults Process sys i))).
Proof.
  unfold CheckAndSetDefaults, andThen.
  destruct (steps_frame (i, [])) as (F1 & _). cbn [fst] in F1.
  destruct (resolveReadStateDir Process sys (i, [])) as [[e|] [i1 l1]];
    cbn [fst snd] in *; [exact F1|].
  destruct (steps_frame (i1, l1)) as (_ & F2 & _). cbn [fst] in F2.
  pose proof (sameElsewhere_trans _ _ _ F1 F2) as F12.
  destruct (resolveWriteStateDir Process sys (i1, l1)) as [[e|] [i2 l2]];
    cbn [fst snd] in *; [exact F12|].
  destruct (steps_frame (i2, l2)) as (_ & _ & F3 & _). cbn [fst] in F3.
  pose proof (sameElsewhere_trans _ _ _ F12 F3) as F123.
  destruct (checkStateDir Process sys (i2, l2)) as [[e|] [i3 l3]];
    cbn [fst snd] in *; [exact F123|].
  destruct (steps_frame (i3, l3)) as (_ & _ & _ & F4 & _). cbn [fst] in F4.
  pose proof (sameElsewhere_trans _ _ _ F123 F4) as F1234.
  destruct (resolveInstallToken Process sys (i3, l3)) as [[e|] [i4 l4]];
    cbn [fst snd] in *; [exact F1234|].
  destruct (steps_frame (i4, l4)) as (_ & _ & _ & _ & F5). cbn [fst] in F5.
  exact (sameElsewhere_trans _ _ _ F1234 F5).
Qed.

(** X14. Once the state directories are settled, a state directory that
    [utils.IsDirectory] does not report as a directory makes
    [CheckAndSetDefaults] return the bad-parameter error "is not a
    directory", whatever error came with that answer: the answer is looked
    at before the error, so the access-denied and not-found messages are
    only given when the answer is true. Nothing else is done then: no token
    is generated and no service user is looked up or created. *)
Theorem state_dir_must_be_directory (i i1 : InstallConfig Process)
  (logged : list string) :
  andThen Process (resolveReadStateDir Process sys (i, []))
    (resolveWriteStateDir Process sys) = (None, (i1, logged)) ->
  fst (IsDirectory Process sys (ReadStateDir Process i1)) = false ->
  CheckAndSetDefaults Process sys i =
  (Some (BadParameter ("the specified state path " ++ ReadStateDir Process i1
                         ++ " is not a directory")),
   (i1, logged)).
Proof.
  intros Hdirs Hnot. unfold CheckAndSetDefaults.
  unfold andThen in Hdirs |- *.
  destruct (resolveReadStateDir Process sys (i, [])) as [[e|] st1]; [discriminate|].
  rewrite Hdirs. unfold checkStateDir.
  destruct (IsDirectory Process sys (ReadStateDir Process i1)) as [isDir err].
  cbn [fst] in Hnot. subst isDir. reflexivity.
Qed.

(** What each step leaves behind when it succeeds. *)
Lemma resolveReadStateDir_ok (i i' : InstallConfig Process) (l l' : list string) :
  resolveReadStateDir Process sys (i, l) = (None, (i', l')) ->
  i' = if String.eqb (ReadStateDir Process i) ""
       then setReadStateDir Process (fst (Getwd Process sys)) i else i.
Proof.
  unfold resolveReadStateDir. destruct (String.eqb (ReadStateDir Process i) "").
  - destruct (Getwd Process sys) as [dir [e|]]; [discriminate|].
    intros H. injection H as <- _. reflexivity.
  - intros H. injection H as <- _. reflexivity.
Qed.

Lemma resolveWriteStateDir_ok (i i' : InstallConfig Process) (l l' : list string) :
  resolveWriteStateDir Process sys (i, l) = (None, (i', l')) ->
  i' = if String.eqb (WriteStateDir Process i) ""
       then setWriteStateDir Process (fst (TempDir Process sys)) i else i.
Proof.
  unfold resolveWriteStateDir. destruct (String.eqb (WriteStateDir Process i) "").
  - destruct (TempDir Process sys) as [dir [e|]]; [discriminate|].
    intros H. injection H as <- _. reflexivity.
  - intros H. injection H as <- _. reflexivity.
Qed.

Lemma checkStateDir_ok (i i' : InstallConfig Process) (l l' : list string) :
  checkStateDir Process sys (i, l) = (None, (i', l')) ->
  i' = i /\ fst (IsDirectory Process sys (ReadStateDir Process i)) = true.
Proof.
  unfold checkStateDir.
  destruct (IsDirectory Process sys (ReadStateDir Process i)) as [[|] [e|]];
    cbn [negb fst]; try discriminate.
  - destruct (IsAccessDenied e); [discriminate|].
    destruct (IsNotFound e); discriminate.
  - intros H. injection H as <- _. auto.
Qed.

Lemma resolveInstallToken_ok (i i' : InstallConfig Process) (l l' : list string) :
  resolveInstallToken Process sys (i, l) = (None, (i', l')) ->
  i' = if String.eqb (InstallToken Process i) ""
       then setInstallToken Process (fst (CryptoRandomHex Process sys)) i else i.
Proof.
  unfold resolveInstallToken. destruct (String.eqb (InstallToken Process i) "").
  - destruct (CryptoRandomHex Process sys) as [token [e|]]; [discriminate|].
    intros H. injection H as <- _. reflexivity.
  - intros H. injection H as <- _. reflexivity.
Qed.

Lemma resolveServiceUser_ok (i i' : InstallConfig Process) (l l' : list string) :
  resolveServiceUser Process sys (i, l) = (None, (i', l')) ->
  GetOrCreateServiceUser Process sys (ServiceUID Process i) (ServiceGID Process i)
    = Ok (ServiceUser Process i') /\
  VxlanPort Process i' =
    (if (VxlanPort Process i =? 0)%Z then defaultVxlanPort Process sys
     else VxlanPort Process i) /\
  DNSListenAddr Process i' =
    (if String.eqb (DNSListenAddr Process i) "" then defaultDNSListenAddr Process sys
     else DNSListenAddr Process i) /\
  NewProcess Process i' =
    Some (match NewProcess Process i with
          | Some launch => launch
          | None => processNewProcess Process sys
          end) /\
  ReadStateDir Process i' = ReadStateDir Process i /\
  WriteStateDir Process i' = WriteStateDir Process i /\
  InstallToken Process i' = InstallToken Process i.
Proof.
  unfold resolveServiceUser.
  destruct (GetOrCreateServiceUser Process sys _ _) as [user|e]; [|discriminate].
  cbv zeta. intros H. injection H as <- _.
  destruct (VxlanPort Process i =? 0)%Z eqn:Hport; cbn;
    destruct (String.eqb (DNSListenAddr Process i) "") eqn:Hdns; cbn;
    try rewrite Hdns; destruct (NewProcess Process i) eqn:Hlaunch; cbn;
    repeat split; assumption.
Qed.

(** X15. When [CheckAndSetDefaults] succeeds, a value given for a state
    directory, the token, the overlay port or the DNS listen address is
    kept, and a missing one (empty, or port 0) is filled from the working
    directory, a fresh temporary directory, the random generator and the
    defaults; the service user is the one looked up for the configured
    identifiers; a launcher is set; and the state directory in effect is a
    directory. *)
Theorem CheckAndSetDefaults_fills_defaults (i i' : InstallConfig Process)
  (logged : list string) :
  CheckAndSetDefaults Process sys i = (None, (i', logged)) ->
  ReadStateDir Process i' =
    (if String.eqb (ReadStateDir Process i) "" then fst (Getwd Process sys)
     else ReadStateDir Process i) /\
  WriteStateDir Process i' =
    (if String.eqb (WriteStateDir Process i) "" then fst (TempDir Process sys)
     else WriteStateDir Process i) /\
  InstallToken Process i' =
    (if String.eqb (InstallToken Process i) "" then fst (CryptoRandomHex Process sys)
     else InstallToken Process i) /\
  VxlanPort Process i' =
    (if (VxlanPort Process i =? 0)%Z then defaultVxlanPort Process sys
     else VxlanPort Process i) /\
  DNSListenAddr Process i' =
    (if String.eqb (DNSListenAddr Process i) "" then defaultDNSListenAddr Process sys
     else DNSListenAddr Process i) /\
  GetOrCreateServiceUser Process sys (ServiceUID Process i) (ServiceGID Process i)
    = Ok (ServiceUser Process i') /\
  NewProcess Process i' =
    Some (match NewProcess Process i with
          | Some launch => launch
          | None => processNewProcess Process sys
          end) /\
  fst (IsDirectory Process sys (ReadStateDir Process i')) = true.
Proof.
  intros Hrun. unfold CheckAndSetDefaults, andThen in Hrun.
  destruct (resolveReadStateDir Process sys (i, [])) as [[e|] [i1 l1]] eqn:H1;
    [discriminate|].
  destruct (resolveWriteStateDir Process sys (i1, l1)) as [[e|] [i2 l2]] eqn:H2;
    [discriminate|].
  destruct (checkStateDir Process sys (i2, l2)) as [[e|] [i3 l3]] eqn:H3;
    [discriminate|].
  destruct (resolveInstallToken Process sys (i3, l3)) as [[e|] [i4 l4]] eqn:H4;
    [discriminate|].
  apply resolveReadStateDir_ok in H1. apply resolveWriteStateDir_ok in H2.
  apply checkStateDir_ok in H3. destruct H3 as [-> Hdir].
  apply resolveInstallToken_ok in H4. apply resolveServiceUser_ok in Hrun.
  destruct Hrun as (Huser & Hport & Hdns & Hlaunch & Hread & Hwrite & Htoken).
  rewrite Hread, Hwrite, Htoken, Hport, Hdns, Hlaunch. clear Hport Hdns Hlaunch.
  subst i4 i2 i1.
  destruct (String.eqb (ReadStateDir Process i) ""); cbn in *;
    destruct (String.eqb (WriteStateDir Process i) ""); cbn in *;
    destruct (String.eqb (InstallToken Process i) ""); cbn in *;
    repeat split; assumption.
Qed.

(** *** DNS overrides *)

Lemma hostOverrides_ok (given : list string) :
  forall parsed acc,
    map (ParseHostOverride Process sys) given = map Ok parsed ->
    exists hosts,
      hostOverrides Process sys given acc = Ok hosts /\
      forall h,
        GoMap.Get h hosts =
        match find (overrides h) (rev parsed) with
        | Some p => Some (snd p)
        | None => GoMap.Get h acc
        end.
Proof.
  induction given as [|o rest IH]; intros parsed acc Hparsed.
  - destruct parsed; [|discriminate]. exists acc. split; reflexivity.
  - destruct parsed as [|[host ip] parsed]; [discriminate|].
    cbn [map] in Hparsed. injection Hparsed as Ho Hrest.
    cbn [hostOverrides]. rewrite Ho.
    destruct (IH parsed (GoMap.Put host ip acc) Hrest) as (hosts & Hrun & Hget).
    exists hosts. split; [exact Hrun|].
    intros h. rewrite Hget. cbn [rev]. rewrite KubeFacts.find_snoc.
    destruct (find (overrides h) (rev parsed)); [reflexivity|].
    unfold overrides. cbn [fst snd].
    destruct (String.eqb_spec host h) as [->|Hne].
    + apply GoMapFacts.Get_Put_same.
    + apply GoMapFacts.Get_Put_other. congruence.
Qed.

Lemma nameservers_Put_same (z : string) (l : list string)
  (m : list (string * list string)) :
  nameservers z (GoMap.Put z l m) = l.
Proof. unfold nameservers. now rewrite GoMapFacts.Get_Put_same. Qed.

Lemma nameservers_Put_other (z z' : string) (l : list string)
  (m : list (string * list string)) :
  z <> z' -> nameservers z (GoMap.Put z' l m) = nameservers z m.
Proof. intros Hne. unfold nameservers. now rewrite GoMapFacts.Get_Put_other. Qed.

Lemma zoneOverrides_ok (given : list string) :
  forall parsed acc,
    map (ParseZoneOverride Process sys) given = map Ok parsed ->
    exists zones,
      zoneOverrides Process sys given acc = Ok zones /\
      forall z,
        GoMap.Get z zones =
        match map snd (filter (overrides z) parsed) with
        | [] => GoMap.Get z acc
        | ns => Some (nameservers z acc ++ ns)
        end.
Proof.
  induction given as [|o rest IH]; intros parsed acc Hparsed.
  - destruct parsed; [|discriminate]. exists acc. split; reflexivity.
  - destruct parsed as [|[zone ns] parsed]; [discriminate|].
    cbn [map] in Hparsed. injection Hparsed as Ho Hrest.
    cbn [zoneOverrides]. rewrite Ho.
    destruct (IH parsed (GoMap.Put zone (nameservers zone acc ++ [ns]) acc) Hrest)
      as (zones & Hrun & Hget).
    exists zones. split; [exact Hrun|].
    intros z. rewrite Hget. cbn [filter]. unfold overrides at 2. cbn [fst].
    destruct (String.eqb_spec zone z) as [->|Hne]; cbn [map snd].
    + rewrite nameservers_Put_same, GoMapFacts.Get_Put_same.
      destruct (map snd (filter (overrides z) parsed)) as [|n more].
      * reflexivity.
      * rewrite <- app_assoc. reflexivity.
    + rewrite (nameservers_Put_other z zone) by congruence.
      rewrite (GoMapFacts.Get_Put_other z zone) by congruence.
      reflexivity.
Qed.

Lemma hostOverrides_fails (given : list string) :
  forall acc,
    (exists err, hostOverrides Process sys given acc = Err err) <->
    (exists o e, In o given /\ ParseHostOverride Process sys o = Err e).
Proof.
  induction given as [|o rest IH]; intros acc; cbn [hostOverrides].
  - split; [intros (err & H); discriminate|intros (o & e & [] & _)].
  - destruct (ParseHostOverride Process sys o) as [[host ip]|e] eqn:Ho.
    + rewrite IH. split.
      * intros (o' & e & Hin & H). exists o', e. split; [right|]; assumption.
      * intros (o' & e & [<-|Hin] & H); [congruence|]. exists o', e. auto.
    + split; [|eauto]. intros _. exists o, e. split; [left; reflexivity|exact Ho].
Qed.

Lemma zoneOverrides_fails (given : list string) :
  forall acc,
    (exists err, zoneOverrides Process sys given acc = Err err) <->
    (exists o e, In o given /\ ParseZoneOverride Process sys o = Err e).
Proof.
  induction given as [|o rest IH]; intros acc; cbn [zoneOverrides].
  - split; [intros (err & H); discriminate|intros (o & e & [] & _)].
  - destruct (ParseZoneOverride Process sys o) as [[zone ns]|e] eqn:Ho.
    + rewrite IH. split.
      * intros (o' & e & Hin & H). exists o', e. split; [right|]; assumption.
      * intros (o' & e & [<-|Hin] & H); [congruence|]. exists o', e. auto.
    + split; [|eauto]. intros _. exists o, e. split; [left; reflexivity|exact Ho].
Qed.

(** X16. When every DNS override of the configuration parses, [getDNSOverrides]
    succeeds: a host is mapped to the address of the last override given for
    it, a zone to the nameservers of all overrides given for it, in the
    order given, and hosts and zones without an override are absent. *)
Theorem getDNSOverrides_collects (i : InstallConfig Process)
  (hosts zones : list (string * string)) :
  map (ParseHostOverride Process sys) (DNSHosts Process i) = map Ok hosts ->
  map (ParseZoneOverride Process sys) (DNSZones Process i) = map Ok zones ->
  exists found,
    getDNSOverrides Process sys i = Ok found /\
    (forall h,
       GoMap.Get h (Hosts found) = option_map snd (find (overrides h) (rev hosts))) /\
    (forall z,
       GoMap.Get z (Zones found) =
       match map snd (filter (overrides z) zones) with
       | [] => None
       | ns => Some ns
       end).
Proof.
  intros Hhosts Hzones. unfold getDNSOverrides.
  destruct (hostOverrides_ok _ _ [] Hhosts) as (hs & Hrun & Hget).
  destruct (zoneOverrides_ok _ _ [] Hzones) as (zs & Hrunz & Hgetz).
  rewrite Hrun, Hrunz. eexists. split; [reflexivity|]. cbn [Hosts Zones]. split.
  - intros h. rewrite Hget. destruct (find (overrides h) (rev hosts)); reflexivity.
  - intros z. rewrite Hgetz. reflexivity.
Qed.

(** X17. [getDNSOverrides] fails exactly when some host or zone override of
    the configuration does not parse. *)
Theorem getDNSOverrides_fails_on_bad_override (i : InstallConfig Process) :
  (exists err, getDNSOverrides Process sys i = Err err) <->
  (exists o e,
     (In o (DNSHosts Process i) /\ ParseHostOverride Process sys o = Err e) \/
     (In o (DNSZones Process i) /\ ParseZoneOverride Process sys o = Err e)).
Proof.
  unfold getDNSOverrides. split.
  - intros (err & Hrun).
    destruct (hostOverrides Process sys (DNSHosts Process i) []) as [hs|e] eqn:Hh.
    + destruct (zoneOverrides Process sys (DNSZones Process i) []) as [zs|e] eqn:Hz;
        [discriminate|].
      destruct (proj1 (zoneOverrides_fails _ []) (ex_intro _ e Hz)) as (o & e' & H).
      exists o, e'. right. exact H.
    + destruct (proj1 (hostOverrides_fails _ []) (ex_intro _ e Hh)) as (o & e' & H).
      exists o, e'. left. exact H.
  - intros (o & e & [H|H]).
    + destruct (proj2 (hostOverrides_fails _ []) (ex_intro _ o (ex_intro _ e H)))
        as (err & Hrun).
      rewrite Hrun. eauto.
    + destruct (proj2 (zoneOverrides_fails _ []) (ex_intro _ o (ex_intro _ e H)))
        as (err & Hrun).
      destruct (hostOverrides Process sys (DNSHosts Process i) []); [|eauto].
      rewrite Hrun. eauto.
Qed.

(** *** The installer's configuration *)

(** X18. [ToInstallerConfig] does not fail for want of resources. When the
    advertise address, the application package and the DNS overrides are
    obtained: resources that were read are passed on; a not-found error from
    [GetResources], which is what an unset resources path gives, leaves the
    installer's resources nil; any other error from [GetResources] is
    returned. *)
Theorem ToInstallerConfig_resources (i : InstallConfig Process)
  (env : LocalEnvironment) (addr : string) (pkg : Phases.Locator)
  (dns : DNSOverrides) :
  GetAdvertiseAddr Process sys i = Ok addr ->
  GetAppPackage Process sys i = Ok pkg ->
  getDNSOverrides Process sys i = Ok dns ->
  match GetResources Process sys i with
  | Ok bytes =>
      exists cfg,
        ToInstallerConfig Process sys i env = Ok cfg /\
        Installer.Resources Process cfg = Some bytes
  | Err err =>
      if IsNotFound err then
        exists cfg,
          ToInstallerConfig Process sys i env = Ok cfg /\
          Installer.Resources Process cfg = None
      else ToInstallerConfig Process sys i env = Err (Wrap err [])
  end /\
  (ResourcesPath Process i = "" ->
   exists cfg,
     ToInstallerConfig Process sys i env = Ok cfg /\
     Installer.Resources Process cfg = None).
Proof.
  intros Haddr Hpkg Hdns.
  assert (Hmain :
    match GetResources Process sys i with
    | Ok bytes =>
        exists cfg,
          ToInstallerConfig Process sys i env = Ok cfg /\
          Installer.Resources Process cfg = Some bytes
    | Err err =>
        if IsNotFound err then
          exists cfg,
            ToInstallerConfig Process sys i env = Ok cfg /\
            Installer.Resources Process cfg = None
        else ToInstallerConfig Process sys i env = Err (Wrap err [])
    end).
  { unfold ToInstallerConfig. rewrite Haddr, Hpkg, Hdns. cbv zeta.
    destruct (GetResources Process sys i) as [bytes|err].
    - eexists. split; reflexivity.
    - destruct (IsNotFound err); cbn [negb].
      + eexists. split; reflexivity.
      + reflexivity. }
  split; [exact Hmain|].
  intros Hpath. unfold GetResources in Hmain. rewrite Hpath in Hmain.
  exact Hmain.
Qed.

End Facts.

(** *** On a bare command line *)

Lemma state_dir_must_be_directory_witness :
  CheckAndSetDefaults unit Cases.installer Cases.misdirected =
  (Some (BadParameter "the specified state path /etc/hosts is not a directory"),
   (setWriteStateDir unit "/tmp/gravity-wizard123" Cases.misdirected,
    ["Installer write layer: /tmp/gravity-wizard123."])).
Proof.
  apply (state_dir_must_be_directory Cases.installer Cases.misdirected
           (setWriteStateDir unit "/tmp/gravity-wizard123" Cases.misdirected)
           ["Installer write layer: /tmp/gravity-wizard123."]).
  - reflexivity.
  - reflexivity.
Defined.

Lemma CheckAndSetDefaults_fills_defaults_witness :
  exists i' logged,
    CheckAndSetDefaults unit Cases.installer Cases.bareInstall = (None, (i', logged)) /\
    ReadStateDir unit i' = "/home/installer" /\
    WriteStateDir unit i' = "/tmp/gravity-wizard123" /\
    InstallToken unit i' = "a1b2c3d4e5f6" /\
    VxlanPort unit i' = 8472%Z /\
    DNSListenAddr unit i' = "127.0.0.2" /\
    GetOrCreateServiceUser unit Cases.installer "1000" "1000"
      = Ok (ServiceUser unit i') /\
    NewProcess unit i' = Some tt /\
    fst (IsDirectory unit Cases.installer (ReadStateDir unit i')) = true.
Proof.
  do 2 eexists. split; [reflexivity|].
  eapply (CheckAndSetDefaults_fills_defaults Cases.installer Cases.bareInstall).
  reflexivity.
Defined.

Lemma getDNSOverrides_collects_witness :
  let hosts := [("a.example.com", "10.0.0.5"); ("b.example.com", "10.0.0.6");
                ("a.example.com", "10.0.0.7")] in
  let zones := [("example.com", "10.0.0.53"); ("example.com", "10.0.0.54")] in
  exists found,
    getDNSOverrides unit Cases.installer Cases.bareInstall = Ok found /\
    (forall h,
       GoMap.Get h (Hosts found) = option_map snd (find (overrides h) (rev hosts))) /\
    (forall z,
       GoMap.Get z (Zones found) =
       match map snd (filter (overrides z) zones) with
       | [] => None
       | ns => Some ns
       end).
Proof.
  apply (getDNSOverrides_collects Cases.installer Cases.bareInstall
           [("a.example.com", "10.0.0.5"); ("b.example.com", "10.0.0.6");
            ("a.example.com", "10.0.0.7")]
           [("example.com", "10.0.0.53"); ("example.com", "10.0.0.54")]).
  - reflexivity.
  - reflexivity.
Defined.

Lemma ToInstallerConfig_resources_witness :
  exists cfg,
    ToInstallerConfig unit Cases.installer Cases.bareInstall Cases.localEnv = Ok cfg /\
    Installer.Resources unit cfg = None.
Proof.
  refine (proj2 (ToInstallerConfig_resources Cases.installer Cases.bareInstall
                   Cases.localEnv "10.0.0.1" Scenarios.dnsApp _ _ _ _) _);
    reflexivity.
Defined.

End CliFacts.

(** ** More on the storage checker *)

Module StorageFacts.

Import Monitoring.

Section Facts.
Variable host : Host.

Lemma evalPathLoop_found (fuel : nat) :
  forall c p c',
    evalPathLoop host fuel c p = Some (None, c') ->
    config c' = config c /\ os c' = os c /\
    Stat host (path c') = IsDir /\
    exists k,
      path c' = Nat.iter k (Dir host) p /\
      (forall j, (j < k)%nat ->
         exists e, Stat host (Nat.iter j (Dir host) p) = NotExist e) /\
      (WillBeCreated (config c) = false -> k = 0%nat).
Proof.
  induction fuel as [|fuel IH]; intros c p c' Hrun; [discriminate|].
  cbn [evalPathLoop] in Hrun.
  destruct (Stat host p) as [| |e|e] eqn:Hstat; try discriminate.
  - injection Hrun as <-. cbn [config os path]. repeat split; [exact Hstat|].
    exists 0%nat. cbn. repeat split. intros j Hj. lia.
  - destruct (WillBeCreated (config c)) eqn:Hw; cbn [negb] in Hrun; [|discriminate].
    destruct (String.eqb (Dir host p) p); [discriminate|].
    destruct (IH _ _ _ Hrun) as (Hc & Ho & Hdir & k & Hpath & Hmissing & Hk).
    repeat split; try assumption.
    exists (S k). rewrite Nat.iter_succ_r. split; [exact Hpath|]. split.
    + intros [|j] Hj; [exists e; exact Hstat|].
      rewrite Nat.iter_succ_r. apply Hmissing. lia.
    + discriminate.
Qed.

Lemma evalPathLoop_error (fuel : nat) :
  forall c p err c',
    evalPathLoop host fuel c p = Some (Some err, c') -> c' = c.
Proof.
  induction fuel as [|fuel IH]; intros c p err c' Hrun; [discriminate|].
  cbn [evalPathLoop] in Hrun.
  destruct (Stat host p) as [| |e|e]; try discriminate.
  - injection Hrun as _ <-. reflexivity.
  - destruct (negb (WillBeCreated (config c))).
    + injection Hrun as _ <-. reflexivity.
    + destruct (String.eqb (Dir host p) p).
      * injection Hrun as _ <-. reflexivity.
      * eapply IH. exact Hrun.
  - injection Hrun as _ <-. reflexivity.
Qed.

(** X19. When [evalPath] succeeds, the checker's path is a directory: the
    configured path itself, or, when the path will be created, its nearest
    ancestor that exists, every path below it being reported missing. The
    configuration and the operating-system interface are as before. *)
Theorem evalPath_nearest_directory (c c' : storageChecker) :
  evalPath host c = Some (None, c') ->
  config c' = config c /\ os c' = os c /\
  Stat host (path c') = IsDir /\
  exists k,
    path c' = MonitoringOS.ancestor host c k /\
    (forall j, (j < k)%nat ->
       exists e, Stat host (MonitoringOS.ancestor host c j) = NotExist e) /\
    (WillBeCreated (config c) = false -> path c' = Path (config c)).
Proof.
  intros Hrun. unfold evalPath in Hrun.
  destruct (evalPathLoop_found _ _ _ _ Hrun) as (Hc & Ho & Hdir & k & Hp & Hmiss & Hk).
  repeat split; try assumption.
  exists k. split; [exact Hp|]. split; [exact Hmiss|].
  intros Hw. rewrite Hp, (Hk Hw). reflexivity.
Qed.

Lemma evalPathLoop_at_rest (fuel : nat) (c : storageChecker) (p : string) :
  Dir host p = p ->
  exists r, evalPathLoop host (S fuel) c p = Some r.
Proof.
  intros Hrest. cbn [evalPathLoop].
  destruct (Stat host p) as [| |e|e]; eauto.
  destruct (negb (WillBeCreated (config c))); eauto.
  rewrite Hrest, String.eqb_refl. eauto.
Qed.

Lemma evalPathLoop_returns (fuel : nat) :
  forall c p,
    (String.length p + 2 <= fuel)%nat ->
    (forall k,
       let q := Nat.iter k (Dir host) p in
       Dir host q = q \/
       (String.length (Dir host q) < String.length q)%nat \/
       Dir host (Dir host q) = Dir host q) ->
    exists r, evalPathLoop host fuel c p = Some r.
Proof.
  induction fuel as [|fuel IH]; intros c p Hfuel Hshrink; [lia|].
  cbn [evalPathLoop].
  destruct (Stat host p) as [| |e|e]; eauto.
  destruct (negb (WillBeCreated (config c))); eauto.
  destruct (String.eqb_spec (Dir host p) p) as [Heq|Hne]; eauto.
  destruct (Hshrink 0%nat) as [Hfix|[Hlt|Hrest]]; cbn in *.
  - contradiction.
  - apply IH; [lia|].
    intros k. specialize (Hshrink (S k)). rewrite Nat.iter_succ_r in Hshrink.
    exact Hshrink.
  - destruct fuel as [|fuel']; [lia|]. apply evalPathLoop_at_rest. exact Hrest.
Qed.

(** X20. [evalPath] returns, after at most one round per character of the
    configured path and two more, provided every parent [filepath.Dir]
    gives on the way up is shorter than the path it was taken of, or is its
    own parent (as "." and the root are), or is that path itself. It
    returns either no error and a checker whose path is a directory, or an
    error and the checker as it was. *)
Theorem evalPath_returns (c : storageChecker) :
  (forall k,
     let q := MonitoringOS.ancestor host c k in
     Dir host q = q \/
     (String.length (Dir host q) < String.length q)%nat \/
     Dir host (Dir host q) = Dir host q) ->
  exists err c',
    evalPath host c = Some (err, c') /\
    match err with
    | None => Stat host (path c') = IsDir /\ config c' = config c
    | Some _ => c' = c
    end.
Proof.
  intros Hshrink. unfold evalPath.
  destruct (evalPathLoop_returns (S (S (String.length (Path (config c))))) c
              (Path (config c))) as [[err c'] Hrun]; [lia|exact Hshrink|].
  exists err, c'. split; [exact Hrun|]. destruct err as [e|].
  - eapply evalPathLoop_error. exact Hrun.
  - destruct (evalPathLoop_found _ _ _ _ Hrun) as (Hc & _ & Hdir & _). auto.
Qed.

Lemma find_holds (cleanpath : string) (l : list FileSystem) :
  find (fun mnt => String.prefix (DirName mnt) cleanpath
                   && negb (String.eqb (SysTypeName mnt) "rootfs")) l
  = find (MonitoringOS.holds cleanpath) l.
Proof. reflexivity. Qed.

(** X21. [fsFromPath], when the path resolves and the mounts are listed, and
    sorting only rearranges the mounts: the mount it answers is one of the
    listed mounts, its directory is a prefix of the resolved path, and its
    type is not rootfs; and it fails exactly when no listed mount is like
    that. *)
Theorem fsFromPath_suitable (p cleanpath : string) (mountInfo : osInterface)
  (listed : list FileSystem) :
  (forall l, Permutation (sortChildPathFirst host l) l) ->
  EvalSymlinks host p = Ok cleanpath ->
  mounts mountInfo = Ok listed ->
  (forall mnt,
     fsFromPath host p mountInfo = Ok mnt ->
     In mnt listed /\
     String.prefix (DirName mnt) cleanpath = true /\
     SysTypeName mnt <> "rootfs") /\
  ((exists err, fsFromPath host p mountInfo = Err err) <->
   (forall mnt, In mnt listed -> MonitoringOS.holds cleanpath mnt = false)).
Proof.
  intros Hsort Hclean Hmounts. unfold fsFromPath. rewrite Hclean, Hmounts.
  rewrite find_holds. split.
  - intros mnt Hfound.
    destruct (find _ _) as [m|] eqn:Hfind; [|discriminate].
    injection Hfound as ->. apply find_some in Hfind. destruct Hfind as [Hin Hholds].
    unfold MonitoringOS.holds in Hholds. apply andb_true_iff in Hholds.
    destruct Hholds as [Hprefix Htype]. split.
    + eapply Permutation_in; [apply Hsort|exact Hin].
    + split; [exact Hprefix|].
      apply negb_true_iff in Htype. apply String.eqb_neq. exact Htype.
  - destruct (find _ _) as [m|] eqn:Hfind.
    + split; [intros (err & H); discriminate|].
      intros Hnone. apply find_some in Hfind. destruct Hfind as [Hin Hholds].
      rewrite Hnone in Hholds; [discriminate|].
      eapply Permutation_in; [apply Hsort|exact Hin].
    + split; [|eauto]. intros _ mnt Hin.
      eapply find_none in Hfind; [exact Hfind|].
      eapply Permutation_in; [symmetry; apply Hsort|exact Hin].
Qed.

(** What the run adds once [evalPath] has settled the checker's path. *)
Lemma Check_on_settled_path (c c' : storageChecker) (reporter : Reporter) :
  evalPath host c = Some (None, c') ->
  exists fs capacity speed,
    Check host c reporter =
    Some (reporter ++ fs ++ capacity ++ speed ++
          [match NewAggregate [fst (checkFsType host c' reporter);
                               fst (checkCapacity host c' reporter);
                               fst (checkWriteSpeed host c' reporter)] with
           | Some err =>
               NewProbeFromErr host (checkerName c)
                 "failed to validate storage requirements" (Wrap err [])
           | None => mkProbe (checkerName c) "" Probe_Running ""
           end]) /\
    match Filesystems (config c') with
    | [] => fs = []
    | _ :: _ =>
        match fsFromPath host (path c') (os c') with
        | Err _ => fs = []
        | Ok mnt =>
            exists probe,
              fs = [probe] /\
              Status probe =
              if Utils.StringInSlice (Filesystems (config c')) (SysTypeName mnt)
              then Probe_Running else Probe_Failed
        end
    end /\
    match diskCapacity (os c') (path c') with
    | Err _ => capacity = []
    | Ok avail =>
        if (avail <? MinFreeBytes (config c'))%Z
        then exists probe, capacity = [probe] /\ Status probe = Probe_Failed
        else capacity = []
    end /\
    (if (MinBytesPerSecond (config c') =? 0)%Z then speed = []
     else
       match diskSpeed (os c') (path c') "probe" with
       | Err _ => speed = []
       | Ok bps =>
           if (MinBytesPerSecond (config c') <=? bps)%Z then speed = []
           else exists probe, speed = [probe] /\ Status probe = Probe_Failed
       end).
Proof.
  intros Hpath.
  destruct (StorageChecks.checkFsType_adds host c' reporter) as (e1 & fs & H1 & S1).
  destruct (StorageChecks.checkCapacity_adds host c' (reporter ++ fs))
    as (e2 & capacity & H2 & S2).
  destruct (StorageChecks.checkWriteSpeed_adds host c' ((reporter ++ fs) ++ capacity))
    as (e3 & speed & H3 & S3).
  destruct (StorageChecks.check_errors_fixed host c' reporter (reporter ++ fs))
    as (_ & E2 & _).
  destruct (StorageChecks.check_errors_fixed host c' reporter
              ((reporter ++ fs) ++ capacity)) as (_ & _ & E3).
  exists fs, capacity, speed. split; [|split; [|split]].
  - rewrite H1, E2, H2, E3, H3. cbn [fst].
    unfold Check, check. rewrite Hpath, H1, H2, H3.
    destruct (NewAggregate [e1; e2; e3]); unfold Add; rewrite <- !app_assoc;
      reflexivity.
  - destruct (Filesystems (config c')); [tauto|].
    destruct (fsFromPath host (path c') (os c')); tauto.
  - destruct (diskCapacity (os c') (path c')); tauto.
  - destruct (MinBytesPerSecond (config c') =? 0)%Z; [tauto|].
    destruct (diskSpeed (os c') (path c') "probe"); tauto.
Qed.

(** X22. [Check] always reports, whenever every parent [filepath.Dir]
    gives on the way up is shorter than the path it was taken of, or is its
    own parent, or is that path itself. When [evalPath] fails, none of the three checks is
    run and the one probe added is built by [NewProbeFromErr] from that
    error. Otherwise the checks run on the path [evalPath] found, and what
    is added is, in this order: from the filesystem check one probe
    (Running or Failed) when an allow-list is configured and the mount is
    found, else none; from the capacity check one Failed probe when the
    available capacity is below [MinFreeBytes], else none; from the
    write-speed check one Failed probe when a minimum is configured and the
    measured speed is below it, else none; and the closing probe, Running
    when no check returned an error and built from the aggregated error
    otherwise. The probes the reporter held are kept. *)
Theorem Check_always_reports (c : storageChecker) (reporter : Reporter) :
  (forall k,
     let q := MonitoringOS.ancestor host c k in
     Dir host q = q \/
     (String.length (Dir host q) < String.length q)%nat \/
     Dir host (Dir host q) = Dir host q) ->
  exists err c' fs capacity speed closing,
    evalPath host c = Some (err, c') /\
    Check host c reporter = Some (reporter ++ fs ++ capacity ++ speed ++ [closing]) /\
    match err with
    | Some e =>
        fs = [] /\ capacity = [] /\ speed = [] /\
        closing = NewProbeFromErr host (checkerName c)
                    "failed to validate storage requirements" (Wrap (Wrap e []) [])
    | None =>
        Stat host (path c') = IsDir /\
        match Filesystems (config c) with
        | [] => fs = []
        | _ :: _ =>
            match fsFromPath host (path c') (os c) with
            | Err _ => fs = []
            | Ok mnt =>
                exists probe,
                  fs = [probe] /\
                  Status probe =
                  if Utils.StringInSlice (Filesystems (config c)) (SysTypeName mnt)
                  then Probe_Running else Probe_Failed
            end
        end /\
        match diskCapacity (os c) (path c') with
        | Err _ => capacity = []
        | Ok avail =>
            if (avail <? MinFreeBytes (config c))%Z
            then exists probe, capacity = [probe] /\ Status probe = Probe_Failed
            else capacity = []
        end /\
        (if (MinBytesPerSecond (config c) =? 0)%Z then speed = []
         else
           match diskSpeed (os c) (path c') "probe" with
           | Err _ => speed = []
           | Ok bps =>
               if (MinBytesPerSecond (config c) <=? bps)%Z then speed = []
               else exists probe, speed = [probe] /\ Status probe = Probe_Failed
           end) /\
        closing =
        match NewAggregate [fst (checkFsType host c' reporter);
                            fst (checkCapacity host c' reporter);
                            fst (checkWriteSpeed host c' reporter)] with
        | Some agg =>
            NewProbeFromErr host (checkerName c)
              "failed to validate storage requirements" (Wrap agg [])
        | None => mkProbe (checkerName c) "" Probe_Running ""
        end
    end.
Proof.
  intros Hshrink.
  destruct (evalPathLoop_returns (S (S (String.length (Path (config c))))) c
              (Path (config c))) as [[err c'] Hrun]; [lia|exact Hshrink|].
  fold (evalPath host c) in Hrun. exists err, c'.
  destruct err as [e|].
  - exists [], [], [].
    exists (NewProbeFromErr host (checkerName c)
              "failed to validate storage requirements" (Wrap (Wrap e []) [])).
    split; [exact Hrun|]. split; [|auto].
    unfold Check, check. rewrite Hrun. reflexivity.
  - destruct (Check_on_settled_path c c' reporter Hrun)
      as (fs & capacity & speed & Hcheck & S1 & S2 & S3).
    unfold evalPath in Hrun.
    destruct (evalPathLoop_found _ _ _ _ Hrun) as (Hc & Ho & Hdir & _).
    rewrite Hc, Ho in S1, S2, S3.
    exists fs, capacity, speed. eexists.
    split; [exact Hrun|]. split; [exact Hcheck|].
    split; [exact Hdir|]. split; [exact S1|]. split; [exact S2|].
    split; [exact S3|reflexivity].
Qed.

End Facts.

(** *** Writing the probe file *)

Import MonitoringOS.

Lemma writeLoop_spec (f : Sink) (rounds : nat) :
  forall made err total,
    writeLoop f rounds made = (err, total) ->
    (made <= total <= made + rounds)%nat /\
    (err = None ->
     total = (made + rounds)%nat /\
     forall k, (made <= k < total)%nat ->
       Write f k = None /\ ctxErrAfter f (S k) = None) /\
    (forall e, err = Some e ->
     (made < total)%nat /\
     (forall k, (made <= k < total - 1)%nat ->
        Write f k = None /\ ctxErrAfter f (S k) = None) /\
     ((exists cause,
         Write f (total - 1) = Some cause /\ e = ConvertSystemError f cause) \/
      (Write f (total - 1) = None /\
       exists cause, ctxErrAfter f total = Some cause /\ e = Wrap cause []))).
Proof.
  induction rounds as [|rounds IH]; intros made err total Hrun; cbn [writeLoop] in Hrun.
  - injection Hrun as <- <-. split; [lia|]. split; [|discriminate].
    intros _. split; [lia|]. intros k Hk. lia.
  - destruct (Write f made) as [cause|] eqn:Hw.
    + injection Hrun as <- <-. split; [lia|]. split; [discriminate|].
      intros e He. injection He as <-. split; [lia|]. split.
      * intros k Hk. lia.
      * left. exists cause. cbn [Nat.sub]. rewrite Nat.sub_0_r. auto.
    + destruct (ctxErrAfter f (S made)) as [cause|] eqn:Hc.
      * injection Hrun as <- <-. split; [lia|]. split; [discriminate|].
        intros e He. injection He as <-. split; [lia|]. split.
        -- intros k Hk. lia.
        -- right. cbn [Nat.sub]. rewrite Nat.sub_0_r. eauto.
      * destruct (IH _ _ _ Hrun) as (Hbound & Hok & Hfail).
        split; [lia|]. split.
        -- intros Hnone. destruct (Hok Hnone) as [Htotal Hall]. split; [lia|].
           intros k Hk. destruct (Nat.eq_dec k made) as [->|Hne]; [auto|].
           apply Hall. lia.
        -- intros e He. destruct (Hfail e He) as (Hlt & Hall & Hlast).
           split; [lia|]. split; [|exact Hlast].
           intros k Hk. destruct (Nat.eq_dec k made) as [->|Hne]; [auto|].
           apply Hall. lia.
Qed.

(** X23. [writeN] makes at most [n] writes and none when [n] is not
    positive. It returns nil exactly when each of the [n] writes succeeds
    and the context is not done after any of them, and it has then made all
    [n] writes. When it returns an error it stopped at the first write that
    failed or after which the context was done: every write before that one
    went through, and the error is the write's (converted) or else the
    context's (wrapped). *)
Theorem writeN_counts (f : Sink) (n : Z) :
  let (err, made) := writeN f n in
  (made <= Z.to_nat n)%nat /\
  (err = None <->
   forall k, (k < Z.to_nat n)%nat ->
     Write f k = None /\ ctxErrAfter f (S k) = None) /\
  (err = None -> made = Z.to_nat n) /\
  (forall e, err = Some e ->
   (1 <= made)%nat /\
   (forall k, (k < made - 1)%nat ->
      Write f k = None /\ ctxErrAfter f (S k) = None) /\
   ((exists cause,
       Write f (made - 1) = Some cause /\ e = ConvertSystemError f cause) \/
    (Write f (made - 1) = None /\
     exists cause, ctxErrAfter f made = Some cause /\ e = Wrap cause []))) /\
  ((n <= 0)%Z -> err = None /\ made = 0%nat).
Proof.
  unfold writeN. destruct (writeLoop f (Z.to_nat n) 0) as [err made] eqn:Hrun.
  destruct (writeLoop_spec _ _ _ _ _ Hrun) as (Hbound & Hok & Hfail).
  split; [lia|]. split; [|split; [|split]].
  - split.
    + intros Hnone. destruct (Hok Hnone) as [Htotal Hall].
      intros k Hk. apply Hall. lia.
    + intros Hclean. destruct err as [e|]; [|reflexivity]. exfalso.
      destruct (Hfail e eq_refl) as (Hlt & _ & Hlast).
      destruct (Hclean (made - 1)%nat) as [Hw Hc]; [lia|].
      replace (S (made - 1)) with made in Hc by lia.
      destruct Hlast as [(cause & Hcause & _)|(_ & cause & Hcause & _)]; congruence.
  - intros Hnone. destruct (Hok Hnone) as [Htotal _]. lia.
  - intros e He. destruct (Hfail e He) as (Hlt & Hall & Hlast).
    split; [lia|]. split; [|exact Hlast]. intros k Hk. apply Hall. lia.
  - intros Hn. replace (Z.to_nat n) with 0%nat in Hrun by lia.
    cbn in Hrun. injection Hrun as <- <-. auto.
Qed.

(** X24. A context that is already done is noticed only after the first write:
    with [n] positive and the first write succeeding, [writeN] makes exactly
    one write and returns the context's error. *)
Theorem writeN_cancelled_after_one_write (f : Sink) (n : Z) (cause : Error) :
  (forall k, ctxErrAfter f k = Some cause) ->
  Write f 0 = None ->
  (0 < n)%Z ->
  writeN f n = (Some (Wrap cause []), 1%nat).
Proof.
  intros Hdone Hwrite Hn. unfold writeN.
  destruct (Z.to_nat n) as [|rounds] eqn:Hrounds; [lia|].
  cbn [writeLoop]. rewrite Hwrite, Hdone. reflexivity.
Qed.



(** *** On the hosts of the scenarios *)

Lemma insertLast_perm (x : FileSystem) (run : list FileSystem) :
  Permutation (Scenarios.insertLast x run) (x :: run).
Proof.
  induction run as [|y rest IH]; cbn [Scenarios.insertLast]; [reflexivity|].
  destruct (Scenarios.childFirst x y); [|reflexivity].
  rewrite IH. apply perm_swap.
Qed.

Lemma insertionSort_perm (l : list FileSystem) :
  Permutation (Scenarios.insertionSort l) l.
Proof.
  unfold Scenarios.insertionSort. rewrite <- Permutation_rev.
  rewrite <- (app_nil_r l) at 2. generalize (@nil FileSystem) as run.
  induction l as [|x l IH]; intros run; cbn [fold_left app]; [reflexivity|].
  rewrite IH, insertLast_perm. symmetry. apply Permutation_middle.
Qed.

Lemma evalPath_nearest_directory_witness :
  let c := Cases.planned in
  let c' := mkStorageChecker (config c) "/data" (os c) in
  evalPath Cases.dataHost c = Some (None, c') /\
  config c' = config c /\ os c' = os c /\
  Stat Cases.dataHost (path c') = IsDir /\
  exists k,
    path c' = MonitoringOS.ancestor Cases.dataHost c k /\
    (forall j, (j < k)%nat ->
       exists e, Stat Cases.dataHost (MonitoringOS.ancestor Cases.dataHost c j)
                 = NotExist e) /\
    (WillBeCreated (config c) = false -> path c' = Path (config c)).
Proof.
  split; [reflexivity|].
  apply (evalPath_nearest_directory Cases.dataHost Cases.planned
           (mkStorageChecker (config Cases.planned) "/data" (os Cases.planned))).
  reflexivity.
Defined.

Lemma evalPath_returns_witness :
  exists err c',
    evalPath Cases.hereHost Cases.unnamed = Some (err, c') /\
    match err with
    | None => Stat Cases.hereHost (path c') = IsDir /\
              config c' = config Cases.unnamed
    | Some _ => c' = Cases.unnamed
    end.
Proof.
  apply (evalPath_returns Cases.hereHost Cases.unnamed).
  intros [|k]; cbn.
  - right. right. reflexivity.
  - left. reflexivity.
Defined.

Lemma fsFromPath_suitable_witness :
  let p := "/var/lib/gravity" in
  let listed := [mkFileSystem "/" "rootfs"; mkFileSystem "/" "xfs";
                 mkFileSystem "/boot" "ext4"] in
  mounts Scenarios.os0 = Ok listed /\
  (forall mnt,
     fsFromPath Scenarios.host0 p Scenarios.os0 = Ok mnt ->
     In mnt listed /\
     String.prefix (DirName mnt) p = true /\
     SysTypeName mnt <> "rootfs") /\
  ((exists err, fsFromPath Scenarios.host0 p Scenarios.os0 = Err err) <->
   (forall mnt, In mnt listed -> MonitoringOS.holds p mnt = false)).
Proof.
  split; [reflexivity|].
  apply (fsFromPath_suitable Scenarios.host0 "/var/lib/gravity" "/var/lib/gravity"
           Scenarios.os0
           [mkFileSystem "/" "rootfs"; mkFileSystem "/" "xfs";
            mkFileSystem "/boot" "ext4"]).
  - exact insertionSort_perm.
  - reflexivity.
  - reflexivity.
Defined.

Lemma Check_always_reports_witness :
  let host := Cases.dataHost in
  let c := Cases.planned in
  exists c' closing,
    evalPath host c = Some (None, c') /\
    Check host c [] = Some ([] ++ [] ++ [] ++ [] ++ [closing]) /\
    Stat host (path c') = IsDir /\
    closing = mkProbe (checkerName c) "" Probe_Running "".
Proof.
  destruct (Check_always_reports Cases.dataHost Cases.planned [])
    as (err & c' & fs & capacity & speed & closing & Hpath & Hcheck & Hrest).
  - intros k. cbv zeta.
    generalize (MonitoringOS.ancestor Cases.dataHost Cases.planned k) as q.
    intros q. unfold Cases.dataHost. cbn [Dir].
    destruct (String.eqb_spec q "/data/gravity/site") as [->|_];
      [right; left; cbn; lia|].
    destruct (String.eqb_spec q "/data/gravity") as [->|_];
      [right; left; cbn; lia|].
    right. right. reflexivity.
  - assert (Herr : err = None) by (cbv in Hpath; congruence).
    subst err. destruct Hrest as (Hdir & Hfs & Hcap & Hspeed & Hclosing).
    cbn in Hfs, Hcap, Hspeed. subst fs capacity speed.
    exists c', closing. split; [exact Hpath|]. split; [exact Hcheck|].
    split; [exact Hdir|].
    rewrite Hclosing. cbv in Hpath. injection Hpath as <-. reflexivity.
Defined.

Lemma writeN_cancelled_after_one_write_witness :
  writeN Cases.doomed 1024 = (Some (Wrap Cases.canceled []), 1%nat).
Proof.
  apply (writeN_cancelled_after_one_write Cases.doomed 1024 Cases.canceled).
  - intros k. reflexivity.
  - reflexivity.
  - lia.
Defined.

End StorageFacts.

(** ** More on the phases *)

Module PhaseFacts.

Import Phases.

Section Facts.
Context {Ext : Type}.
Variable env : Env Ext.

Lemma Get_setLabel_same (k v : string) (labels : list (string * string)) :
  GoMap.Get k (setLabel k v labels) = Some v.
Proof. exact (GoMapFacts.Get_Put_same k v labels). Qed.

Lemma Get_setLabel_other (k k' v : string) (labels : list (string * string)) :
  k <> k' -> GoMap.Get k (setLabel k' v labels) = GoMap.Get k labels.
Proof. exact (GoMapFacts.Get_Put_other k k' v labels). Qed.

(** The loop of [updateNode] over the profile's labels, in the order the
    map yields them: a key reads as the loop's last assignment to it. *)
Lemma labels_loop (server : Server) (labels : list (string * string)) :
  forall acc k,
    GoMap.Get k
      (fold_left
         (fun acc kv =>
            if String.eqb (fst kv) (KubernetesRoleLabel env)
            then setLabel (fst kv) (ClusterRole server) acc
            else setLabel (fst kv) (snd kv) acc)
         labels acc) =
    match find (fun kv => String.eqb (fst kv) k) (rev labels) with
    | Some kv =>
        Some (if String.eqb k (KubernetesRoleLabel env)
              then ClusterRole server else snd kv)
    | None => GoMap.Get k acc
    end.
Proof.
  induction labels as [|[q v] labels IH]; intros acc k; [reflexivity|].
  cbn [fold_left rev]. rewrite IH, KubeFacts.find_snoc.
  destruct (find (fun kv => String.eqb (fst kv) k) (rev labels)); [reflexivity|].
  cbn [fst snd]. destruct (String.eqb_spec q k) as [->|Hne].
  - destruct (String.eqb k (KubernetesRoleLabel env)); apply Get_setLabel_same.
  - destruct (String.eqb q (KubernetesRoleLabel env));
      apply Get_setLabel_other; congruence.
Qed.

Lemma find_last_Get (labels : list (string * string)) (k : string) :
  NoDup (map fst labels) ->
  find (fun kv => String.eqb (fst kv) k) (rev labels)
  = option_map (fun v => (k, v)) (GoMap.Get k labels).
Proof.
  intros Hnd.
  destruct (find (fun kv => String.eqb (fst kv) k) (rev labels)) as [[q v]|] eqn:Hfind.
  - apply find_some in Hfind. destruct Hfind as [Hin Hq]. cbn [fst] in Hq.
    apply String.eqb_eq in Hq. subst q. apply in_rev in Hin.
    rewrite (GoMapFacts.In_Get k v labels Hnd Hin). reflexivity.
  - destruct (GoMap.Get k labels) as [v|] eqn:Hget; [|reflexivity].
    apply GoMapFacts.Get_In in Hget. apply in_rev in Hget.
    eapply find_none in Hfind; [|exact Hget]. cbn [fst] in Hfind.
    now rewrite String.eqb_refl in Hfind.
Qed.

Lemma Get_Permutation {V : Type} (m m' : list (string * V)) (k : string) :
  NoDup (map fst m) -> Permutation m m' -> GoMap.Get k m' = GoMap.Get k m.
Proof.
  intros Hnd Hperm.
  assert (Hnd' : NoDup (map fst m'))
    by (eapply Permutation_NoDup; [apply Permutation_map; exact Hperm|exact Hnd]).
  destruct (GoMap.Get k m) as [v|] eqn:Hget.
  - apply GoMapFacts.In_Get; [exact Hnd'|].
    eapply Permutation_in; [exact Hperm|]. apply GoMapFacts.Get_In. exact Hget.
  - destruct (GoMap.Get k m') as [v|] eqn:Hget'; [|reflexivity].
    apply GoMapFacts.Get_In in Hget'.
    assert (Hin : In (k, v) m)
      by (eapply Permutation_in; [symmetry; exact Hperm|exact Hget']).
    rewrite (GoMapFacts.In_Get k v m Hnd Hin) in Hget. discriminate.
Qed.

(** X27. The labels [updateNode] sends for a node, for a profile whose labels
    are a map (no key twice). The advertise-IP label is the server's
    address, whatever the profile says. Any other key of the profile gets
    the profile's value, except the role label, which gets the server's
    cluster role and only when the profile has that key. Every other label
    of the node is kept. The outcome does not depend on the order in which
    the map of profile labels is walked. *)
Theorem updateNode_labels (server : Server)
  (labels current : list (string * string)) :
  NoDup (map fst labels) ->
  (forall k,
     GoMap.Get k (applyLabels env server labels current) =
     if String.eqb k (KubernetesAdvertiseIPLabel env) then Some (AdvertiseIP server)
     else match GoMap.Get k labels with
          | Some v =>
              Some (if String.eqb k (KubernetesRoleLabel env)
                    then ClusterRole server else v)
          | None => GoMap.Get k current
          end) /\
  (forall walked k,
     Permutation labels walked ->
     GoMap.Get k (applyLabels env server walked current)
     = GoMap.Get k (applyLabels env server labels current)).
Proof.
  intros Hnd.
  assert (Hget : forall l k,
            NoDup (map fst l) ->
            GoMap.Get k (applyLabels env server l current) =
            if String.eqb k (KubernetesAdvertiseIPLabel env) then Some (AdvertiseIP server)
            else match GoMap.Get k l with
                 | Some v =>
                     Some (if String.eqb k (KubernetesRoleLabel env)
                           then ClusterRole server else v)
                 | None => GoMap.Get k current
                 end).
  { intros l k Hl. unfold applyLabels.
    destruct (String.eqb_spec k (KubernetesAdvertiseIPLabel env)) as [->|Hne].
    - apply Get_setLabel_same.
    - rewrite Get_setLabel_other by exact Hne.
      rewrite labels_loop, (find_last_Get l k Hl).
      destruct (GoMap.Get k l); reflexivity. }
  split.
  - intros k. apply Hget. exact Hnd.
  - intros walked k Hperm.
    assert (Hnd' : NoDup (map fst walked))
      by (eapply Permutation_NoDup; [apply Permutation_map; exact Hperm|exact Hnd]).
    rewrite (Hget walked k Hnd'), (Hget labels k Hnd).
    rewrite (Get_Permutation labels walked k Hnd Hperm). reflexivity.
Qed.

(** X28. Of the five constructors only [NewApp] looks whether the phase carries
    data: on a phase without data it returns a bad-parameter error, while
    [NewWait], [NewNodes], [NewRBAC] and [NewResources] dereference the
    missing data and panic. *)
Theorem only_NewApp_checks_phase_data (p : ExecutorParams)
  (operator : Operator Ext) (apps : Applications Ext) (client : Clientset Ext)
  (w : World Ext) :
  phaseData (Phase p) = None ->
  (exists err,
     NewApp env p operator apps = (None, Some err) /\ IsBadParameter err = true) /\
  NewWait env p operator = None /\
  NewNodes env p operator apps client w = None /\
  NewRBAC env p operator apps client = None /\
  NewResources env p operator = None.
Proof.
  intros Hdata. unfold NewApp, NewWait, NewNodes, NewRBAC, NewResources.
  rewrite Hdata. split; [eexists; split; reflexivity|]. repeat split.
Qed.

End Facts.

(** *** On the two-node cluster *)

Lemma updateNode_labels_witness :
  let env := Scenarios.env0 in
  let server := Scenarios.node1 in
  NoDup (map fst Cases.profileLabels0) /\
  (forall k,
     GoMap.Get k (applyLabels env server Cases.profileLabels0 Cases.nodeLabels0) =
     if String.eqb k (KubernetesAdvertiseIPLabel env) then Some (AdvertiseIP server)
     else match GoMap.Get k Cases.profileLabels0 with
          | Some v =>
              Some (if String.eqb k (KubernetesRoleLabel env)
                    then ClusterRole server else v)
          | None => GoMap.Get k Cases.nodeLabels0
          end) /\
  (forall walked k,
     Permutation Cases.profileLabels0 walked ->
     GoMap.Get k (applyLabels env server walked Cases.nodeLabels0)
     = GoMap.Get k (applyLabels env server Cases.profileLabels0 Cases.nodeLabels0)).
Proof.
  assert (Hnd : NoDup (map fst Cases.profileLabels0)).
  { constructor; [intros [H|[]]; discriminate H|].
    constructor; [intros []|constructor]. }
  split; [exact Hnd|].
  apply (updateNode_labels Scenarios.env0 Scenarios.node1
           Cases.profileLabels0 Cases.nodeLabels0 Hnd).
Defined.

Lemma only_NewApp_checks_phase_data_witness :
  let p := Scenarios.bareParams in
  (exists err,
     NewApp Scenarios.env0 p Scenarios.operator0 Scenarios.noHooks = (None, Some err) /\
     IsBadParameter err = true) /\
  NewWait Scenarios.env0 p Scenarios.operator0 = None /\
  NewNodes Scenarios.env0 p Scenarios.operator0 Scenarios.noHooks Cases.emptyCluster
    Scenarios.freshWorld = None /\
  NewRBAC Scenarios.env0 p Scenarios.operator0 Scenarios.noHooks Cases.emptyCluster = None /\
  NewResources Scenarios.env0 p Scenarios.operator0 = None.
Proof.
  apply (only_NewApp_checks_phase_data Scenarios.env0 Scenarios.bareParams
           Scenarios.operator0 Scenarios.noHooks Cases.emptyCluster
           Scenarios.freshWorld).
  reflexivity.
Defined.

End PhaseFacts.

(** ** More on the installer's log *)

Module LogFacts.

Import Install.

Lemma readFile_writeFile_same (fs : list (string * string)) (p content : string) :
  readFile (writeFile fs p content) p = Some content.
Proof. unfold writeFile. cbn. now rewrite String.eqb_refl. Qed.

Lemma readFile_writeFile_other (fs : list (string * string)) (p q content : string) :
  q <> p -> readFile (writeFile fs p content) q = readFile fs q.
Proof.
  intros Hne. unfold writeFile. cbn [readFile].
  destruct (String.eqb_spec p q) as [->|_]; [contradiction|].
  induction fs as [|[r c] fs IH]; [reflexivity|].
  cbn [filter fst readFile]. destruct (String.eqb_spec r p) as [->|Hr]; cbn [negb readFile].
  - destruct (String.eqb_spec p q); [congruence|exact IH].
  - rewrite IH. reflexivity.
Qed.

(** X29. [Fire] changes nothing but its own file: every other file and the
    console are as before. It returns nil exactly when the entry is
    formatted, the file is opened and the write goes through, and then the
    file holds what it held (nothing, when it was missing) followed by the
    whole formatted entry. When it returns an error the file is either as
    it was or holds its old content followed by the part of the entry that
    was written before the write failed; old content is never lost. *)
Theorem Fire_appends_to_its_file (r : Hook) (entry : Entry) (m : Machine) :
  let old := match readFile (files m) (hookPath r) with
             | Some content => content
             | None => ""
             end in
  let err := fst (Fire r entry m) in
  let m' := snd (Fire r entry m) in
  (forall p, p <> hookPath r -> readFile (files m') p = readFile (files m) p) /\
  console m' = console m /\
  (err = None <->
   formatError m entry = None /\
   readOnly m (hookPath r) = false /\
   writeFault m (hookPath r) (entryString entry) = None) /\
  (err = None ->
   readFile (files m') (hookPath r) = Some (old ++ entryString entry)%string) /\
  (err <> None ->
   m' = m \/
   exists n cause,
     writeFault m (hookPath r) (entryString entry) = Some (n, cause) /\
     err = Some (Wrap cause []) /\
     readFile (files m') (hookPath r)
     = Some (old ++ substring 0 n (entryString entry))%string).
Proof.
  unfold Fire.
  destruct (formatError m entry) as [e|].
  { cbn. repeat split; try discriminate; auto.
    intros (H & _). discriminate H. }
  destruct (readOnly m (hookPath r)).
  { cbn. repeat split; try discriminate; auto.
    intros (_ & H & _). discriminate H. }
  destruct (writeFault m (hookPath r) (entryString entry)) as [[n cause]|];
    cbn [fst snd files console].
  - split; [intros p Hp; apply readFile_writeFile_other; exact Hp|].
    split; [reflexivity|]. split; [split; [discriminate|]|split; [discriminate|]].
    + intros (_ & _ & H). discriminate H.
    + intros _. right. exists n, cause. split; [reflexivity|].
      split; [reflexivity|]. apply readFile_writeFile_same.
  - split; [intros p Hp; apply readFile_writeFile_other; exact Hp|].
    split; [reflexivity|]. split; [split; auto|]. split.
    + intros _. apply readFile_writeFile_same.
    + intros H. contradiction.
Qed.

Lemma concat_cons (s : string) (l : list string) :
  String.concat "" (s :: l) = (s ++ String.concat "" l)%string.
Proof.
  destruct l as [|t l]; cbn; [symmetry; apply StorageChecks.append_empty_r|reflexivity].
Qed.

Lemma emit_to_file (lg : Logger) (logFile : string) (entry : Entry) (m : Machine)
  (content : string) :
  LoggerLevel lg = DebugLevel ->
  Out lg = Discard ->
  (forall l, Hooks lg l = [mkHook logFile]) ->
  readOnly m logFile = false ->
  formatError m entry = None ->
  writeFault m logFile (entryString entry) = None ->
  readFile (files m) logFile = Some content ->
  readFile (files (emit lg entry m)) logFile = Some (content ++ entryString entry)%string /\
  console (emit lg entry m) = console m /\
  readOnly (emit lg entry m) = readOnly m /\
  formatError (emit lg entry m) = formatError m /\
  writeFault (emit lg entry m) = writeFault m /\
  (forall p, p <> logFile ->
     readFile (files (emit lg entry m)) p = readFile (files m) p).
Proof.
  intros Hlevel Hout Hhooks Hrw Hformat Hwrite Hfile. unfold emit.
  rewrite Hlevel, Hout, Hhooks.
  replace (levelNumber (entryLevel entry) <=? levelNumber DebugLevel)%nat with true
    by (destruct (entryLevel entry); reflexivity).
  cbn [fireHooks]. unfold Fire. cbn [hookPath]. rewrite Hformat, Hrw, Hwrite, Hfile.
  cbn [files console readOnly formatError writeFault].
  split; [apply readFile_writeFile_same|]. repeat (split; [reflexivity|]).
  intros p Hp. apply readFile_writeFile_other. exact Hp.
Qed.

Lemma emit_all_to_file (lg : Logger) (logFile : string) (entries : list Entry) :
  LoggerLevel lg = DebugLevel ->
  Out lg = Discard ->
  (forall l, Hooks lg l = [mkHook logFile]) ->
  forall (m : Machine) (content : string),
    readOnly m logFile = false ->
    (forall e, In e entries ->
       formatError m e = None /\ writeFault m logFile (entryString e) = None) ->
    readFile (files m) logFile = Some content ->
    let m' := fold_left (fun acc e => emit lg e acc) entries m in
    readFile (files m') logFile
      = Some (content ++ String.concat "" (map entryString entries))%string /\
    console m' = console m /\
    (forall p, p <> logFile -> readFile (files m') p = readFile (files m) p).
Proof.
  intros Hlevel Hout Hhooks.
  induction entries as [|e rest IH]; intros m content Hrw Hsound Hfile; cbn zeta.
  - cbn. rewrite StorageChecks.append_empty_r. auto.
  - cbn [fold_left].
    destruct (Hsound e) as [Hformat Hwrite]; [left; reflexivity|].
    destruct (emit_to_file lg logFile e m content Hlevel Hout Hhooks Hrw
                Hformat Hwrite Hfile)
      as (Hfile1 & Hconsole1 & Hro1 & Hfmt1 & Hwf1 & Hother1).
    assert (Hrw1 : readOnly (emit lg e m) logFile = false) by (rewrite Hro1; exact Hrw).
    assert (Hsound1 : forall e', In e' rest ->
              formatError (emit lg e m) e' = None /\
              writeFault (emit lg e m) logFile (entryString e') = None).
    { intros e' Hin. rewrite Hfmt1, Hwf1. apply Hsound. right. exact Hin. }
    destruct (IH _ _ Hrw1 Hsound1 Hfile1) as (Hfile2 & Hconsole2 & Hother2).
    split; [|split].
    + rewrite Hfile2. f_equal. rewrite StorageChecks.append_assoc. f_equal.
      cbn [map]. symmetry. apply concat_cons.
    + rewrite Hconsole2. exact Hconsole1.
    + intros p Hp. rewrite (Hother2 p Hp). apply Hother1. exact Hp.
Qed.

(** X30. The log file after [InitLogging] on the standard logger, on a
    machine where the file can be opened and where, for the entries logged,
    the formatter does not fail and the writes to the file go through. The
    call empties the file, whatever it held. From then on the file holds
    the entries logged, of every level down to debug, in the order logged
    and nothing else; the console receives none of them, and no other file
    is written. *)
Theorem log_file_records_every_entry (logFile : string) (m : Machine)
  (entries : list Entry) :
  readOnly m logFile = false ->
  (forall e, In e entries ->
     formatError m e = None /\ writeFault m logFile (entryString e) = None) ->
  exists lg m0,
    InitLogging logFile StandardLogger m = (None, lg, m0) /\
    readFile (files m0) logFile = Some "" /\
    let m' := fold_left (fun acc e => emit lg e acc) entries m0 in
    readFile (files m') logFile = Some (String.concat "" (map entryString entries)) /\
    console m' = console m /\
    (forall p, p <> logFile -> readFile (files m') p = readFile (files m) p).
Proof.
  intros Hrw Hsound. unfold InitLogging, NewLogHook. rewrite Hrw.
  do 2 eexists. split; [reflexivity|].
  split; [apply readFile_writeFile_same|].
  set (lg := mkLogger _ _ _). set (m0 := mkMachine _ _ _ _ _).
  destruct (emit_all_to_file lg logFile entries) with (m := m0) (content := "")
    as (Hfile & Hconsole & Hother).
  - reflexivity.
  - reflexivity.
  - intros l. subst lg. cbn [Hooks]. rewrite LogHook.addHook_every_level. reflexivity.
  - exact Hrw.
  - exact Hsound.
  - apply readFile_writeFile_same.
  - cbn zeta. split; [exact Hfile|]. split; [exact Hconsole|].
    intros p Hp. rewrite (Hother p Hp). subst m0. cbn [files].
    apply readFile_writeFile_other. exact Hp.
Qed.

(** A write that stops after five bytes: the hook returns the error, the
    file keeps the five bytes, and logrus reports the failure on the
    console. *)
Example short_write_is_reported :
  let m := mkMachine [] "" (fun _ => false) (fun _ => None)
             (fun _ _ => Some (5%nat, mkError SystemKind "no space left on device" [])) in
  let m0 := snd (InitLogging Scenarios.installLog StandardLogger m) in
  let lg := snd (fst (InitLogging Scenarios.installLog StandardLogger m)) in
  readFile (files (emit lg Scenarios.diskWarning m0)) Scenarios.installLog
  = Some "level" /\
  console (emit lg Scenarios.diskWarning m0)
  = ("Failed to fire hook: no space left on device" ++ String (ascii_of_nat 10) "")%string.
Proof. split; reflexivity. Qed.

(** *** On the scenario's machine *)

Lemma log_file_records_every_entry_witness :
  exists lg m0,
    InitLogging Scenarios.installLog StandardLogger Scenarios.machine0 = (None, lg, m0) /\
    readFile (files m0) Scenarios.installLog = Some "" /\
    let m' := fold_left (fun acc e => emit lg e acc) Cases.firstLines m0 in
    readFile (files m') Scenarios.installLog
      = Some (String.concat "" (map entryString Cases.firstLines)) /\
    console m' = console Scenarios.machine0 /\
    (forall p, p <> Scenarios.installLog ->
       readFile (files m') p = readFile (files Scenarios.machine0) p).
Proof.
  apply (log_file_records_every_entry Scenarios.installLog Scenarios.machine0
           Cases.firstLines).
  - reflexivity.
  - intros e _. split; reflexivity.
Defined.

End LogFacts.
